(** * The visitor service of the front-desk application

    A shallow embedding of [src/services/visitorService.ts] (class
    [VisitorService]) and of the code that calls it: the application shell
    ([handleEmergencyEvacuation], the count of active visitors, the pages
    and who is shown them), the front-desk dashboard (its selection and
    its single check-out) and the sheets of the backup.

    The service is a thin layer over a document database.  The embedding
    therefore has three layers:

    - the JavaScript values that flow through the service (documents are
      untyped at run time: [mapDocToVisitor] takes [doc: any]);
    - the database: two collections of documents, the query constraints
      [where]/[orderBy], and the three calls [addDoc], [updateDoc] and
      [getDocs], each of which may be rejected;
    - the service itself, written in a state-and-exception monad over the
      world the service runs in (database, clock, random source). *)

From stdpp Require Import base option list gmap strings pretty.
From Stdlib Require Import ZArith String Ascii Sorted Permutation Lia.

#[local] Set Warnings "-register-all".
#[local] Open Scope string_scope.
#[local] Open Scope Z_scope.

(** ** JavaScript values *)

(** The values a document field, a parsed JSON text or a property of the
    objects handled by the service can hold.  [undefined] is not a value of
    its own: reading a property that is absent gives [None].  An object
    with a property that is present and [undefined] is not among these
    objects; the database client refuses to write one
    ([invalid-argument], before any request is sent), and where the
    service builds such an object itself, for the audit log, the refusal
    is written out ([defined_props]).  Numbers are the integers (no
    fractional part, no NaN).  A [Date] is a number of milliseconds since
    the epoch; a [Timestamp] is a number of microseconds since the epoch,
    the precision that the database keeps (the seconds and nanoseconds of
    the client's [Timestamp] object, the nanoseconds being a multiple of a
    thousand).  Objects keep their properties in insertion order. *)
Inductive value : Type :=
| VNull
| VBool (b : bool)
| VNum (n : Z)
| VStr (s : string)
| VTimestamp (micros : Z)
| VDate (ms : Z)
| VArr (items : list value)
| VMap (props : list (string * value)).

(** A plain object: a document's data, a payload, a health screening. *)
Abbreviation obj := (list (string * value)).

(** [o.k]; [None] is [undefined]. *)
Fixpoint obj_get (k : string) (o : obj) : option value :=
  match o with
  | [] => None
  | (k', v) :: o' => if String.eqb k k' then Some v else obj_get k o'
  end.

(** [{...o, k: v}]: an existing property keeps its place and takes the new
    value, a new property goes last. *)
Fixpoint obj_set (k : string) (v : value) (o : obj) : obj :=
  match o with
  | [] => [(k, v)]
  | (k', v') :: o' =>
      if String.eqb k k' then (k, v) :: o' else (k', v') :: obj_set k v o'
  end.

(** [{...o, ...patch}], property by property, in the order of [patch]. *)
Definition obj_assign (patch o : obj) : obj :=
  fold_left (fun acc kv => obj_set kv.1 kv.2 acc) patch o.

(** Truthiness, as tested by [if (x)], [x || y] and [!x]. *)
Definition truthy (v : value) : bool :=
  match v with
  | VNull => false
  | VBool b => b
  | VNum n => negb (n =? 0)
  | VStr s => negb (String.eqb s "")
  | _ => true
  end.

(** [x || dflt] for a property [x] that may be absent. *)
Definition or_else (x : option value) (dflt : value) : value :=
  match x with
  | Some v => if truthy v then v else dflt
  | None => dflt
  end.

(** [x.k] for an arbitrary non-null [x]: only objects have the properties
    the service asks for ([screeningDate], [id], [visitorId]). *)
Definition prop (k : string) (x : value) : option value :=
  match x with
  | VMap o => obj_get k o
  | _ => None
  end.

(** The own enumerable properties copied by [{...x}]. *)
Definition spread (x : value) : obj :=
  match x with
  | VMap o => o
  | VArr l => imap (fun i v => (pretty i, v)) l
  | VStr s =>
      imap (fun i c => (pretty i, VStr (String c EmptyString)))
           (list_ascii_of_string s)
  | VTimestamp micros =>
      [("seconds", VNum (micros / 1000000));
       ("nanoseconds", VNum ((micros mod 1000000) * 1000))]
  | _ => []
  end.

(** *** Exceptions *)

Inductive error : Type :=
| FirebaseError (code : string)
| TypeError
| SyntaxError.

(** [error.code]; [None] is [undefined]. *)
Definition error_code (e : error) : option string :=
  match e with
  | FirebaseError c => Some c
  | _ => None
  end.

Inductive outcome (A : Type) : Type :=
| Ok (a : A)
| Throw (e : error).
Arguments Ok {A} a.
Arguments Throw {A} e.

#[global] Instance outcome_ret : MRet outcome := fun A a => Ok a.
#[global] Instance outcome_bind : MBind outcome := fun A B f m =>
  match m with
  | Ok a => f a
  | Throw e => Throw e
  end.

(** [xs.map(f)] for an [f] that may throw: the first exception ends the map. *)
Fixpoint map_throwing {A B} (f : A -> outcome B) (xs : list A) : outcome (list B) :=
  match xs with
  | [] => Ok []
  | x :: xs' => y ← f x; ys ← map_throwing f xs'; Ok (y :: ys)
  end.

(** *** Timestamps and dates *)

(** The [Timestamp] of a whole number of milliseconds: what
    [Timestamp.fromDate] makes of a [Date], and [Timestamp.now()] of the
    clock. *)
Definition Timestamp_fromMillis (ms : Z) : value := VTimestamp (ms * 1000).
Arguments Timestamp_fromMillis : simpl never.

(** [x?.toDate() || null]: absent and [null] skip the call; a [Timestamp]
    answers with a [Date] (an object, hence truthy); any other value has no
    [toDate] method and the call throws.  [toDate] makes the [Date] from
    [seconds * 1000 + nanoseconds / 1e6], of which [new Date] drops the
    fraction: the microseconds beyond the millisecond are lost (towards
    zero).  The sum is a floating-point number, off by less than a
    microsecond for the dates of this century and the next, so that the
    millisecond is the right one. *)
Definition toDate_or_null (x : option value) : outcome value :=
  match x with
  | None | Some VNull => Ok VNull
  | Some (VTimestamp micros) => Ok (VDate (micros ÷ 1000))
  | Some _ => Throw TypeError
  end.

(** [Timestamp.fromDate(x)] reads [x.getTime()]: only a [Date] has it. *)
Definition Timestamp_fromDate (x : value) : outcome value :=
  match x with
  | VDate ms => Ok (Timestamp_fromMillis ms)
  | _ => Throw TypeError
  end.

(** [x?.getTime() || 0] on a field produced by [toDate_or_null]. *)
Definition getTime_or_0 (x : value) : Z :=
  match x with
  | VDate ms => ms
  | _ => 0
  end.

(** *** Strings *)

Definition toUpperCase_ascii (c : ascii) : ascii :=
  let n := nat_of_ascii c in
  if ((97 <=? n) && (n <=? 122))%nat then ascii_of_nat (n - 32) else c.

Fixpoint toUpperCase (s : string) : string :=
  match s with
  | EmptyString => EmptyString
  | String c s' => String (toUpperCase_ascii c) (toUpperCase s')
  end.

(** [s.substr(start, len)] for non-negative arguments. *)
Definition substr (start len : nat) (s : string) : string :=
  substring start len s.

(** [s.slice(-n)]: the last [n] characters, all of [s] when it is shorter. *)
Definition slice_last (n : nat) (s : string) : string :=
  substring (String.length s - n) n s.

(** ** The visitor record *)

(** The object built by [mapDocToVisitor].  The TypeScript interface
    [Visitor] is only a compile-time view ([as unknown as Visitor]): at run
    time every property holds whatever the document held. *)
Record Visitor : Type := mkVisitor {
  id : string;
  fullName : value;
  phoneNumber : value;
  photoURL : value;
  residentName : value;
  roomNumber : value;
  purpose : value;
  visitorIdNumber : value;
  checkInTime : value;
  checkOutTime : value;
  status : value;
  qrCode : value;
  badgeNumber : value;
  healthScreening : value;
}.

(** [mapDocToVisitor(doc)] with [doc.id = docId] and [doc.data() = data]. *)
Definition mapDocToVisitor (docId : string) (data : obj) : outcome Visitor :=
  healthScreening ←
    match obj_get "healthScreening" data with
    | Some hs =>
        if truthy hs then
          screeningDate ← toDate_or_null (prop "screeningDate" hs);
          Ok (VMap (obj_set "screeningDate" screeningDate (spread hs)))
        else Ok VNull
    | None => Ok VNull
    end;
  checkInTime ← toDate_or_null (obj_get "checkInTime" data);
  checkOutTime ← toDate_or_null (obj_get "checkOutTime" data);
  Ok {|
    id := docId;
    fullName := or_else (obj_get "fullName" data) (VStr "");
    phoneNumber := or_else (obj_get "phoneNumber" data) (VStr "");
    photoURL := or_else (obj_get "photoURL" data) VNull;
    residentName := or_else (obj_get "residentName" data) (VStr "");
    roomNumber := or_else (obj_get "roomNumber" data) (VStr "");
    purpose := or_else (obj_get "purpose" data) (VStr "");
    visitorIdNumber := or_else (obj_get "visitorIdNumber" data) (VStr "");
    checkInTime := checkInTime;
    checkOutTime := checkOutTime;
    status := or_else (obj_get "status" data) (VStr "checked-in");
    qrCode := or_else (obj_get "qrCode" data) (VStr "");
    badgeNumber := or_else (obj_get "badgeNumber" data) (VStr "");
    healthScreening := healthScreening;
  |}.

(** ** The document database *)

(** What the database keeps of a value that is written: a [Date] becomes a
    [Timestamp], at every depth. *)
Fixpoint to_firestore (v : value) : value :=
  match v with
  | VDate ms => Timestamp_fromMillis ms
  | VArr l => VArr (map to_firestore l)
  | VMap o => VMap (map (fun '(k, x) => (k, to_firestore x)) o)
  | _ => v
  end.

Definition to_firestore_obj (o : obj) : obj :=
  map (fun '(k, x) => (k, to_firestore x)) o.

(** Equality of stored values, as tested by [where(f, '==', v)]: same type
    and same content; two maps are equal when they have the same keys with
    equal values. *)
Fixpoint value_eqb (a b : value) : bool :=
  match a, b with
  | VNull, VNull => true
  | VBool x, VBool y => Bool.eqb x y
  | VNum x, VNum y => x =? y
  | VStr x, VStr y => String.eqb x y
  | VTimestamp x, VTimestamp y => x =? y
  | VDate x, VDate y => x =? y
  | VArr xs, VArr ys =>
      (fix all2 (xs ys : list value) : bool :=
         match xs, ys with
         | [], [] => true
         | x :: xs', y :: ys' => value_eqb x y && all2 xs' ys'
         | _, _ => false
         end) xs ys
  | VMap o, VMap p =>
      (List.length o =? List.length p)%nat
      && forallb (fun '(k, x) =>
                    match obj_get k p with
                    | Some y => value_eqb x y
                    | None => false
                    end) o
  | _, _ => false
  end.

(** The rank of a value's type in the database's ordering of values of
    different types. *)
Definition type_rank (v : value) : nat :=
  match v with
  | VNull => 0
  | VBool _ => 1
  | VNum _ => 2
  | VTimestamp _ | VDate _ => 3
  | VStr _ => 4
  | VArr _ => 5
  | VMap _ => 6
  end.

(** What the service takes from the platform it runs on, and that has no
    source in the repository: the JSON codec and ISO date format of the
    JavaScript runtime, the local-time day bounds of [date-fns]
    ([setHours(0, 0, 0, 0)] on a fresh [Date] is [startOfDay]), and the
    database's ordering among arrays and among maps. *)
Class Runtime : Type := {
  JSON_parse : string -> option value;
  JSON_stringify : value -> string;
  toISOString : Z -> string;
  startOfDay : Z -> Z;
  endOfDay : Z -> Z;
  composite_compare : value -> value -> comparison;
}.

(** The query constraints the service builds with [where(field, op, v)] and
    [orderBy(field, dir)]; [query(collection, c1, ..., cn)] is the list
    [[c1; ...; cn]]. *)
Inductive op : Type := OpEq | OpGe | OpLe.
Inductive direction : Type := Asc | Desc.
Inductive constraint : Type :=
| where_ (field : string) (o : op) (v : value)
| orderBy (field : string) (d : direction).
Abbreviation query := (list constraint).

(** A document of a query snapshot: [doc.id] and [doc.data()]. *)
Abbreviation snapshot_doc := (string * obj)%type.

Section Database.
Context `{RT : Runtime}.

(** The database's total order on stored values: by type first, then
    within the type. *)
Definition fs_compare (a b : value) : comparison :=
  match a, b with
  | VNull, VNull => Eq
  | VBool x, VBool y =>
      match x, y with
      | false, true => Lt
      | true, false => Gt
      | _, _ => Eq
      end
  | VNum x, VNum y => x ?= y
  | VTimestamp x, VTimestamp y => x ?= y
  | VTimestamp x, VDate y => x ?= y * 1000
  | VDate x, VTimestamp y => x * 1000 ?= y
  | VDate x, VDate y => x ?= y
  | VStr x, VStr y => String.compare x y
  | _, _ =>
      match Nat.compare (type_rank a) (type_rank b) with
      | Eq => composite_compare a b
      | c => c
      end
  end.

(** [where(f, op, v)] keeps the documents whose field [f] exists and
    compares as asked with [v]; a range comparison only holds between
    values of one type.  [orderBy(f, _)] keeps the documents that have
    the field [f]: a document without the field is in no ordering on it,
    and so in no result ordered by it. *)
Definition satisfies (c : constraint) (data : obj) : bool :=
  match c with
  | where_ f o v =>
      match obj_get f data with
      | None => false
      | Some x =>
          let v := to_firestore v in
          match o with
          | OpEq => value_eqb x v
          | OpGe =>
              (type_rank x =? type_rank v)%nat
              && match fs_compare x v with Lt => false | _ => true end
          | OpLe =>
              (type_rank x =? type_rank v)%nat
              && match fs_compare x v with Gt => false | _ => true end
          end
      end
  | orderBy f _ => bool_decide (is_Some (obj_get f data))
  end.

(** The orderings of a query, in the order they were given. *)
Definition orderings (q : query) : list (string * direction) :=
  omap (fun c => match c with
                 | orderBy f d => Some (f, d)
                 | where_ _ _ _ => None
                 end) q.

(** Results are ordered by the [orderBy] fields, then by document id; the
    id is compared in the direction of the last [orderBy], ascending when
    there is none. *)
Fixpoint doc_before (os : list (string * direction)) (last : direction)
    (a b : snapshot_doc) : bool :=
  match os with
  | [] =>
      match last with
      | Asc => String.leb a.1 b.1
      | Desc => String.leb b.1 a.1
      end
  | (f, d) :: os' =>
      match obj_get f a.2, obj_get f b.2 with
      | Some x, Some y =>
          match fs_compare x y, d with
          | Eq, _ => doc_before os' d a b
          | Lt, Asc | Gt, Desc => true
          | Lt, Desc | Gt, Asc => false
          end
      | _, _ => doc_before os' d a b
      end
  end.
End Database.

(** Insertion sort, stable for a [before] that holds between equal
    elements: an element of the input stays ahead of the later ones it is
    [before]. *)
Fixpoint insert_by {A} (before : A -> A -> bool) (x : A) (l : list A) : list A :=
  match l with
  | [] => [x]
  | y :: l' => if before x y then x :: l else y :: insert_by before x l'
  end.

Definition sort_by {A} (before : A -> A -> bool) (l : list A) : list A :=
  foldr (insert_by before) [] l.

(** [xs.sort(cmp)]: a stable sort (ECMAScript 2019) that leaves [a] ahead of
    [b] when [cmp(a, b) <= 0]. *)
Definition js_sort {A} (cmp : A -> A -> Z) (xs : list A) : list A :=
  sort_by (fun a b => cmp a b <=? 0) xs.

Section Queries.
Context `{RT : Runtime}.

(** The documents of a collection that a query keeps. *)
Definition matched (q : query) (coll : gmap string obj) : list snapshot_doc :=
  List.filter (fun d : snapshot_doc => forallb (fun c => satisfies c d.2) q)
              (map_to_list coll).

(** The snapshot of a query over a collection. *)
Definition run_query (q : query) (coll : gmap string obj) : list snapshot_doc :=
  sort_by (doc_before (orderings q) Asc) (matched q coll).
End Queries.

(** ** The world the service runs in *)

(** The two collections, and the sources of everything the service does
    not decide itself: the wall clock ([now], and the milliseconds that
    pass after each reading), the renderings [Math.random().toString(36)]
    of the coming random draws, the ids the database client will give to
    new documents, and the fate of the coming database calls ([Some e]: the
    call is rejected with [e]).  [alerts] collects the texts shown by
    [alert]. *)
Record World : Type := mkWorld {
  visitors : gmap string obj;
  audit_logs : gmap string obj;
  now : Z;
  elapse : list Z;
  randoms : list string;
  auto_ids : list string;
  faults : list (option error);
  alerts : list string;
}.

Inductive collection : Type := visitorsCollection | auditCollection.

Definition docs_of (c : collection) (w : World) : gmap string obj :=
  match c with
  | visitorsCollection => visitors w
  | auditCollection => audit_logs w
  end.

Definition set_docs (c : collection) (m : gmap string obj) (w : World) : World :=
  match c with
  | visitorsCollection =>
      mkWorld m (audit_logs w) (now w) (elapse w) (randoms w) (auto_ids w)
              (faults w) (alerts w)
  | auditCollection =>
      mkWorld (visitors w) m (now w) (elapse w) (randoms w) (auto_ids w)
              (faults w) (alerts w)
  end.

(** The world after a reading of the clock. *)
Definition tick (w : World) : World :=
  mkWorld (visitors w) (audit_logs w) (now w + hd 0 (elapse w)) (tl (elapse w))
          (randoms w) (auto_ids w) (faults w) (alerts w).

Definition set_randoms (rs : list string) (w : World) : World :=
  mkWorld (visitors w) (audit_logs w) (now w) (elapse w) rs (auto_ids w)
          (faults w) (alerts w).

Definition set_auto_ids (ids : list string) (w : World) : World :=
  mkWorld (visitors w) (audit_logs w) (now w) (elapse w) (randoms w) ids
          (faults w) (alerts w).

Definition set_faults (fs : list (option error)) (w : World) : World :=
  mkWorld (visitors w) (audit_logs w) (now w) (elapse w) (randoms w)
          (auto_ids w) fs (alerts w).

Definition set_alerts (texts : list string) (w : World) : World :=
  mkWorld (visitors w) (audit_logs w) (now w) (elapse w) (randoms w)
          (auto_ids w) (faults w) texts.

(** A computation of the service: it may change the world, and it returns
    or throws.  What was written before an exception stays written. *)
Definition M (A : Type) : Type := World -> outcome A * World.

#[global] Instance M_ret : MRet M := fun A a w => (Ok a, w).
#[global] Instance M_bind : MBind M := fun A B f m w =>
  match m w with
  | (Ok a, w') => f a w'
  | (Throw e, w') => (Throw e, w')
  end.

Definition throw {A} (e : error) : M A := fun w => (Throw e, w).

Definition lift {A} (o : outcome A) : M A := fun w => (o, w).

(** [try { body } catch (e) { handler }]. *)
Definition try_catch {A} (body : M A) (handler : error -> M A) : M A :=
  fun w =>
    match body w with
    | (Ok a, w') => (Ok a, w')
    | (Throw e, w') => handler e w'
    end.

(** A promise run to its settlement: fulfilled or rejected, the
    computation that holds it goes on. *)
Definition settle {A} (m : M A) : M (outcome A) :=
  fun w => let '(r, w') := m w in (Ok r, w').

(** [Promise.all]: the values when every promise is fulfilled, else one
    rejection, here the one of the earliest promise of the list that is
    rejected. *)
Fixpoint Promise_all {A} (rs : list (outcome A)) : outcome (list A) :=
  match rs with
  | [] => Ok []
  | Ok a :: rs' => match Promise_all rs' with
                   | Ok l => Ok (a :: l)
                   | Throw e => Throw e
                   end
  | Throw e :: _ => Throw e
  end.

(** [xs.map(f)] for an [f] that starts an asynchronous call: every call is
    started, and settles on its own. *)
Fixpoint map_settled {A B} (f : A -> M B) (xs : list A) : M (list (outcome B)) :=
  match xs with
  | [] => mret []
  | x :: xs' => r ← settle (f x); rs ← map_settled f xs'; mret (r :: rs)
  end.

(** [Date.now()], also the time held by [new Date()]. *)
Definition Date_now : M Z := fun w => (Ok (now w), tick w).

(** [Math.random().toString(36)]; a draw of zero (rendered ["0"]) when the
    list has run out. *)
Definition Math_random_toString36 : M string := fun w =>
  (Ok (hd "0" (randoms w)), set_randoms (tl (randoms w)) w).

Definition alert (text : string) : M unit := fun w =>
  (Ok tt, set_alerts (alerts w ++ [text]) w).

(** The id of a new document reference. *)
Definition auto_id : M string := fun w =>
  (Ok (hd "" (auto_ids w)), set_auto_ids (tl (auto_ids w)) w).

(** The fate of the next request to the database: [Some e] when it will
    be rejected with [e]. *)
Definition next_fault (w : World) : option error :=
  match faults w with
  | f :: _ => f
  | [] => None
  end.

(** The fate of the request after [k] others. *)
Definition fault_at (k : nat) (w : World) : option error :=
  match faults w !! k with
  | Some f => f
  | None => None
  end.

(** The time on the clock after [k] readings. *)
Definition time_at (k : nat) (w : World) : Z := now (Nat.iter k tick w).

(** How a write to a document ends. *)
Definition write_outcome (fault : option error) (doc : option obj)
  : outcome unit :=
  match fault, doc with
  | Some e, _ => Throw e
  | None, None => Throw (FirebaseError "not-found")
  | None, Some _ => Ok tt
  end.

(** A request to the database: answered, or rejected as [faults] says. *)
Definition request : M unit := fun w =>
  (match next_fault w with
   | Some e => Throw e
   | None => Ok tt
   end, set_faults (tl (faults w)) w).

Definition read_docs (c : collection) : M (gmap string obj) :=
  fun w => (Ok (docs_of c w), w).

Definition write_docs (c : collection) (m : gmap string obj) : M unit :=
  fun w => (Ok tt, set_docs c m w).

(** [addDoc(collection, data)]: a document under a new id; returns
    [docRef.id].  The data are an object all of whose properties are
    defined. *)
Definition addDoc (c : collection) (data : obj) : M string :=
  i ← auto_id;
  request;;
  m ← read_docs c;
  write_docs c (<[i := to_firestore_obj data]> m);;
  mret i.

(** [updateDoc(doc(db, collection, id), patch)]: sets the fields of [patch]
    in an existing document, and is rejected with [not-found] when there is
    no such document. *)
Definition updateDoc (c : collection) (i : string) (patch : obj) : M unit :=
  request;;
  m ← read_docs c;
  match m !! i with
  | None => throw (FirebaseError "not-found")
  | Some data => write_docs c (<[i := obj_assign (to_firestore_obj patch) data]> m)
  end.

Section Service.
Context `{RT : Runtime}.

(** [getDocs(query(collection, c1, ..., cn))]; [getDocs(collection)] is
    the query without constraint. *)
Definition getDocs (c : collection) (q : query) : M (list snapshot_doc) :=
  request;;
  m ← read_docs c;
  mret (run_query q m).

(** [doc => this.mapDocToVisitor(doc)]. *)
Definition convert (d : snapshot_doc) : outcome Visitor :=
  mapDocToVisitor d.1 d.2.

(** [snapshot.docs.map(doc => this.mapDocToVisitor(doc))]. *)
Definition map_docs (docs : list snapshot_doc) : M (list Visitor) :=
  lift (map_throwing convert docs).

(** The comparator [(a, b) => (b.checkInTime?.getTime() || 0) -
    (a.checkInTime?.getTime() || 0)]: newest first. *)
Definition newest_first (a b : Visitor) : Z :=
  getTime_or_0 (checkInTime b) - getTime_or_0 (checkInTime a).

(** *** Utilities *)

Definition generateVisitorIdNumber : M string :=
  t ← Date_now;
  r ← Math_random_toString36;
  mret ("VID-" +:+ pretty t +:+ "-" +:+ toUpperCase (substr 2 6 r)).

Definition generateQRCode (visitorIdNumber : value) : M string :=
  ts ← Date_now;
  mret (JSON_stringify
          (VMap [("t", VStr "v"); ("id", visitorIdNumber); ("ts", VNum ts)])).

Definition generateBadgeNumber : M string :=
  t ← Date_now;
  mret ("B" +:+ slice_last 6 (pretty t)).

(** An object literal some of whose properties may be [undefined]; the
    database client refuses to write such a property. *)
Fixpoint defined_props (ps : list (string * option value)) : outcome obj :=
  match ps with
  | [] => Ok []
  | (k, Some v) :: ps' => o ← defined_props ps'; Ok ((k, v) :: o)
  | (_, None) :: _ => Throw (FirebaseError "invalid-argument")
  end.

(** A failed audit write is logged and forgotten. *)
Definition logAudit (action userId visitorId : string)
    (details : list (string * option value)) : M unit :=
  try_catch
    (t ← Date_now;
     details ← lift (defined_props details);
     addDoc auditCollection
       [("timestamp", Timestamp_fromMillis t); ("action", VStr action);
        ("userId", VStr userId); ("visitorId", VStr visitorId);
        ("details", VMap details)];;
     mret tt)
    (fun _ => mret tt).

(** *** Check-in *)

(** The ids of the visit: those of a returning visitor who brings a
    [visitorIdNumber], new ones otherwise. *)
Definition choose_ids (visitorData : obj) (isReturningVisitor : bool)
  : M (value * string * string) :=
  let returning :=
    match obj_get "visitorIdNumber" visitorData with
    | Some given => if isReturningVisitor && truthy given then Some given else None
    | None => None
    end in
  match returning with
  | Some given =>
      let visitorIdNumber := given in
      qrCode ← generateQRCode visitorIdNumber;
      badgeNumber ← generateBadgeNumber;
      mret (visitorIdNumber, qrCode, badgeNumber)
  | None =>
      visitorIdNumber ← generateVisitorIdNumber;
      qrCode ← generateQRCode (VStr visitorIdNumber);
      badgeNumber ← generateBadgeNumber;
      mret (VStr visitorIdNumber, qrCode, badgeNumber)
  end.

(** "Only add healthScreening if it exists": the screening goes into the
    payload with its date as a [Timestamp], today's when it has none. *)
Definition with_healthScreening (visitorData visitorPayload : obj) : M obj :=
  match obj_get "healthScreening" visitorData with
  | Some hs =>
      if truthy hs then
        d ← match prop "screeningDate" hs with
            | Some d =>
                if truthy d then mret d
                else (t ← Date_now; mret (VDate t))
            | None => t ← Date_now; mret (VDate t)
            end;
        screeningDate ← lift (Timestamp_fromDate d);
        mret (obj_set "healthScreening"
                (VMap (obj_set "screeningDate" screeningDate (spread hs)))
                visitorPayload)
      else mret visitorPayload
  | None => mret visitorPayload
  end.

Definition checkInVisitor (visitorData : obj) (isReturningVisitor : bool)
  : M Visitor :=
  try_catch
    ('(visitorIdNumber, qrCode, badgeNumber) ←
       choose_ids visitorData isReturningVisitor;
     t ← Date_now;
     let visitorPayload :=
       obj_assign [("visitorIdNumber", visitorIdNumber);
                   ("qrCode", VStr qrCode);
                   ("badgeNumber", VStr badgeNumber);
                   ("checkInTime", Timestamp_fromMillis t);
                   ("status", VStr "checked-in")] visitorData in
     visitorPayload ← with_healthScreening visitorData visitorPayload;
     docId ← addDoc visitorsCollection visitorPayload;
     logAudit "visitor_check_in" "system" docId
       [("visitorName", obj_get "fullName" visitorData);
        ("resident", obj_get "residentName" visitorData);
        ("room", obj_get "roomNumber" visitorData)];;
     lift (mapDocToVisitor docId visitorPayload))
    (fun error => throw error).

(** *** Visitors of a range of days *)

(** [v.checkInTime && v.checkInTime >= lo && v.checkInTime <= hi], on a
    [checkInTime] made by [mapDocToVisitor]: a [Date] or [null]. *)
Definition checkInTime_within (lo hi : Z) (v : Visitor) : bool :=
  match checkInTime v with
  | VDate ms => (lo <=? ms) && (ms <=? hi)
  | _ => false
  end.

(** The [try] block: the range is asked of the database. *)
Definition getVisitorsByDateRange_try (startDate endDate : Z) : M (list Visitor) :=
  snapshot ← getDocs visitorsCollection
    [where_ "checkInTime" OpGe (Timestamp_fromMillis (startOfDay startDate));
     where_ "checkInTime" OpLe (Timestamp_fromMillis (endOfDay endDate));
     orderBy "checkInTime" Desc];
  map_docs snapshot.

(** The [catch] block: every visitor is fetched, and filtered here. *)
Definition getVisitorsByDateRange_fallback (startDate endDate : Z)
    : M (list Visitor) :=
  all ← getDocs visitorsCollection [];
  vs ← map_docs all;
  mret (js_sort newest_first
          (List.filter
             (checkInTime_within (startOfDay startDate) (endOfDay endDate))
             vs)).

Definition getVisitorsByDateRange (startDate endDate : Z) : M (list Visitor) :=
  try_catch (getVisitorsByDateRange_try startDate endDate)
            (fun _ => getVisitorsByDateRange_fallback startDate endDate).

(** *** Check-out *)

Definition checkOutVisitor (visitorId : string) : M unit :=
  try_catch
    (t ← Date_now;
     updateDoc visitorsCollection visitorId
       [("checkOutTime", Timestamp_fromMillis t); ("status", VStr "checked-out")];;
     t' ← Date_now;
     logAudit "visitor_check_out" "system" visitorId
       [("timestamp", Some (VStr (toISOString t')))])
    (fun error => throw error).

(** *** Visitors currently inside *)

(** [error.code === 'failed-precondition']: the query needs an index that
    the database does not have. *)
Definition index_missing (e : error) : bool :=
  match error_code e with
  | Some c => String.eqb c "failed-precondition"
  | None => false
  end.

(** The [try] block: filtered and ordered by the database. *)
Definition getActiveVisitors_try : M (list Visitor) :=
  snapshot ← getDocs visitorsCollection
    [where_ "status" OpEq (VStr "checked-in");
     orderBy "checkInTime" Desc];
  map_docs snapshot.

(** The branch of the [catch] block for a missing index: filtered by the
    database, sorted here. *)
Definition getActiveVisitors_fallback : M (list Visitor) :=
  snapshot ← getDocs visitorsCollection
    [where_ "status" OpEq (VStr "checked-in")];
  visitors ← map_docs snapshot;
  mret (js_sort newest_first visitors).

Definition getActiveVisitors : M (list Visitor) :=
  try_catch getActiveVisitors_try
    (fun error =>
       if index_missing error then getActiveVisitors_fallback else mret []).

(** *** Visitors of today *)

(** [!visitor.checkInTime] gives [false]; else [visitor.checkInTime >=
    todayStart]. *)
Definition checkInTime_since (todayStart : Z) (v : Visitor) : bool :=
  match checkInTime v with
  | VDate ms => todayStart <=? ms
  | _ => false
  end.

(** The [try] block.  It computes the two ends of the day, [startOfDay]
    and [endOfDay], and then builds its query from [orderBy] alone. *)
Definition getTodayVisitors_try : M (list Visitor) :=
  t1 ← Date_now;
  let startOfDay_ := startOfDay t1 in
  t2 ← Date_now;
  let endOfDay_ := endOfDay t2 in
  snapshot ← getDocs visitorsCollection [orderBy "checkInTime" Desc];
  map_docs snapshot.

(** The branch of the [catch] block for a missing index. *)
Definition getTodayVisitors_fallback : M (list Visitor) :=
  allSnapshot ← getDocs visitorsCollection [];
  t ← Date_now;
  let todayStart := startOfDay t in
  vs ← map_docs allSnapshot;
  mret (js_sort newest_first (List.filter (checkInTime_since todayStart) vs)).

Definition getTodayVisitors : M (list Visitor) :=
  try_catch getTodayVisitors_try
    (fun error =>
       if index_missing error then getTodayVisitors_fallback else mret []).

(** *** Finding a visitor *)

(** [null] is [None]. *)
Definition findVisitorByIdNumber_try (visitorIdNumber : value)
    : M (option Visitor) :=
  snapshot ← getDocs visitorsCollection
    [where_ "visitorIdNumber" OpEq visitorIdNumber];
  match snapshot with
  | [] => mret None
  | d :: _ => v ← lift (convert d); mret (Some v)
  end.

Definition findVisitorByIdNumber (visitorIdNumber : value)
    : M (option Visitor) :=
  try_catch (findVisitorByIdNumber_try visitorIdNumber) (fun _ => mret None).

(** [parsed.id || parsed.visitorId]; reading a property of [null] throws. *)
Definition qr_id (parsed : value) : outcome (option value) :=
  match parsed with
  | VNull => Throw TypeError
  | _ =>
      match prop "id" parsed with
      | Some x => if truthy x then Ok (Some x) else Ok (prop "visitorId" parsed)
      | None => Ok (prop "visitorId" parsed)
      end
  end.

(** The [try] block ends by returning the promise of
    [findVisitorByIdNumber] without awaiting it, so that call is outside
    the reach of the [catch]. *)
Definition findVisitorByQRCode (qrCodeData : string) : M (option Visitor) :=
  found ←
    try_catch
      (parsed ← lift (match JSON_parse qrCodeData with
                      | Some v => Ok v
                      | None => Throw SyntaxError
                      end);
       i ← lift (qr_id parsed);
       match i with
       | Some i => if truthy i then mret (Some i) else mret None
       | None => mret None
       end)
      (fun _ => mret None);
  match found with
  | Some i => findVisitorByIdNumber i
  | None => mret None
  end.

(** *** Emergency evacuation *)

(** The write started for one id: [id => updateDoc(doc(db, 'visitors',
    id), {...})]. *)
Definition evacuate (i : string) : M unit :=
  t ← Date_now;
  updateDoc visitorsCollection i
    [("status", VStr "emergency-evacuated");
     ("checkOutTime", Timestamp_fromMillis t)].

Definition emergencyEvacuation (visitorIds : list string) : M unit :=
  promises ← map_settled evacuate visitorIds;
  lift (Promise_all promises);;
  mret tt.

(** The caller, in the application shell. *)
Definition handleEmergencyEvacuation (visitorIds : list string) : M unit :=
  try_catch
    (emergencyEvacuation visitorIds;;
     alert ("Emergency evacuation completed for "
            +:+ pretty (List.length visitorIds) +:+ " visitors."))
    (fun _ => alert "Emergency evacuation failed. Please try again.").

(** *** Everything, for the backup *)

Definition getAllVisitors_try : M (list Visitor) :=
  snapshot ← getDocs visitorsCollection [];
  map_docs snapshot.

Definition getAllVisitors : M (list Visitor) :=
  try_catch getAllVisitors_try (fun _ => mret []).

(** [{ id: doc.id, ...doc.data(), timestamp: doc.data().timestamp?.toDate()
    || null }]. *)
Definition audit_entry (d : snapshot_doc) : outcome obj :=
  timestamp ← toDate_or_null (obj_get "timestamp" d.2);
  Ok (obj_set "timestamp" timestamp (obj_assign d.2 [("id", VStr d.1)])).

Definition getAllAuditLogs_try : M (list obj) :=
  snapshot ← getDocs auditCollection [];
  lift (map_throwing audit_entry snapshot).

Definition getAllAuditLogs : M (list obj) :=
  try_catch getAllAuditLogs_try (fun _ => mret []).
End Service.

(** ** Vocabulary of the statements *)

(** A time field that [x?.toDate()] accepts: absent, [null] or a
    [Timestamp]. *)
Definition time_field (x : option value) : Prop :=
  x = None \/ x = Some VNull \/ exists micros, x = Some (VTimestamp micros).

(** A document whose three time fields are all of that kind; the
    screening date only counts when there is a (truthy) health screening. *)
Definition readable (data : obj) : Prop :=
  time_field (obj_get "checkInTime" data)
  /\ time_field (obj_get "checkOutTime" data)
  /\ forall hs, obj_get "healthScreening" data = Some hs -> truthy hs = true ->
                time_field (prop "screeningDate" hs).

(** Every record with the status ['checked-in'] can be converted. *)
Definition active_readable (coll : gmap string obj) : Prop :=
  forall i data, coll !! i = Some data ->
    obj_get "status" data = Some (VStr "checked-in") -> readable data.



(** The queries of the service, by name. *)
Definition active_query : query :=
  [where_ "status" OpEq (VStr "checked-in"); orderBy "checkInTime" Desc].

Definition range_query (lo hi : Z) : query :=
  [where_ "checkInTime" OpGe (Timestamp_fromMillis lo);
   where_ "checkInTime" OpLe (Timestamp_fromMillis hi);
   orderBy "checkInTime" Desc].

(** The record of a visitor after an accepted evacuation write. *)
Definition evacuated (t : Z) (data : obj) : obj :=
  obj_set "checkOutTime" (Timestamp_fromMillis t)
    (obj_set "status" (VStr "emergency-evacuated") data).


(** A visitor to stand for a record that cannot be converted. *)
Definition no_visitor : Visitor :=
  mkVisitor "" VNull VNull VNull VNull VNull VNull VNull VNull VNull VNull
            VNull VNull VNull.

Definition convert_or_none (d : snapshot_doc) : Visitor :=
  match convert d with
  | Ok v => v
  | Throw _ => no_visitor
  end.

(** ** A runtime and a front desk to compute with *)

(** Days of the UTC calendar, and a JSON codec that knows the texts the
    service itself produces for the visitors below. *)
Definition ms_per_day : Z := 86400000.

Definition utc_startOfDay (t : Z) : Z := t - t mod ms_per_day.

Definition utc_endOfDay (t : Z) : Z := utc_startOfDay t + (ms_per_day - 1).

Definition dquote : string := String (ascii_of_nat 34) EmptyString.

Definition json_string (s : string) : string := dquote +:+ s +:+ dquote.

Definition json_scalar (v : value) : string :=
  match v with
  | VBool true => "true"
  | VBool false => "false"
  | VNum n => pretty n
  | VStr s => json_string s
  | _ => "null"
  end.

Definition json_object (v : value) : string :=
  match v with
  | VMap o =>
      "{" +:+ String.concat ","
                (map (fun '(k, x) => json_string k +:+ ":" +:+ json_scalar x) o)
          +:+ "}"
  | _ => json_scalar v
  end.

Definition qr_of (visitorId : string) (ts : Z) : value :=
  VMap [("t", VStr "v"); ("id", VStr visitorId); ("ts", VNum ts)].

Definition known_texts : list (string * value) :=
  map (fun v => (json_object v, v))
      [qr_of "VID-1714550400000-K3J9ZQ" 1714550400000;
       VMap [("visitorId", VStr "VID-1714550400000-K3J9ZQ")];
       VMap [("id", VStr ""); ("t", VStr "v")];
       VNull; VNum 42].

#[export] Instance sample_runtime : Runtime := {|
  JSON_parse := fun s => obj_get s known_texts;
  JSON_stringify := json_object;
  toISOString := fun t => pretty t;
  startOfDay := utc_startOfDay;
  endOfDay := utc_endOfDay;
  composite_compare := fun _ _ => Eq;
|}.

(** 1 May 2024, 08:00:00.000 UTC. *)
Definition may_1_8am : Z := 1714550400000.

(** What the registration form sends for a visitor. *)
Definition ann : obj :=
  [("fullName", VStr "Ann Lee"); ("phoneNumber", VStr "555-0101");
   ("residentName", VStr "Rose Lee"); ("roomNumber", VStr "12");
   ("purpose", VStr "family")].

Definition bob : obj :=
  [("fullName", VStr "Bob Ray"); ("phoneNumber", VStr "555-0102");
   ("residentName", VStr "Tom Ray"); ("roomNumber", VStr "7");
   ("purpose", VStr "friend")].

(** A stored visitor document. *)
Definition visitor_doc (name vid : string) (checkIn : Z) (st : string) : obj :=
  [("fullName", VStr name); ("visitorIdNumber", VStr vid);
   ("checkInTime", Timestamp_fromMillis checkIn); ("status", VStr st)].

(** A world at a given time, with given visitors and nothing else: no
    audit log, a steady clock, no failure ahead. *)
Definition world_of (t : Z) (docs : list (string * obj)) : World :=
  mkWorld (list_to_map docs) ∅ t [] [] [] [] [].

(** An empty front desk on the morning of 1 May 2024. *)
Definition morning : World :=
  mkWorld ∅ ∅ may_1_8am [] ["0.k3j9zq8w1x"; "0.7fq2m0c9ab"] ["doc1"; "log1"; "doc2"; "log2"] [] [].


(** The document left in the visitors collection by
    [testDatabaseConnection] has none of the fields of a visitor. *)
Definition connection_test_doc : obj :=
  [("test", VBool false); ("ts", Timestamp_fromMillis 1714550400000)].


(** The same morning, with the database out of reach after the two writes
    of a check-in. *)
Definition morning_then_offline : World :=
  mkWorld ∅ ∅ may_1_8am [] ["0.k3j9zq8w1x"] ["doc1"; "log1"]
          [None; None; Some (FirebaseError "unavailable")] [].

(** A front desk with one record that says ['checked-in'] and has no
    [checkInTime]. *)
Definition undated_world : World :=
  world_of may_1_8am
    [("old", [("fullName", VStr "Cy Orr"); ("status", VStr "checked-in")])].

(** A front desk with one visitor, evacuated earlier that day. *)
Definition evacuated_world : World :=
  world_of may_1_8am
    [("doc1", visitor_doc "Ann Lee" "VID-1714550400000-K3J9ZQ"
                (may_1_8am - 3600000) "emergency-evacuated")].

(** Three visits: late on 30 April, in the first and in the last
    millisecond of 1 May. *)
Definition three_days : World :=
  world_of (may_1_8am + 172800000)
    [("a", visitor_doc "Ann Lee" "VID-1" (utc_startOfDay may_1_8am - 1) "checked-out");
     ("b", visitor_doc "Bob Ray" "VID-2" (utc_startOfDay may_1_8am) "checked-out");
     ("c", visitor_doc "Cy Orr" "VID-3" (utc_endOfDay may_1_8am) "checked-in")].

(** A visit stamped by another writer half a millisecond before midnight,
    within the last millisecond of 1 May 2024. *)
Definition before_midnight : World :=
  world_of (may_1_8am + 172800000)
    [("z", [("fullName", VStr "Zoe Kay"); ("visitorIdNumber", VStr "VID-9");
            ("checkInTime", VTimestamp (utc_endOfDay may_1_8am * 1000 + 500));
            ("status", VStr "checked-out")])].

(** The same world when the database has no index for the ordered
    queries: the next request is rejected with [failed-precondition]. *)
Definition without_index (w : World) : World :=
  set_faults [Some (FirebaseError "failed-precondition")] w.

(** Two visitors inside, checked in an hour apart. *)
Definition two_inside : World :=
  world_of may_1_8am
    [("a", visitor_doc "Ann Lee" "VID-1" (may_1_8am - 7200000) "checked-in");
     ("b", visitor_doc "Bob Ray" "VID-2" (may_1_8am - 3600000) "checked-in")].



(** A front desk without an index for the ordered queries whose database
    goes out of reach after the first request. *)
Definition without_index_then_offline : World :=
  set_faults [Some (FirebaseError "failed-precondition");
              Some (FirebaseError "unavailable")] two_inside.

(** Four ids to evacuate: the second is unknown to the database, and the
    write for the third will be rejected. *)
Definition evacuation_ids : list string := ["a"; "zz"; "b"; "c"].

Definition evacuation_world : World :=
  mkWorld
    (list_to_map
       [("a", visitor_doc "Ann Lee" "VID-1" (may_1_8am - 7200000) "checked-in");
        ("b", visitor_doc "Bob Ray" "VID-2" (may_1_8am - 3600000) "checked-in");
        ("c", visitor_doc "Cy Orr" "VID-3" (may_1_8am - 1800000) "checked-in")])
    ∅ may_1_8am [1; 1; 1; 1] [] []
    [None; None; Some (FirebaseError "unavailable"); None] [].

(** A front desk whose database cannot be reached. *)
Definition offline_world : World :=
  set_faults [Some (FirebaseError "unavailable")] two_inside.

(** A front desk where one record has its [checkOutTime] stored as text. *)
Definition garbled_world : World :=
  world_of may_1_8am
    [("a", visitor_doc "Ann Lee" "VID-1" (may_1_8am - 7200000) "checked-in");
     ("g", [("fullName", VStr "Gus Poe"); ("status", VStr "checked-in");
            ("checkInTime", Timestamp_fromMillis (may_1_8am - 60000));
            ("checkOutTime", VStr "09:15")])].

(** A morning on which the clock stands still between two check-ins and
    the random source gives the same draw twice. *)
Definition unlucky_morning : World :=
  mkWorld ∅ ∅ may_1_8am [] ["0.k3j9zq8w1x"; "0.k3j9zq8w1x"]
          ["doc1"; "log1"; "doc2"; "log2"] [] [].

(** A morning on which the random draw is one half, which base 36 writes
    with a single digit. *)
Definition half_draw_morning : World :=
  mkWorld ∅ ∅ may_1_8am [] ["0.i"] ["doc1"; "log1"] [] [].

(** A lower-case letter. *)
Definition lower_case (c : ascii) : Prop :=
  (97 <= nat_of_ascii c <= 122)%nat.

(** The same front desk, ready for a check-in. *)
Definition garbled_morning : World :=
  mkWorld (visitors garbled_world) ∅ may_1_8am [] ["0.k3j9zq8w1x"]
          ["doc1"; "log1"] [] [].

(** The id that a parsed QR text carries, in the words of the
    specification: its non-empty [id], failing that its non-empty
    [visitorId], failing that none.  Non-empty is read as truthy: not the
    empty string, nor [null], [false] or zero. *)
Definition specified_qr_id (parsed : value) : option value :=
  let non_empty (x : option value) : option value :=
    match x with
    | Some v => if truthy v then Some v else None
    | None => None
    end in
  match non_empty (prop "id" parsed) with
  | Some i => Some i
  | None => non_empty (prop "visitorId" parsed)
  end.

(** The front desk with Ann inside, checked in under the id of her QR
    code. *)
Definition ann_inside : World :=
  world_of may_1_8am
    [("doc1", visitor_doc "Ann Lee" "VID-1714550400000-K3J9ZQ" may_1_8am
                "checked-in")].

(** ** The rest of the service, and the code that calls it *)

(** [x === s] for a string literal [s]. *)
Definition is_string (s : string) (x : value) : bool :=
  match x with
  | VStr s' => String.eqb s' s
  | _ => false
  end.

(** [typeof x === 'object']: [null], dates, timestamps, arrays and
    objects. *)
Definition typeof_object (x : value) : bool :=
  match x with
  | VNull | VTimestamp _ | VDate _ | VArr _ | VMap _ => true
  | _ => false
  end.

(** What the database hands to a listener registered with [onSnapshot]:
    a snapshot of the query, or an error. *)
Inductive listener_event : Type :=
| next_snapshot (docs : list snapshot_doc)
| listen_error (e : error).

(** The query that [subscribeToActiveVisitors] listens to. *)
Definition subscription_query : query :=
  [where_ "status" OpEq (VStr "checked-in")].

Section Callers.
Context `{RT : Runtime}.

(** *** The listener on the active visitors *)

(** [subscribeToActiveVisitors(callback)], as the two handlers it gives to
    [onSnapshot]: a snapshot is converted, sorted in place and passed to
    [callback]; an error passes the empty list.  An exception of the
    conversion leaves the handler: [callback] is not called. *)
Definition subscribeToActiveVisitors {A} (callback : list Visitor -> M A)
    (ev : listener_event) : M A :=
  match ev with
  | next_snapshot docs =>
      visitors ← map_docs docs;
      callback (js_sort newest_first visitors)
  | listen_error _ => callback []
  end.

(** The event the database sends for the records it holds. *)
Definition active_snapshot (w : World) : listener_event :=
  next_snapshot (run_query subscription_query (visitors w)).

(** The subscription of the application shell: [(visitors) =>
    setActiveVisitorCount(visitors.length)]; the result is the count that
    is set. *)
Definition activeVisitorCount (ev : listener_event) : M nat :=
  subscribeToActiveVisitors (fun visitors => mret (List.length visitors)) ev.

(** *** The connection test *)

(** [e.message], which the platform decides. *)
Variable error_message : error -> string.

(** The result is the object [{ success, message }]. *)
Definition testDatabaseConnection : M (bool * string) :=
  try_catch
    (ts ← Date_now;
     testRef ← addDoc visitorsCollection
                 [("test", VBool true); ("ts", Timestamp_fromMillis ts)];
     updateDoc visitorsCollection testRef [("test", VBool false)];;
     mret (true, "Database OK"))
    (fun e => mret (false, error_message e)).

(** *** The sheets of the backup *)

(** [x.toLocaleString()], which the platform decides. *)
Variable toLocaleString : value -> string.

(** [x ? x.toLocaleString() : '']. *)
Definition toLocaleString_or_empty (x : option value) : value :=
  match x with
  | Some x => if truthy x then VStr (toLocaleString x) else VStr ""
  | None => VStr ""
  end.

(** The rows of the sheet [Visitors].  The object made by
    [mapDocToVisitor] has a property [purpose] and none called
    [visitPurpose], which is the one read here. *)
Definition visitorSheetData (visitors : list Visitor) : list obj :=
  map (fun v =>
         let visitPurpose : option value := None in
         [("Full Name", or_else (Some (fullName v)) (VStr ""));
          ("Phone Number", or_else (Some (phoneNumber v)) (VStr ""));
          ("Visiting Resident", or_else (Some (residentName v)) (VStr ""));
          ("Room", or_else (Some (roomNumber v)) (VStr ""));
          ("Check-in Time", toLocaleString_or_empty (Some (checkInTime v)));
          ("Check-out Time", toLocaleString_or_empty (Some (checkOutTime v)));
          ("Status", or_else (Some (status v)) (VStr ""));
          ("Visitor ID", or_else (Some (visitorIdNumber v)) (VStr ""));
          ("Purpose", or_else visitPurpose (VStr ""));
          ("Badge Number", or_else (Some (badgeNumber v)) (VStr ""))])
      visitors.

(** The rows of the sheet [Audit Logs]. *)
Definition auditSheetData (auditLogs : list obj) : list obj :=
  map (fun log =>
         [("Timestamp", toLocaleString_or_empty (obj_get "timestamp" log));
          ("Action", or_else (obj_get "action" log) (VStr ""));
          ("User ID", or_else (obj_get "userId" log) (VStr ""));
          ("Visitor ID", or_else (obj_get "visitorId" log) (VStr ""));
          ("Details",
           match obj_get "details" log with
           | Some details =>
               if typeof_object details then VStr (JSON_stringify details)
               else or_else (Some details) (VStr "")
           | None => VStr ""
           end)])
      auditLogs.

(** [createBackup], from its two reads to the data of its two sheets.  The
    spreadsheet library is loaded before; the workbook made of the sheets
    is then written by it and handed to [uploadData]. *)
Definition createBackup_sheets : M (list obj * list obj) :=
  visitors ← getAllVisitors;
  auditLogs ← getAllAuditLogs;
  mret (visitorSheetData visitors, auditSheetData auditLogs).

(** *** The front-desk dashboard *)

(** [displayedVisitors.filter(v => v.status === 'checked-in')]. *)
Definition checkInVisitorsInView (displayedVisitors : list Visitor)
    : list Visitor :=
  List.filter (fun v => is_string "checked-in" (status v)) displayedVisitors.

(** The effect that keeps [selectAll] up to date: the flag it sets. *)
Definition selectAll_effect (checkInVisitorsInView : list Visitor)
    (selectedIds : gset string) : bool :=
  if (List.length checkInVisitorsInView =? 0)%nat then false
  else forallb (fun v => bool_decide (id v ∈ selectedIds)) checkInVisitorsInView.

(** The selection set by [toggleSelectAll]. *)
Definition toggleSelectAll (selectAll : bool)
    (checkInVisitorsInView : list Visitor) : gset string :=
  if selectAll then ∅ else list_to_set (id <$> checkInVisitorsInView).

(** The selection set by [toggleVisitor(id)]. *)
Definition toggleVisitor (i : string) (selectedIds : gset string) : gset string :=
  if bool_decide (i ∈ selectedIds) then selectedIds ∖ {[i]}
  else selectedIds ∪ {[i]}.

(** [handleSingleCheckOut(visitorId)]; [confirmed] is the answer to
    [window.confirm], and the result is the selection afterwards. *)
Definition handleSingleCheckOut (confirmed : bool) (visitorId : string)
    (selectedIds : gset string) : M (gset string) :=
  if negb confirmed then mret selectedIds
  else
    try_catch
      (checkOutVisitor visitorId;;
       mret (selectedIds ∖ {[visitorId]}))
      (fun _ =>
         alert "Checkout failed. Please try again.";;
         mret selectedIds).
End Callers.

(** *** The pages of the application shell *)

(** A signed-in user; the shell reads the role only. *)
Record User : Type := mkUser {
  email : string;
  role : string;
}.

Definition getDefaultPathForUser (user : User) : string :=
  if String.eqb (role user) "super-admin" then "/admin"
  else if String.eqb (role user) "admin" then "/admin"
  else if String.eqb (role user) "hierarchy-person" then "/hierarchy"
  else if String.eqb (role user) "front-desk" then "/front-desk"
  else "/login".

(** What a route renders: its page, or a redirection. *)
Inductive element : Type :=
| children
| Navigate (to : string).

Definition ProtectedRoute (currentUser : option User)
    (requiredRole : option string) : element :=
  match currentUser with
  | None => Navigate "/login"
  | Some user =>
      match requiredRole with
      | Some r =>
          if negb (String.eqb r "") && negb (String.eqb (role user) r)
             && negb (String.eqb (role user) "super-admin")
          then Navigate "/"
          else children
      | None => children
      end
  end.

(** The table of [Routes], by the [path] of each [Route]: what the shell
    renders for it.  Matching a location against these paths is the
    router's business. *)
Definition Routes (currentUser : option User) (path : string) : option element :=
  if String.eqb path "/" then Some children
  else if String.eqb path "/login" then Some children
  else if String.eqb path "/signup" then Some children
  else if String.eqb path "/admin" then
    Some (ProtectedRoute currentUser (Some "admin"))
  else if String.eqb path "/front-desk" then
    Some (ProtectedRoute currentUser (Some "front-desk"))
  else if String.eqb path "/hierarchy" then
    Some (ProtectedRoute currentUser (Some "hierarchy-person"))
  else None.

(** ** More vocabulary *)

(** Newest first, on the time [getTime() || 0] of the check-in. *)
Definition newest_to_oldest (l : list Visitor) : Prop :=
  StronglySorted
    (fun a b => getTime_or_0 (checkInTime b) <= getTime_or_0 (checkInTime a)) l.

(** The object whose JSON text is the QR code of a visit. *)
Definition qr_object (visitorIdNumber : value) (ts : Z) : value :=
  VMap [("t", VStr "v"); ("id", visitorIdNumber); ("ts", VNum ts)].

(** The audit record of an action, as stored. *)
Definition audit_record (t : Z) (action userId visitorId : string)
    (details : obj) : obj :=
  [("timestamp", Timestamp_fromMillis t); ("action", VStr action);
   ("userId", VStr userId); ("visitorId", VStr visitorId);
   ("details", VMap (to_firestore_obj details))].

(** The document that [testDatabaseConnection] leaves behind. *)
Definition test_document (test : bool) (ts : Z) : obj :=
  [("test", VBool test); ("ts", Timestamp_fromMillis ts)].

(** Ann inside, and the database client ready to name two new
    documents. *)
Definition desk_with_ids : World :=
  set_auto_ids ["log1"; "log2"] ann_inside.

(** The ID number that a returning visitor brings, if any. *)
Definition returning_id (visitorData : obj) (isReturningVisitor : bool)
    : option value :=
  match obj_get "visitorIdNumber" visitorData with
  | Some given => if isReturningVisitor && truthy given then Some given else None
  | None => None
  end.

(** The ID number that [generateVisitorIdNumber] makes in a world. *)
Definition fresh_visitorIdNumber (w : World) : string :=
  "VID-" +:+ pretty (now w) +:+ "-"
  +:+ toUpperCase (substr 2 6 (hd "0" (randoms w))).

(** The fields of the record that [checkInVisitor] decides itself. *)
Definition set_at_check_in : list string :=
  ["visitorIdNumber"; "qrCode"; "badgeNumber"; "checkInTime"; "status";
   "healthScreening"].


(** The last six decimal digits of a number, as text. *)
Definition six_digits (n : N) : string :=
  String (pretty_N_char (n / 100000 mod 10))
    (String (pretty_N_char (n / 10000 mod 10))
       (String (pretty_N_char (n / 1000 mod 10))
          (String (pretty_N_char (n / 100 mod 10))
             (String (pretty_N_char (n / 10 mod 10))
                (String (pretty_N_char (n mod 10)) EmptyString)))))%N.

(** A value that the database stores as it is: it holds no [Date]. *)
Definition date_free (x : value) : Prop := to_firestore x = x.

(** The fields of a form that [mapDocToVisitor] copies as they are. *)
Definition copied_fields : list string :=
  ["fullName"; "phoneNumber"; "photoURL"; "residentName"; "roomNumber";
   "purpose"; "visitorIdNumber"].

(** A form without dates, but for the date of its health screening. *)
Definition plain_form (visitorData : obj) : Prop :=
  (forall f x, f ∈ copied_fields -> obj_get f visitorData = Some x ->
     date_free x)
  /\ forall hs, obj_get "healthScreening" visitorData = Some hs ->
       truthy hs = true ->
       Forall (fun kv : string * value => date_free kv.2)
              (obj_set "screeningDate" VNull (spread hs)).

(** * Properties *)

(** ** Timestamps of whole milliseconds *)

Lemma toDate_fromMillis ms :
  toDate_or_null (Some (Timestamp_fromMillis ms)) = Ok (VDate ms).
Proof.
  unfold Timestamp_fromMillis. simpl. now rewrite Z.quot_mul by lia.
Qed.

Lemma fs_compare_fromMillis `{Runtime} a b :
  fs_compare (Timestamp_fromMillis a) (Timestamp_fromMillis b) = (a ?= b).
Proof.
  unfold Timestamp_fromMillis. simpl.
  destruct (Z.compare_spec a b); [apply Z.compare_eq_iff|apply Z.compare_lt_iff
                                 |apply Z.compare_gt_iff]; lia.
Qed.

(** The [Date] of a [Timestamp] between two whole milliseconds is between
    them. *)
Lemma quot_1000_bounds lo hi micros :
  lo * 1000 <= micros <= hi * 1000 -> lo <= micros ÷ 1000 <= hi.
Proof.
  intros [Hlo Hhi]. split.
  - rewrite <- (Z.quot_mul lo 1000) by lia. apply Z.quot_le_mono; lia.
  - rewrite <- (Z.quot_mul hi 1000) by lia. apply Z.quot_le_mono; lia.
Qed.

Lemma quot_1000_mono a b : a <= b -> a ÷ 1000 <= b ÷ 1000.
Proof. intros. apply Z.quot_le_mono; lia. Qed.

(** ** Objects *)

Lemma obj_get_set_eq k v o : obj_get k (obj_set k v o) = Some v.
Proof.
  induction o as [|[k' v'] o IH]; simpl.
  - now rewrite String.eqb_refl.
  - destruct (String.eqb k k') eqn:E; simpl; rewrite ?String.eqb_refl, ?E; auto.
Qed.

Lemma obj_get_set_ne k k' v o :
  k <> k' -> obj_get k' (obj_set k v o) = obj_get k' o.
Proof.
  intros Hne. induction o as [|[k0 v0] o IH]; simpl.
  - destruct (String.eqb k' k) eqn:E; auto.
    apply String.eqb_eq in E. congruence.
  - destruct (String.eqb k k0) eqn:E; simpl.
    + apply String.eqb_eq in E. subst k0.
      destruct (String.eqb k' k) eqn:E'; auto.
      apply String.eqb_eq in E'. congruence.
    + now rewrite IH.
Qed.

Lemma obj_get_to_firestore k o :
  obj_get k (to_firestore_obj o) = to_firestore <$> obj_get k o.
Proof.
  induction o as [|[k' v'] o IH]; simpl; auto.
  destruct (String.eqb k k'); auto.
Qed.

(** ** Reading a document *)

Lemma toDate_or_null_Ok x :
  time_field x <-> exists d, toDate_or_null x = Ok d.
Proof.
  split.
  - intros [-> | [-> | [ms ->]]]; simpl; eauto.
  - intros [d H]. unfold time_field.
    destruct x as [[]|]; simpl in H; try discriminate; eauto.
Qed.

Lemma toDate_or_null_absent : toDate_or_null None = Ok VNull.
Proof. reflexivity. Qed.

(** The documents [mapDocToVisitor] converts are the readable ones. *)
Lemma mapDocToVisitor_Ok docId data :
  readable data <-> exists v, mapDocToVisitor docId data = Ok v.
Proof.
  unfold readable, mapDocToVisitor. split.
  - intros (Hin & Hout & Hhs).
    apply toDate_or_null_Ok in Hin as [tin Hin].
    apply toDate_or_null_Ok in Hout as [tout Hout].
    rewrite Hin, Hout.
    destruct (obj_get "healthScreening" data) as [hs|]; simpl; eauto.
    destruct (truthy hs) eqn:T; simpl; eauto.
    destruct (proj1 (toDate_or_null_Ok _) (Hhs hs eq_refl T)) as [d Hd].
    rewrite Hd. simpl. eauto.
  - intros [v Hv].
    assert (Hs : forall hs, obj_get "healthScreening" data = Some hs ->
                 truthy hs = true -> time_field (prop "screeningDate" hs)).
    { intros hs E T. rewrite E, T in Hv.
      apply toDate_or_null_Ok.
      destruct (toDate_or_null (prop "screeningDate" hs)); eauto; discriminate. }
    assert (exists h, match obj_get "healthScreening" data with
                      | Some hs =>
                          if truthy hs
                          then screeningDate ← toDate_or_null (prop "screeningDate" hs);
                               Ok (VMap (obj_set "screeningDate" screeningDate (spread hs)))
                          else Ok VNull
                      | None => Ok VNull
                      end = Ok h) as [h Hh].
    { destruct (obj_get "healthScreening" data) as [hs|]; eauto.
      destruct (truthy hs); eauto.
      destruct (toDate_or_null (prop "screeningDate" hs)); simpl in *; eauto.
      discriminate. }
    rewrite Hh in Hv. simpl in Hv.
    destruct (toDate_or_null (obj_get "checkInTime" data)) eqn:Ein;
      simpl in Hv; try discriminate.
    destruct (toDate_or_null (obj_get "checkOutTime" data)) eqn:Eout;
      simpl in Hv; try discriminate.
    repeat split; auto; apply toDate_or_null_Ok; eauto.
Qed.

(** What a converted document holds, field by field. *)
Lemma mapDocToVisitor_inv docId data v :
  mapDocToVisitor docId data = Ok v ->
  id v = docId
  /\ toDate_or_null (obj_get "checkInTime" data) = Ok (checkInTime v)
  /\ toDate_or_null (obj_get "checkOutTime" data) = Ok (checkOutTime v)
  /\ status v = or_else (obj_get "status" data) (VStr "checked-in")
  /\ (obj_get "healthScreening" data = None -> healthScreening v = VNull)
  /\ fullName v = or_else (obj_get "fullName" data) (VStr "")
  /\ phoneNumber v = or_else (obj_get "phoneNumber" data) (VStr "")
  /\ photoURL v = or_else (obj_get "photoURL" data) VNull
  /\ residentName v = or_else (obj_get "residentName" data) (VStr "")
  /\ roomNumber v = or_else (obj_get "roomNumber" data) (VStr "")
  /\ purpose v = or_else (obj_get "purpose" data) (VStr "")
  /\ visitorIdNumber v = or_else (obj_get "visitorIdNumber" data) (VStr "")
  /\ qrCode v = or_else (obj_get "qrCode" data) (VStr "")
  /\ badgeNumber v = or_else (obj_get "badgeNumber" data) (VStr "").
Proof.
  unfold mapDocToVisitor. intros H.
  destruct (match obj_get "healthScreening" data with
            | Some hs => _
            | None => _
            end) as [h|] eqn:Eh; simpl in H; try discriminate.
  destruct (toDate_or_null (obj_get "checkInTime" data)) as [tin|]; simpl in H;
    try discriminate.
  destruct (toDate_or_null (obj_get "checkOutTime" data)) as [tout|]; simpl in H;
    try discriminate.
  injection H as <-. simpl. repeat split; auto.
  intros Hnone. rewrite Hnone in Eh. now injection Eh as <-.
Qed.

(** The time fields of a converted document are dates or [null]. *)
Lemma toDate_or_null_shape x d :
  toDate_or_null x = Ok d ->
  (d = VNull /\ (x = None \/ x = Some VNull))
  \/ exists micros, d = VDate (micros ÷ 1000) /\ x = Some (VTimestamp micros).
Proof.
  destruct x as [[]|]; simpl; intros H; try discriminate;
    injection H as <-; eauto.
Qed.

(** The only exception that the conversion throws. *)
Lemma mapDocToVisitor_Throw docId data e :
  mapDocToVisitor docId data = Throw e -> e = TypeError.
Proof.
  unfold mapDocToVisitor.
  assert (T : forall x e', toDate_or_null x = Throw e' -> e' = TypeError).
  { intros [[]|] e' H; simpl in H; try discriminate; congruence. }
  destruct (obj_get "healthScreening" data) as [hs|]; simpl.
  - destruct (truthy hs); simpl.
    + destruct (toDate_or_null (prop "screeningDate" hs)) eqn:E1; simpl;
        [|intros H; injection H as <-; eauto].
      destruct (toDate_or_null (obj_get "checkInTime" data)) eqn:E2; simpl;
        [|intros H; injection H as <-; eauto].
      destruct (toDate_or_null (obj_get "checkOutTime" data)) eqn:E3; simpl;
        [discriminate|intros H; injection H as <-; eauto].
    + destruct (toDate_or_null (obj_get "checkInTime" data)) eqn:E2; simpl;
        [|intros H; injection H as <-; eauto].
      destruct (toDate_or_null (obj_get "checkOutTime" data)) eqn:E3; simpl;
        [discriminate|intros H; injection H as <-; eauto].
  - destruct (toDate_or_null (obj_get "checkInTime" data)) eqn:E2; simpl;
      [|intros H; injection H as <-; eauto].
    destruct (toDate_or_null (obj_get "checkOutTime" data)) eqn:E3; simpl;
      [discriminate|intros H; injection H as <-; eauto].
Qed.

(** C10, as amended.  [mapDocToVisitor] converts the stored documents
    whose time fields ([checkInTime], [checkOutTime] and the
    [screeningDate] of a truthy health screening) are each absent, [null]
    or a [Timestamp], and throws a [TypeError] on every other document.
    In the visitor it returns, a missing [fullName], [phoneNumber],
    [residentName], [roomNumber], [purpose], [visitorIdNumber], [qrCode]
    or [badgeNumber] is the empty string, a missing [photoURL] is [null],
    a missing [checkInTime] or [checkOutTime] is [null], a missing
    [healthScreening] is [null], and a missing [status] is ['checked-in'],
    so that whatever reads a record without status through this
    conversion sees a visitor who is checked in. *)
Theorem mapDocToVisitor_total_on_readable (docId : string) (data : obj) :
  (readable data ->
   exists v, mapDocToVisitor docId data = Ok v
     /\ id v = docId
     /\ (obj_get "fullName" data = None -> fullName v = VStr "")
     /\ (obj_get "phoneNumber" data = None -> phoneNumber v = VStr "")
     /\ (obj_get "photoURL" data = None -> photoURL v = VNull)
     /\ (obj_get "residentName" data = None -> residentName v = VStr "")
     /\ (obj_get "roomNumber" data = None -> roomNumber v = VStr "")
     /\ (obj_get "purpose" data = None -> purpose v = VStr "")
     /\ (obj_get "visitorIdNumber" data = None -> visitorIdNumber v = VStr "")
     /\ (obj_get "qrCode" data = None -> qrCode v = VStr "")
     /\ (obj_get "badgeNumber" data = None -> badgeNumber v = VStr "")
     /\ (obj_get "checkInTime" data = None -> checkInTime v = VNull)
     /\ (obj_get "checkOutTime" data = None -> checkOutTime v = VNull)
     /\ (obj_get "healthScreening" data = None -> healthScreening v = VNull)
     /\ (obj_get "status" data = None -> status v = VStr "checked-in"))
  /\ (~ readable data -> mapDocToVisitor docId data = Throw TypeError).
Proof.
  split.
  - intros Hreadable.
    destruct (proj1 (mapDocToVisitor_Ok docId data) Hreadable) as [v Hv].
    exists v. split; [exact Hv|].
    destruct (mapDocToVisitor_inv _ _ _ Hv)
      as (Hid & Hin & Hout & Hst & Hhs & Hfn & Hpn & Hph & Hrn & Hroom & Hpu
          & Hvid & Hqr & Hbn).
    repeat split; auto;
      try (intros E; rewrite E in *; simpl in *; congruence).
  - intros Hnot.
    destruct (mapDocToVisitor docId data) as [v|e] eqn:Hrun.
    + exfalso. apply Hnot. apply (mapDocToVisitor_Ok docId). eauto.
    + now rewrite (mapDocToVisitor_Throw _ _ _ Hrun).
Qed.

(** The document that the connection test leaves among the visitors is
    converted into a visitor who is checked in; a record whose
    [checkOutTime] was stored as text is not converted. *)
Lemma mapDocToVisitor_total_on_readable_witness :
  (exists v, mapDocToVisitor "t1" connection_test_doc = Ok v
     /\ status v = VStr "checked-in" /\ checkInTime v = VNull
     /\ photoURL v = VNull /\ fullName v = VStr "")
  /\ mapDocToVisitor "g"
       [("fullName", VStr "Gus Poe"); ("checkOutTime", VStr "09:15")]
     = Throw TypeError.
Proof.
  split.
  - assert (R : readable connection_test_doc).
    { repeat split; try (left; reflexivity). intros hs H; discriminate. }
    destruct (mapDocToVisitor_total_on_readable "t1" connection_test_doc)
      as [Hconverts _].
    destruct (Hconverts R) as (v & Hv & H).
    exists v. split; [exact Hv|]. repeat split; apply H; reflexivity.
  - apply mapDocToVisitor_total_on_readable.
    intros (_ & [E | [E | [t E]]] & _); discriminate.
Defined.

(** C10, as stated, fails: a document whose [checkInTime] was stored as a
    string makes [toDate] an absent method, and the conversion throws. *)
Lemma mapDocToVisitor_not_total :
  mapDocToVisitor "d1" [("fullName", VStr "Ann"); ("checkInTime", VStr "2024-05-01")]
  = Throw TypeError
  /\ ~ (forall docId data, exists v, mapDocToVisitor docId data = Ok v).
Proof.
  split; [reflexivity|].
  intros H.
  destruct (H "d1" [("checkInTime", VStr "2024-05-01")]) as [v Hv].
  discriminate.
Qed.


(** ** Sorting *)

Section Sorting.
Context {A : Type}.
Implicit Types (before : A -> A -> bool) (l : list A).

Lemma insert_by_Permutation before x l : insert_by before x l ≡ₚ x :: l.
Proof.
  induction l as [|y l IH]; simpl; [reflexivity|].
  destruct (before x y); [reflexivity|].
  rewrite IH. apply perm_swap.
Qed.

Lemma sort_by_Permutation before l : sort_by before l ≡ₚ l.
Proof.
  induction l as [|x l IH]; simpl; [reflexivity|].
  rewrite insert_by_Permutation. now rewrite IH.
Qed.

Lemma elem_of_sort_by before l x : x ∈ sort_by before l <-> x ∈ l.
Proof. now rewrite sort_by_Permutation. Qed.



(** The result is sorted when [before] is total and transitive. *)
Lemma insert_by_sorted before x l :
  (forall a b, before a b = false -> before b a = true) ->
  (forall a b c, before a b = true -> before b c = true -> before a c = true) ->
  StronglySorted (fun a b => before a b = true) l ->
  StronglySorted (fun a b => before a b = true) (insert_by before x l).
Proof.
  intros Htot Htrans. induction 1 as [|y l Hl IH Hy]; simpl.
  - repeat constructor.
  - destruct (before x y) eqn:E.
    + constructor; [now constructor|].
      constructor; [exact E|].
      eapply Forall_impl; [exact Hy|]. simpl. eauto.
    + constructor; [exact IH|].
      rewrite Forall_forall. intros z Hz.
      rewrite insert_by_Permutation in Hz.
      apply elem_of_cons in Hz as [->|Hz]; [auto|].
      rewrite Forall_forall in Hy. now apply Hy.
Qed.

Lemma sort_by_sorted before l :
  (forall a b, before a b = false -> before b a = true) ->
  (forall a b c, before a b = true -> before b c = true -> before a c = true) ->
  StronglySorted (fun a b => before a b = true) (sort_by before l).
Proof.
  intros Htot Htrans. induction l as [|x l IH]; simpl.
  - constructor.
  - now apply insert_by_sorted.
Qed.
End Sorting.

Lemma StronglySorted_weaken {A} (R R' : A -> A -> Prop) l :
  (forall a b, R a b -> R' a b) -> StronglySorted R l -> StronglySorted R' l.
Proof.
  intros HR. induction 1 as [|x l _ IH Hx]; constructor; [exact IH|].
  eapply Forall_impl; [exact Hx|]. simpl. auto.
Qed.

(** [sort(newest_first)] puts the latest check-in first. *)
Lemma js_sort_newest_first vs :
  StronglySorted
    (fun a b => getTime_or_0 (checkInTime b) <= getTime_or_0 (checkInTime a))
    (js_sort newest_first vs).
Proof.
  unfold js_sort.
  eapply StronglySorted_weaken;
    [|apply sort_by_sorted with (before := fun a b => newest_first a b <=? 0)].
  - intros a b H. unfold newest_first in H. lia.
  - intros a b H. unfold newest_first in *. lia.
  - intros a b c H1 H2. unfold newest_first in *. lia.
Qed.

Lemma elem_of_js_sort {A} (cmp : A -> A -> Z) xs x :
  x ∈ js_sort cmp xs <-> x ∈ xs.
Proof. apply elem_of_sort_by. Qed.

(** ** Mapping with a function that may throw *)

Lemma map_throwing_Ok {A B} (f : A -> outcome B) xs ys :
  map_throwing f xs = Ok ys <-> Forall2 (fun x y => f x = Ok y) xs ys.
Proof.
  revert ys. induction xs as [|x xs IH]; intros ys; simpl.
  - split.
    + intros H. injection H as <-. constructor.
    + intros H. now inversion H.
  - split.
    + destruct (f x) as [y|] eqn:Ex; simpl; [|discriminate].
      destruct (map_throwing f xs) as [ys'|] eqn:Exs; simpl; [|discriminate].
      intros H. injection H as <-. constructor; [exact Ex|]. now apply IH.
    + intros H. inversion H as [|? y ? ys' Hy Hys]; subst.
      rewrite Hy. simpl. apply IH in Hys. rewrite Hys. reflexivity.
Qed.

Lemma map_throwing_total {A B} (f : A -> outcome B) xs :
  Forall (fun x => exists y, f x = Ok y) xs ->
  exists ys, map_throwing f xs = Ok ys.
Proof.
  induction 1 as [|x xs [y Hy] _ [ys IH]]; simpl; eauto.
  rewrite Hy, IH. simpl. eauto.
Qed.

Lemma map_throwing_Throw {A B} (f : A -> outcome B) xs e :
  map_throwing f xs = Throw e -> exists x, x ∈ xs /\ f x = Throw e.
Proof.
  induction xs as [|x xs IH]; simpl; [discriminate|].
  destruct (f x) as [y|e'] eqn:Ex; simpl.
  - destruct (map_throwing f xs) as [ys|e'']; simpl; [discriminate|].
    intros H. injection H as ->. destruct IH as (x' & Hin & Hx'); auto.
    exists x'. split; [now right|exact Hx'].
  - intros H. injection H as ->. exists x. split; [now left|exact Ex].
Qed.

Lemma map_throwing_defined {A B} (f : A -> outcome B) xs ys x :
  map_throwing f xs = Ok ys -> x ∈ xs -> exists y, f x = Ok y /\ y ∈ ys.
Proof.
  rewrite map_throwing_Ok. induction 1 as [|x' y' xs ys Hxy _ IH].
  - intros H. inversion H.
  - intros Hin. apply elem_of_cons in Hin as [->|Hin].
    + exists y'. split; [exact Hxy|left].
    + destruct (IH Hin) as (y & Hy & Hiny). exists y. split; [exact Hy|now right].
Qed.

Lemma map_throwing_elem_of {A B} (f : A -> outcome B) xs ys y :
  map_throwing f xs = Ok ys ->
  y ∈ ys <-> exists x, x ∈ xs /\ f x = Ok y.
Proof.
  rewrite map_throwing_Ok. induction 1 as [|x y' xs ys Hxy _ IH].
  - split; [intros H; inversion H|intros (x & H & _); inversion H].
  - rewrite elem_of_cons, IH. split.
    + intros [->|(x' & Hin & Hx')].
      * exists x. split; [now left|exact Hxy].
      * exists x'. split; [now right|exact Hx'].
    + intros (x' & Hin & Hx'). apply elem_of_cons in Hin as [->|Hin].
      * left. congruence.
      * right. eauto.
Qed.

(** ** Queries *)

Lemma value_eqb_VStr x s : value_eqb x (VStr s) = true <-> x = VStr s.
Proof.
  destruct x; simpl; try (split; [discriminate|congruence]).
  rewrite String.eqb_eq. split; congruence.
Qed.

Section QueryFacts.
Context `{RT : Runtime}.

(** A snapshot holds the documents of the collection that satisfy every
    constraint of the query, each once. *)
Lemma elem_of_run_query q coll (d : snapshot_doc) :
  d ∈ run_query q coll
  <-> coll !! d.1 = Some d.2 /\ forallb (fun c => satisfies c d.2) q = true.
Proof.
  unfold run_query, matched.
  rewrite elem_of_sort_by, list_elem_of_In, List.filter_In, <- list_elem_of_In.
  destruct d as [i data]. now rewrite elem_of_map_to_list.
Qed.

Lemma NoDup_run_query q coll : NoDup (run_query q coll).*1.
Proof.
  unfold run_query, matched.
  rewrite sort_by_Permutation.
  eapply sublist_NoDup; [apply (NoDup_fst_map_to_list coll)|].
  apply fmap_sublist.
  generalize (map_to_list coll). intros l.
  induction l as [|x l IH]; simpl; [constructor|].
  destruct (forallb _ _); [now apply sublist_skip|now apply sublist_cons].
Qed.

Lemma satisfies_status_eq s data :
  satisfies (where_ "status" OpEq (VStr s)) data = true
  <-> obj_get "status" data = Some (VStr s).
Proof.
  simpl. destruct (obj_get "status" data) as [x|].
  - rewrite value_eqb_VStr. split; congruence.
  - split; discriminate.
Qed.

Lemma satisfies_orderBy f d data :
  satisfies (orderBy f d) data = true <-> is_Some (obj_get f data).
Proof. simpl. apply bool_decide_eq_true. Qed.

(** A range filter with a [Timestamp] bound holds of the times on the
    right side of the bound. *)
Lemma satisfies_ge_Timestamp f lo data :
  satisfies (where_ f OpGe (Timestamp_fromMillis lo)) data = true
  <-> exists t, (obj_get f data = Some (VTimestamp t) /\ lo * 1000 <= t)
                \/ (obj_get f data = Some (VDate t) /\ lo <= t).
Proof.
  unfold Timestamp_fromMillis. simpl. destruct (obj_get f data) as [x|].
  - destruct x as [| | | |t|t| |]; simpl;
      try (split; [discriminate|intros (t & [[E _]|[E _]]); discriminate]).
    + destruct (Z.compare_spec t (lo * 1000)); split; try discriminate;
        try (intros _; exists t; left; split; [auto|lia]);
        intros (t' & [[E Hle]|[E Hle]]); try discriminate E;
        injection E as <-; lia.
    + destruct (Z.compare_spec (t * 1000) (lo * 1000)); split;
        try discriminate;
        try (intros _; exists t; right; split; [auto|lia]);
        intros (t' & [[E Hle]|[E Hle]]); try discriminate E;
        injection E as <-; lia.
  - split; [discriminate|]. intros (t & [[E _]|[E _]]); discriminate.
Qed.

Lemma satisfies_le_Timestamp f hi data :
  satisfies (where_ f OpLe (Timestamp_fromMillis hi)) data = true
  <-> exists t, (obj_get f data = Some (VTimestamp t) /\ t <= hi * 1000)
                \/ (obj_get f data = Some (VDate t) /\ t <= hi).
Proof.
  unfold Timestamp_fromMillis. simpl. destruct (obj_get f data) as [x|].
  - destruct x as [| | | |t|t| |]; simpl;
      try (split; [discriminate|intros (t & [[E _]|[E _]]); discriminate]).
    + destruct (Z.compare_spec t (hi * 1000)); split; try discriminate;
        try (intros _; exists t; left; split; [auto|lia]);
        intros (t' & [[E Hle]|[E Hle]]); try discriminate E;
        injection E as <-; lia.
    + destruct (Z.compare_spec (t * 1000) (hi * 1000)); split;
        try discriminate;
        try (intros _; exists t; right; split; [auto|lia]);
        intros (t' & [[E Hle]|[E Hle]]); try discriminate E;
        injection E as <-; lia.
  - split; [discriminate|]. intros (t & [[E _]|[E _]]); discriminate.
Qed.

(** *** Running the database calls *)

Lemma getDocs_run c q w :
  getDocs c q w
  = (match next_fault w with
     | Some e => Throw e
     | None => Ok (run_query q (docs_of c w))
     end, set_faults (tl (faults w)) w).
Proof.
  unfold getDocs, mbind, M_bind, request, read_docs, mret, M_ret.
  destruct (next_fault w); destruct c; reflexivity.
Qed.

Lemma updateDoc_run c i patch w :
  updateDoc c i patch w
  = match next_fault w, docs_of c w !! i with
    | Some e, _ => (Throw e, set_faults (tl (faults w)) w)
    | None, None =>
        (Throw (FirebaseError "not-found"), set_faults (tl (faults w)) w)
    | None, Some data =>
        (Ok tt,
         set_docs c (<[i := obj_assign (to_firestore_obj patch) data]> (docs_of c w))
                  (set_faults (tl (faults w)) w))
    end.
Proof.
  unfold updateDoc, mbind, M_bind, request, read_docs, write_docs, throw.
  destruct (next_fault w); [reflexivity|].
  replace (docs_of c (set_faults (tl (faults w)) w)) with (docs_of c w)
    by (destruct c; reflexivity).
  destruct (docs_of c w !! i); reflexivity.
Qed.

Lemma addDoc_run c data w :
  addDoc c data w
  = let i := hd "" (auto_ids w) in
    let w1 := set_faults (tl (faults w)) (set_auto_ids (tl (auto_ids w)) w) in
    match next_fault w with
    | Some e => (Throw e, w1)
    | None => (Ok i, set_docs c (<[i := to_firestore_obj data]> (docs_of c w)) w1)
    end.
Proof.
  destruct w as [vs al nw el rs ids fs als].
  destruct c; destruct fs as [|[e|] fs]; reflexivity.
Qed.

(** An audit write never throws, leaves the visitors as they are, and
    leaves the audit log as it is but for the new entry. *)
Lemma logAudit_run action userId visitorId details w :
  exists w', logAudit action userId visitorId details w = (Ok tt, w')
             /\ visitors w' = visitors w
             /\ forall j, j <> hd "" (auto_ids w) ->
                   audit_logs w' !! j = audit_logs w !! j.
Proof.
  unfold logAudit, try_catch, mbind, M_bind, Date_now, lift, mret, M_ret.
  destruct (defined_props details) as [o|e]; [|eauto].
  rewrite addDoc_run. cbv zeta.
  destruct (next_fault (tick w)); [eauto|].
  eexists. split; [reflexivity|]. split; [reflexivity|].
  intros j Hj. simpl. now rewrite lookup_insert_ne.
Qed.

(** *** Running the queries of the service *)


Lemma map_docs_Throw docs e :
  map_throwing convert docs = Throw e -> index_missing e = false.
Proof.
  intros H. apply map_throwing_Throw in H as (d & _ & H).
  apply mapDocToVisitor_Throw in H. now subst e.
Qed.

Lemma getActiveVisitors_try_run w :
  getActiveVisitors_try w
  = (match next_fault w with
     | Some e => Throw e
     | None => map_throwing convert (run_query active_query (visitors w))
     end, set_faults (tl (faults w)) w).
Proof.
  unfold getActiveVisitors_try, mbind, M_bind, map_docs, lift.
  rewrite getDocs_run. now destruct (next_fault w).
Qed.

Lemma getActiveVisitors_fallback_run w :
  getActiveVisitors_fallback w
  = (match next_fault w with
     | Some e => Throw e
     | None =>
         vs ← map_throwing convert
                (run_query [where_ "status" OpEq (VStr "checked-in")] (visitors w));
         Ok (js_sort newest_first vs)
     end, set_faults (tl (faults w)) w).
Proof.
  unfold getActiveVisitors_fallback, mbind at 1 2, M_bind, map_docs, lift.
  rewrite getDocs_run. destruct (next_fault w); [reflexivity|].
  simpl. now destruct (map_throwing _ _).
Qed.

(** Whoever is listed as active is stored with the status ['checked-in'],
    whichever way the list was obtained. *)
Lemma getActiveVisitors_listed w l w' v :
  getActiveVisitors w = (Ok l, w') -> v ∈ l ->
  exists data, visitors w !! id v = Some data
    /\ obj_get "status" data = Some (VStr "checked-in")
    /\ mapDocToVisitor (id v) data = Ok v.
Proof.
  assert (Hin : forall q docs vs,
             q = [where_ "status" OpEq (VStr "checked-in")] \/ q = active_query ->
             map_throwing convert (run_query q docs) = Ok vs -> v ∈ vs ->
             exists data, docs !! id v = Some data
               /\ obj_get "status" data = Some (VStr "checked-in")
               /\ mapDocToVisitor (id v) data = Ok v).
  { intros q docs vs Hq Hvs Hv.
    rewrite (map_throwing_elem_of _ _ _ _ Hvs) in Hv.
    destruct Hv as ([i data] & Hd & Hconv). unfold convert in Hconv. simpl in Hconv.
    destruct (mapDocToVisitor_inv _ _ _ Hconv) as (Hid & _). subst i.
    apply elem_of_run_query in Hd as [Hlook Hsat]. simpl in Hlook.
    exists data. repeat split; auto.
    apply satisfies_status_eq.
    destruct Hq as [-> | ->]; simpl in Hsat; simpl;
      apply andb_true_iff in Hsat as [Hsat _]; exact Hsat. }
  unfold getActiveVisitors, try_catch. rewrite getActiveVisitors_try_run.
  destruct (next_fault w) as [e|].
  - destruct (index_missing e).
    + rewrite getActiveVisitors_fallback_run.
      destruct (next_fault _); [discriminate|].
      destruct (map_throwing _ _) as [vs|] eqn:Hvs; simpl; intros H Hv;
        [|discriminate].
      injection H as <- <-. rewrite elem_of_js_sort in Hv.
      exact (Hin _ (visitors w) vs (or_introl eq_refl) Hvs Hv).
    + intros H Hv. injection H as <- <-. inversion Hv.
  - destruct (map_throwing _ _) as [vs|e] eqn:Hvs.
    + intros H Hv. injection H as <- <-.
      exact (Hin _ (visitors w) vs (or_intror eq_refl) Hvs Hv).
    + rewrite (map_docs_Throw _ _ Hvs).
      intros H Hv. injection H as <- <-. inversion Hv.
Qed.
End QueryFacts.

(** ** Check-out *)

Section CheckOut.
Context `{RT : Runtime}.

Lemma checkOutVisitor_run visitorId w :
  exists w',
    checkOutVisitor visitorId w
    = (match next_fault w, visitors w !! visitorId with
       | Some e, _ => Throw e
       | None, None => Throw (FirebaseError "not-found")
       | None, Some _ => Ok tt
       end, w')
    /\ visitors w'
       = match next_fault w, visitors w !! visitorId with
         | None, Some data =>
             <[visitorId := obj_set "status" (VStr "checked-out")
                              (obj_set "checkOutTime" (Timestamp_fromMillis (now w)) data)]>
               (visitors w)
         | _, _ => visitors w
         end
    /\ forall j, j <> hd "" (auto_ids w) ->
          audit_logs w' !! j = audit_logs w !! j.
Proof.
  unfold checkOutVisitor, try_catch, mbind at 1 2, M_bind, Date_now.
  rewrite updateDoc_run.
  change (next_fault (tick w)) with (next_fault w).
  change (docs_of visitorsCollection (tick w)) with (visitors w).
  destruct (next_fault w) as [e|]; [eexists; repeat split; reflexivity|].
  destruct (visitors w !! visitorId) as [data|];
    [|eexists; repeat split; reflexivity].
  unfold mbind, M_bind.
  match goal with
  | |- context [logAudit ?a ?u ?i ?d ?w0] =>
      destruct (logAudit_run a u i d w0) as (w' & -> & Hvis & Haudit)
  end.
  exists w'. split; [reflexivity|]. rewrite Hvis. split; [reflexivity|].
  exact Haudit.
Qed.

(** C2.  Whatever its outcome, [checkOutVisitor(visitorId)] leaves every
    other visitor record as it was and, in the record of [visitorId], every
    field other than [checkOutTime] and [status].  It succeeds exactly when
    the record exists and the database accepts the write, whatever the
    status was before; it then has set [status] to ['checked-out'] and
    [checkOutTime] to the time of the call, and no list returned by
    [getActiveVisitors] afterwards holds that visitor.  In the audit log,
    the one entry that the check-out writes is the only change. *)
Theorem checkOutVisitor_frame (visitorId : string) (w w' : World)
    (r : outcome unit)
    (Hrun : checkOutVisitor visitorId w = (r, w')) :
  (forall i, i <> visitorId -> visitors w' !! i = visitors w !! i)
  /\ (forall f, f <> "checkOutTime" -> f <> "status" ->
        visitors w' !! visitorId ≫= obj_get f
        = visitors w !! visitorId ≫= obj_get f)
  /\ (forall j, j <> hd "" (auto_ids w) ->
        audit_logs w' !! j = audit_logs w !! j)
  /\ (r = Ok tt <-> next_fault w = None /\ is_Some (visitors w !! visitorId))
  /\ (r = Ok tt ->
        exists data', visitors w' !! visitorId = Some data'
          /\ obj_get "status" data' = Some (VStr "checked-out")
          /\ obj_get "checkOutTime" data' = Some (Timestamp_fromMillis (now w)))
  /\ (r = Ok tt ->
        forall l w'', getActiveVisitors w' = (Ok l, w'') ->
        forall v, v ∈ l -> id v <> visitorId).
Proof.
  destruct (checkOutVisitor_run visitorId w) as (w1 & Hrun1 & Hvis & Haudit).
  rewrite Hrun in Hrun1. injection Hrun1 as -> <-.
  assert (Hsame : next_fault w <> None \/ visitors w !! visitorId = None ->
                  visitors w' = visitors w).
  { intros [H|H]; rewrite Hvis.
    - now destruct (next_fault w).
    - rewrite H. now destruct (next_fault w). }
  destruct (next_fault w) as [e|] eqn:Hf.
  { rewrite Hsame by (left; discriminate).
    repeat split; auto; try discriminate. intros [? _]; discriminate. }
  destruct (visitors w !! visitorId) as [data|] eqn:Hdata.
  2:{ rewrite Hsame by (right; reflexivity). rewrite Hdata.
      repeat split; auto; try discriminate. intros [_ [? ?]]; discriminate. }
  rewrite Hvis.
  assert (Hst : obj_get "status"
                  (obj_set "status" (VStr "checked-out")
                     (obj_set "checkOutTime" (Timestamp_fromMillis (now w)) data))
                = Some (VStr "checked-out")) by apply obj_get_set_eq.
  split; [intros i Hi; now rewrite lookup_insert_ne|].
  split.
  { intros f Hout Hstatus. rewrite lookup_insert_eq. simpl.
    rewrite obj_get_set_ne by congruence. now rewrite obj_get_set_ne by congruence. }
  split; [exact Haudit|].
  split; [split; eauto|].
  split.
  - intros _. eexists. split; [apply lookup_insert_eq|]. split; [exact Hst|].
    rewrite obj_get_set_ne by discriminate. apply obj_get_set_eq.
  - intros _ l w'' Hactive v Hv Hid.
    destruct (getActiveVisitors_listed _ _ _ _ Hactive Hv) as (d & Hd & Hs & _).
    rewrite Hvis, Hid, lookup_insert_eq in Hd. injection Hd as <-.
    rewrite Hst in Hs. discriminate.
Qed.
End CheckOut.

(** ** The list of active visitors *)

Section ActiveList.
Context `{RT : Runtime}.

Lemma convert_snapshot q coll :
  (forall d : snapshot_doc, d ∈ run_query q coll -> readable d.2) ->
  exists vs, map_throwing convert (run_query q coll) = Ok vs.
Proof.
  intros H. apply map_throwing_total. rewrite Forall_forall.
  intros d Hd. apply mapDocToVisitor_Ok. auto.
Qed.

(** What the ordered query of the [try] block lists: the records with the
    status ['checked-in'] that have a [checkInTime]. *)
Lemma getActiveVisitors_answered w :
  next_fault w = None -> active_readable (visitors w) ->
  exists l,
    getActiveVisitors w = (Ok l, set_faults (tl (faults w)) w)
    /\ forall x, x ∈ l <->
         exists data, visitors w !! id x = Some data
           /\ obj_get "status" data = Some (VStr "checked-in")
           /\ is_Some (obj_get "checkInTime" data)
           /\ mapDocToVisitor (id x) data = Ok x.
Proof.
  intros Hf Hr.
  destruct (convert_snapshot active_query (visitors w)) as [vs Hvs].
  { intros [i data] Hd. apply elem_of_run_query in Hd as [Hlook Hsat].
    simpl in *. apply andb_true_iff in Hsat as [Hsat _].
    apply (Hr i data Hlook). now apply satisfies_status_eq. }
  exists vs. split.
  - unfold getActiveVisitors, try_catch.
    rewrite getActiveVisitors_try_run, Hf, Hvs. reflexivity.
  - intros x. rewrite (map_throwing_elem_of _ _ _ _ Hvs). split.
    + intros ([i data] & Hd & Hconv). unfold convert in Hconv; simpl in Hconv.
      destruct (mapDocToVisitor_inv _ _ _ Hconv) as (<- & _).
      apply elem_of_run_query in Hd as [Hlook Hsat]. simpl in Hlook.
      simpl in Hsat. rewrite !andb_true_iff in Hsat.
      destruct Hsat as (Hs & Ho & _).
      exists data. repeat split; auto.
      * now apply satisfies_status_eq.
      * now apply bool_decide_eq_true in Ho.
    + intros (data & Hlook & Hs & Ho & Hconv).
      exists (id x, data). split; [|exact Hconv].
      apply elem_of_run_query. split; [exact Hlook|].
      simpl. rewrite !andb_true_iff. repeat split.
      * now apply satisfies_status_eq.
      * now apply bool_decide_eq_true.
Qed.

(** What the fallback lists: the records with the status ['checked-in']. *)
Lemma getActiveVisitors_fell_back w e :
  next_fault w = Some e -> index_missing e = true ->
  next_fault (set_faults (tl (faults w)) w) = None ->
  active_readable (visitors w) ->
  exists l,
    getActiveVisitors w
    = (Ok l, set_faults (tl (tl (faults w))) w)
    /\ forall x, x ∈ l <->
         exists data, visitors w !! id x = Some data
           /\ obj_get "status" data = Some (VStr "checked-in")
           /\ mapDocToVisitor (id x) data = Ok x.
Proof.
  intros Hf He Hf' Hr.
  destruct (convert_snapshot [where_ "status" OpEq (VStr "checked-in")]
              (visitors w)) as [vs Hvs].
  { intros [i data] Hd. apply elem_of_run_query in Hd as [Hlook Hsat].
    simpl in *. apply andb_true_iff in Hsat as [Hsat _].
    apply (Hr i data Hlook). now apply satisfies_status_eq. }
  exists (js_sort newest_first vs). split.
  - unfold getActiveVisitors, try_catch.
    rewrite getActiveVisitors_try_run, Hf, He, getActiveVisitors_fallback_run, Hf'.
    change (visitors (set_faults (tl (faults w)) w)) with (visitors w).
    rewrite Hvs. reflexivity.
  - intros x. rewrite elem_of_js_sort, (map_throwing_elem_of _ _ _ _ Hvs). split.
    + intros ([i data] & Hd & Hconv). unfold convert in Hconv; simpl in Hconv.
      destruct (mapDocToVisitor_inv _ _ _ Hconv) as (<- & _).
      apply elem_of_run_query in Hd as [Hlook Hsat]. simpl in Hlook.
      simpl in Hsat. rewrite !andb_true_iff in Hsat.
      destruct Hsat as (Hs & _).
      exists data. repeat split; auto. now apply satisfies_status_eq.
    + intros (data & Hlook & Hs & Hconv).
      exists (id x, data). split; [|exact Hconv].
      apply elem_of_run_query. split; [exact Hlook|].
      simpl. rewrite !andb_true_iff. repeat split.
      now apply satisfies_status_eq.
Qed.

(** Any other rejection of the query empties the list. *)
Lemma getActiveVisitors_rejected w e :
  next_fault w = Some e -> index_missing e = false ->
  getActiveVisitors w = (Ok [], set_faults (tl (faults w)) w).
Proof.
  intros Hf He. unfold getActiveVisitors, try_catch.
  now rewrite getActiveVisitors_try_run, Hf, He.
Qed.
End ActiveList.

(** ** Check-in *)

Lemma bind_Ok {A B} (m : M A) (k : A -> M B) w b w' :
  (m ≫= k) w = (Ok b, w') ->
  exists a w1, m w = (Ok a, w1) /\ k a w1 = (Ok b, w').
Proof.
  unfold mbind, M_bind. destruct (m w) as [[a|e] w1]; [eauto|discriminate].
Qed.

Lemma try_rethrow_Ok {A} (body : M A) w a w' :
  try_catch body (fun error => throw error) w = (Ok a, w') ->
  body w = (Ok a, w').
Proof.
  unfold try_catch, throw. destruct (body w) as [[a'|e] w1]; [auto|discriminate].
Qed.

Section CheckIn.
Context `{RT : Runtime}.

(** Choosing the ids reads the clock two or three times, and touches
    neither the database nor what is ahead of it. *)
Lemma choose_ids_run visitorData isReturningVisitor w :
  exists ids w1,
    choose_ids visitorData isReturningVisitor w = (Ok ids, w1)
    /\ visitors w1 = visitors w /\ auto_ids w1 = auto_ids w
    /\ faults w1 = faults w
    /\ (now w1 = now (tick (tick w)) \/ now w1 = now (tick (tick (tick w)))).
Proof.
  unfold choose_ids.
  destruct (match obj_get "visitorIdNumber" visitorData with
            | Some given => _
            | None => None
            end);
    unfold generateQRCode, generateBadgeNumber, generateVisitorIdNumber,
      Math_random_toString36, Date_now, mbind, M_bind, mret, M_ret;
    do 2 eexists; (split; [reflexivity|]); simpl; auto.
Qed.

Lemma with_healthScreening_run visitorData payload w p w1 :
  with_healthScreening visitorData payload w = (Ok p, w1) ->
  (p = payload \/ exists x, p = obj_set "healthScreening" x payload)
  /\ visitors w1 = visitors w /\ auto_ids w1 = auto_ids w
  /\ faults w1 = faults w.
Proof.
  unfold with_healthScreening.
  destruct (obj_get "healthScreening" visitorData) as [hs|];
    [|intros H; injection H as <- <-; auto].
  destruct (truthy hs); [|intros H; injection H as <- <-; auto].
  intros H. apply bind_Ok in H as (d & w2 & Hd & H).
  apply bind_Ok in H as (sd & w3 & Hsd & H).
  unfold lift in Hsd. injection Hsd as Hsd <-.
  injection H as <- <-.
  assert (visitors w2 = visitors w /\ auto_ids w2 = auto_ids w
          /\ faults w2 = faults w) as (? & ? & ?).
  { destruct (prop "screeningDate" hs) as [d'|].
    - destruct (truthy d'); injection Hd as <- <-; auto.
    - injection Hd as <- <-; auto. }
  eauto 6.
Qed.

Lemma checkInVisitor_Ok visitorData isReturningVisitor w v w' :
  checkInVisitor visitorData isReturningVisitor w = (Ok v, w') ->
  exists payload t,
    (t = now (tick (tick w)) \/ t = now (tick (tick (tick w))))
    /\ obj_get "status" payload = Some (VStr "checked-in")
    /\ obj_get "checkInTime" payload = Some (Timestamp_fromMillis t)
    /\ mapDocToVisitor (hd "" (auto_ids w)) payload = Ok v
    /\ visitors w' = <[hd "" (auto_ids w) := to_firestore_obj payload]> (visitors w)
    /\ next_fault w = None.
Proof.
  intros H. apply try_rethrow_Ok in H.
  apply bind_Ok in H as ([[vid qr] badge] & w1 & Hids & H).
  destruct (choose_ids_run visitorData isReturningVisitor w)
    as (ids & w1' & Hids' & Hv1 & Ha1 & Hf1 & Ht).
  rewrite Hids in Hids'. injection Hids' as <- <-.
  apply bind_Ok in H as (t & w2 & Hnow & H).
  unfold Date_now in Hnow. injection Hnow as <- <-.
  apply bind_Ok in H as (payload & w3 & Hhs & H).
  apply with_healthScreening_run in Hhs as (Hp & Hv3 & Ha3 & Hf3).
  apply bind_Ok in H as (docId & w4 & Hadd & H).
  rewrite addDoc_run in Hadd. cbv zeta in Hadd.
  destruct (next_fault w3) as [e|] eqn:Hnf; [discriminate|].
  injection Hadd as <- <-.
  apply bind_Ok in H as ([] & w5 & Hlog & H).
  match type of Hlog with
  | logAudit ?a ?u ?i ?d ?w0 = _ =>
      destruct (logAudit_run a u i d w0) as (w5' & Hlog' & Hv5 & _)
  end.
  rewrite Hlog in Hlog'. injection Hlog' as <-.
  unfold lift in H. injection H as H <-.
  simpl in Ha3, Hv3, Hf3, Hv5.
  exists payload, (now w1). split; [exact Ht|].
  assert (Hnf' : next_fault w = None).
  { unfold next_fault in *. now rewrite Hf3, Hf1 in Hnf. }
  rewrite Ha3, Ha1 in *. rewrite Hv5, Hv3, Hv1.
  assert (obj_get "status" payload = Some (VStr "checked-in")
          /\ obj_get "checkInTime" payload = Some (Timestamp_fromMillis (now w1)))
    as [Hs Hc].
  { destruct Hp as [-> | [x ->]]; unfold obj_assign; simpl;
      rewrite ?(obj_get_set_ne "healthScreening") by discriminate;
      (split; [apply obj_get_set_eq|]);
      rewrite obj_get_set_ne by discriminate; apply obj_get_set_eq. }
  repeat split; auto.
Qed.
End CheckIn.

(** ** A visitor who has checked in is on the active list *)

Lemma truthy_to_firestore v : truthy (to_firestore v) = truthy v.
Proof. now destruct v. Qed.

Lemma prop_to_firestore k v :
  prop k (to_firestore v) = to_firestore <$> prop k v.
Proof. destruct v; simpl; auto. apply obj_get_to_firestore. Qed.

Lemma time_field_to_firestore x :
  time_field x -> time_field (to_firestore <$> x).
Proof.
  intros [-> | [-> | [ms ->]]]; unfold time_field; simpl; eauto.
Qed.

(** What can be converted before it is written can be converted once it
    is stored. *)
Lemma readable_to_firestore data :
  readable data -> readable (to_firestore_obj data).
Proof.
  intros (Hin & Hout & Hhs). unfold readable.
  rewrite !obj_get_to_firestore.
  repeat split; try now apply time_field_to_firestore.
  intros hs' Hs' T.
  destruct (obj_get "healthScreening" data) as [hs|]; [|discriminate].
  injection Hs' as <-. rewrite truthy_to_firestore in T.
  rewrite prop_to_firestore. apply time_field_to_firestore. auto.
Qed.

Section CheckInThenActive.
Context `{RT : Runtime}.

(** C1, as amended.  After a successful [checkInVisitor] the stored record
    has the status ['checked-in'] and, as [checkInTime], the time read from
    the clock for it (the reading that follows the two or three used for
    the ids).  If the other records marked ['checked-in'] can be
    converted, then, whenever the query of [getActiveVisitors] is answered,
    the new visitor is in the list it returns.  That list holds exactly the
    records with the status ['checked-in'] that have a [checkInTime] when
    the ordered query is answered, and exactly the records with the status
    ['checked-in'] when the index is missing and the fallback query is
    answered. *)
Theorem checkInVisitor_then_active (visitorData : obj)
    (isReturningVisitor : bool) (w w1 : World) (v : Visitor)
    (Hin : checkInVisitor visitorData isReturningVisitor w = (Ok v, w1)) :
  exists data t,
    visitors w1 !! id v = Some data
    /\ obj_get "status" data = Some (VStr "checked-in")
    /\ obj_get "checkInTime" data = Some (Timestamp_fromMillis t)
    /\ (t = time_at 2 w \/ t = time_at 3 w)
    /\ status v = VStr "checked-in"
    /\ checkInTime v = VDate t
    /\ (active_readable (visitors w) ->
        (next_fault w1 = None ->
         exists l w2,
           getActiveVisitors w1 = (Ok l, w2)
           /\ (exists v', v' ∈ l /\ id v' = id v)
           /\ forall x, x ∈ l <->
                exists d, visitors w1 !! id x = Some d
                  /\ obj_get "status" d = Some (VStr "checked-in")
                  /\ is_Some (obj_get "checkInTime" d)
                  /\ mapDocToVisitor (id x) d = Ok x)
        /\ (forall e, next_fault w1 = Some e -> index_missing e = true ->
            next_fault (set_faults (tl (faults w1)) w1) = None ->
            exists l w2,
              getActiveVisitors w1 = (Ok l, w2)
              /\ (exists v', v' ∈ l /\ id v' = id v)
              /\ forall x, x ∈ l <->
                   exists d, visitors w1 !! id x = Some d
                     /\ obj_get "status" d = Some (VStr "checked-in")
                     /\ mapDocToVisitor (id x) d = Ok x)).
Proof.
  destruct (checkInVisitor_Ok _ _ _ _ _ Hin)
    as (payload & t & Ht & Hs & Hc & Hconv & Hvis & _).
  destruct (mapDocToVisitor_inv _ _ _ Hconv) as (Hid & Hcin & _ & Hst & _).
  set (stored := to_firestore_obj payload) in *.
  assert (Hs' : obj_get "status" stored = Some (VStr "checked-in")).
  { unfold stored. now rewrite obj_get_to_firestore, Hs. }
  assert (Hc' : obj_get "checkInTime" stored = Some (Timestamp_fromMillis t)).
  { unfold stored. now rewrite obj_get_to_firestore, Hc. }
  assert (Hlook : visitors w1 !! id v = Some stored).
  { rewrite Hvis, Hid. apply lookup_insert_eq. }
  assert (Hread : readable stored).
  { apply readable_to_firestore.
    apply (mapDocToVisitor_Ok (hd "" (auto_ids w))). eauto. }
  exists stored, t.
  split; [exact Hlook|]. split; [exact Hs'|]. split; [exact Hc'|].
  split; [exact Ht|].
  split; [rewrite Hst, Hs; reflexivity|].
  split; [rewrite Hc, toDate_fromMillis in Hcin; congruence|].
  intros Hr.
  assert (Hr1 : active_readable (visitors w1)).
  { intros i d Hi Hsi. rewrite Hvis in Hi.
    destruct (decide (hd "" (auto_ids w) = i)) as [<-|Hne].
    - rewrite lookup_insert_eq in Hi. injection Hi as <-. exact Hread.
    - rewrite lookup_insert_ne in Hi by exact Hne. eapply Hr; eauto. }
  destruct (proj1 (mapDocToVisitor_Ok (id v) stored) Hread) as [v' Hv'].
  destruct (mapDocToVisitor_inv _ _ _ Hv') as (Hid' & _).
  split.
  - intros Hf.
    destruct (getActiveVisitors_answered w1 Hf Hr1) as (l & Hrun & Hl).
    exists l, (set_faults (tl (faults w1)) w1). split; [exact Hrun|].
    split; [|exact Hl].
    exists v'. split; [|exact Hid'].
    apply Hl. exists stored. rewrite Hid'.
    split; [exact Hlook|]. split; [exact Hs'|].
    split; [rewrite Hc'; eauto|exact Hv'].
  - intros e Hf He Hf'.
    destruct (getActiveVisitors_fell_back w1 e Hf He Hf' Hr1) as (l & Hrun & Hl).
    exists l, (set_faults (tl (tl (faults w1))) w1). split; [exact Hrun|].
    split; [|exact Hl].
    exists v'. split; [|exact Hid'].
    apply Hl. exists stored. rewrite Hid'.
    split; [exact Hlook|]. split; [exact Hs'|exact Hv'].
Qed.
End CheckInThenActive.

Lemma checkInVisitor_then_active_witness :
  exists v w1 l w2,
    checkInVisitor ann false morning = (Ok v, w1)
    /\ getActiveVisitors w1 = (Ok l, w2)
    /\ exists v', v' ∈ l /\ id v' = id v.
Proof.
  destruct (checkInVisitor ann false morning) as [[v|e] w1] eqn:Hin;
    [|vm_compute in Hin; discriminate].
  destruct (checkInVisitor_then_active ann false morning w1 v Hin)
    as (data & t & _ & _ & _ & _ & _ & _ & Hlist).
  destruct Hlist as [Hanswered _].
  { intros i d Hi. simpl in Hi. rewrite lookup_empty in Hi. discriminate. }
  destruct Hanswered as (l & w2 & Hrun & Hv' & _).
  { vm_compute in Hin. injection Hin as _ <-. reflexivity. }
  exists v, w1, l, w2. auto.
Defined.

(** C1, as stated, fails in three ways.  A query that the database
    rejects is swallowed: the visitor who has just checked in is stored
    with the status ['checked-in'], and the list comes back empty.  So is
    the failure to convert another active record.  And the ordered query
    passes over a record marked ['checked-in'] that has no [checkInTime]. *)
Lemma checked_in_and_not_listed :
  (exists v w1 w2 data,
     checkInVisitor ann false morning_then_offline = (Ok v, w1)
     /\ visitors w1 !! id v = Some data
     /\ obj_get "status" data = Some (VStr "checked-in")
     /\ getActiveVisitors w1 = (Ok [], w2))
  /\ (exists v w1 w2 data,
        checkInVisitor ann false garbled_morning = (Ok v, w1)
        /\ visitors w1 !! id v = Some data
        /\ obj_get "status" data = Some (VStr "checked-in")
        /\ getActiveVisitors w1 = (Ok [], w2))
  /\ (exists w2 data,
        visitors undated_world !! "old" = Some data
        /\ obj_get "status" data = Some (VStr "checked-in")
        /\ getActiveVisitors undated_world = (Ok [], w2)).
Proof.
  split; [|split].
  - do 4 eexists. split; [vm_compute; reflexivity|].
    split; [vm_compute; reflexivity|].
    split; [reflexivity|]. vm_compute. reflexivity.
  - do 4 eexists. split; [vm_compute; reflexivity|].
    split; [vm_compute; reflexivity|].
    split; [reflexivity|]. vm_compute. reflexivity.
  - do 2 eexists. split; [vm_compute; reflexivity|].
    split; [reflexivity|]. vm_compute. reflexivity.
Qed.

Lemma checkOutVisitor_frame_witness :
  exists data',
    visitors (checkOutVisitor "doc1" evacuated_world).2 !! "doc1" = Some data'
    /\ obj_get "status" data' = Some (VStr "checked-out")
    /\ obj_get "checkOutTime" data' = Some (Timestamp_fromMillis may_1_8am).
Proof.
  destruct (checkOutVisitor "doc1" evacuated_world) as [r w'] eqn:Hrun.
  destruct (checkOutVisitor_frame "doc1" evacuated_world w' r Hrun)
    as (_ & _ & _ & Hiff & Hok & _).
  apply Hok, Hiff. split; [reflexivity|]. vm_compute. eauto.
Defined.

(** ** Visitors of a range of days *)

Section DateRange.
Context `{RT : Runtime}.

Lemma getVisitorsByDateRange_try_run startDate endDate w :
  getVisitorsByDateRange_try startDate endDate w
  = (match next_fault w with
     | Some e => Throw e
     | None =>
         map_throwing convert
           (run_query (range_query (startOfDay startDate) (endOfDay endDate))
                      (visitors w))
     end, set_faults (tl (faults w)) w).
Proof.
  unfold getVisitorsByDateRange_try, mbind, M_bind, map_docs, lift.
  rewrite getDocs_run. now destruct (next_fault w).
Qed.

Lemma getVisitorsByDateRange_fallback_run startDate endDate w :
  getVisitorsByDateRange_fallback startDate endDate w
  = (match next_fault w with
     | Some e => Throw e
     | None =>
         vs ← map_throwing convert (run_query [] (visitors w));
         Ok (js_sort newest_first
               (List.filter
                  (checkInTime_within (startOfDay startDate) (endOfDay endDate))
                  vs))
     end, set_faults (tl (faults w)) w).
Proof.
  unfold getVisitorsByDateRange_fallback, mbind at 1 2, M_bind, map_docs, lift.
  rewrite getDocs_run. destruct (next_fault w); [reflexivity|].
  simpl. now destruct (map_throwing _ _).
Qed.

Lemma checkInTime_within_spec lo hi v :
  checkInTime_within lo hi v = true
  <-> exists t, checkInTime v = VDate t /\ lo <= t <= hi.
Proof.
  unfold checkInTime_within.
  destruct (checkInTime v);
    try (split; [discriminate|intros (t & E & _); discriminate]).
  rewrite andb_true_iff, !Z.leb_le. split.
  - intros H. eauto.
  - intros (t & E & H). injection E as <-. exact H.
Qed.

(** The range query holds of a record exactly when its [checkInTime] is a
    [Timestamp] between the bounds. *)
Lemma range_query_spec lo hi data :
  time_field (obj_get "checkInTime" data) ->
  forallb (fun c => satisfies c data) (range_query lo hi) = true
  <-> exists micros, obj_get "checkInTime" data = Some (VTimestamp micros)
                     /\ lo * 1000 <= micros <= hi * 1000.
Proof.
  intros Hfield.
  unfold range_query, forallb. rewrite !andb_true_iff.
  rewrite satisfies_ge_Timestamp, satisfies_le_Timestamp, satisfies_orderBy.
  destruct Hfield as [G | [G | [micros G]]]; rewrite G.
  - split.
    + intros ((t & [[E _]|[E _]]) & _); discriminate.
    + intros (t & E & _). discriminate.
  - split.
    + intros ((t & [[E _]|[E _]]) & _); discriminate.
    + intros (t & E & _). discriminate.
  - split.
    + intros ((t1 & [[E1 H1]|[E1 H1]]) & (t2 & [[E2 H2]|[E2 H2]]) & _);
        try discriminate.
      injection E1 as <-. injection E2 as <-. exists micros.
      split; [auto|lia].
    + intros (t & E & H). injection E as <-.
      repeat split; eauto; exists micros; left; split; auto; lia.
Qed.

(** The visitor made from a record with a [Timestamp] as [checkInTime] has
    the millisecond of it as [checkInTime]. *)
Lemma checkInTime_of_Timestamp docId data v micros :
  mapDocToVisitor docId data = Ok v ->
  obj_get "checkInTime" data = Some (VTimestamp micros) ->
  checkInTime v = VDate (micros ÷ 1000).
Proof.
  intros Hconv Hget.
  destruct (mapDocToVisitor_inv _ _ _ Hconv) as (_ & Hcin & _).
  rewrite Hget in Hcin. simpl in Hcin. congruence.
Qed.

(** C3, as amended.  A list returned by [getVisitorsByDateRange(startDate,
    endDate)] holds only visitors whose [checkInTime], the stored time cut
    to the millisecond, is on or after the start of the day of [startDate]
    and on or before the end of the day of [endDate]; and it holds every
    visitor whose stored [checkInTime] is on or after that start and on or
    before that end, whether the database did the filtering or the
    fallback did.  A list is returned whenever the records of the
    collection can be converted and the database answers the first query
    or, failing that, the second. *)
Theorem getVisitorsByDateRange_exact (startDate endDate : Z) (w : World) :
  (forall l w', getVisitorsByDateRange startDate endDate w = (Ok l, w') ->
     (forall v, v ∈ l ->
        exists data t,
          visitors w !! id v = Some data
          /\ mapDocToVisitor (id v) data = Ok v
          /\ checkInTime v = VDate t
          /\ startOfDay startDate <= t <= endOfDay endDate)
     /\ (forall i data micros,
           visitors w !! i = Some data ->
           obj_get "checkInTime" data = Some (VTimestamp micros) ->
           startOfDay startDate * 1000 <= micros <= endOfDay endDate * 1000 ->
           exists v, v ∈ l /\ mapDocToVisitor i data = Ok v))
  /\ ((forall i data, visitors w !! i = Some data -> readable data) ->
      next_fault w = None \/ next_fault (set_faults (tl (faults w)) w) = None ->
      exists l w', getVisitorsByDateRange startDate endDate w = (Ok l, w')).
Proof.
  set (lo := startOfDay startDate). set (hi := endOfDay endDate).
  assert (Hfb : forall w1 l w',
             visitors w1 = visitors w ->
             getVisitorsByDateRange_fallback startDate endDate w1 = (Ok l, w') ->
             (forall v, v ∈ l ->
                exists data t,
                  visitors w !! id v = Some data
                  /\ mapDocToVisitor (id v) data = Ok v
                  /\ checkInTime v = VDate t /\ lo <= t <= hi)
             /\ (forall i data micros,
                   visitors w !! i = Some data ->
                   obj_get "checkInTime" data = Some (VTimestamp micros) ->
                   lo * 1000 <= micros <= hi * 1000 ->
                   exists v, v ∈ l /\ mapDocToVisitor i data = Ok v)).
  { intros w1 l w' Hsame. rewrite getVisitorsByDateRange_fallback_run, Hsame.
    destruct (next_fault w1); [discriminate|].
    destruct (map_throwing _ _) as [vs|] eqn:Hvs; simpl; [|discriminate].
    intros H. injection H as <- _. split.
    - intros v.
      rewrite elem_of_js_sort, list_elem_of_In, List.filter_In,
        <- list_elem_of_In.
      rewrite (map_throwing_elem_of _ _ _ _ Hvs), checkInTime_within_spec.
      intros (([i data] & Hd & Hconv) & t & Ht & Hrange).
      unfold convert in Hconv; simpl in Hconv.
      destruct (mapDocToVisitor_inv _ _ _ Hconv) as (<- & _).
      apply elem_of_run_query in Hd as [Hlook _]. eauto 8.
    - intros i data micros Hlook Hget Hrange.
      assert (Hd : (i, data) ∈ run_query [] (visitors w)).
      { apply elem_of_run_query. split; [exact Hlook|reflexivity]. }
      destruct (map_throwing_defined _ _ _ _ Hvs Hd) as (v & Hconv & Hv).
      exists v. split; [|exact Hconv].
      rewrite elem_of_js_sort, list_elem_of_In, List.filter_In,
        <- list_elem_of_In.
      split; [exact Hv|]. apply checkInTime_within_spec.
      exists (micros ÷ 1000).
      split; [eapply checkInTime_of_Timestamp; eauto|].
      now apply quot_1000_bounds. }
  split.
  - intros l w'. unfold getVisitorsByDateRange, try_catch.
    rewrite getVisitorsByDateRange_try_run. fold lo hi.
    destruct (next_fault w) as [e|]; [now apply Hfb|].
    destruct (map_throwing _ _) as [vs|] eqn:Hvs; [|now apply Hfb].
    intros H. injection H as <- _. split.
    + intros v. rewrite (map_throwing_elem_of _ _ _ _ Hvs).
      intros ([i data] & Hd & Hconv). unfold convert in Hconv; simpl in Hconv.
      destruct (mapDocToVisitor_inv _ _ _ Hconv) as (Hid & _). subst i.
      apply elem_of_run_query in Hd as [Hlook Hsat]. simpl in Hlook, Hsat.
      apply range_query_spec in Hsat as (micros & Hget & Hrange).
      * exists data, (micros ÷ 1000). split; [exact Hlook|].
        split; [exact Hconv|].
        split; [eapply checkInTime_of_Timestamp; eauto|].
        now apply quot_1000_bounds.
      * apply (mapDocToVisitor_Ok (id v)). eauto.
    + intros i data micros Hlook Hget Hrange.
      assert (Hd : (i, data) ∈ run_query (range_query lo hi) (visitors w)).
      { apply elem_of_run_query. split; [exact Hlook|]. simpl.
        apply range_query_spec; [rewrite Hget; right; right; eauto|eauto]. }
      destruct (map_throwing_defined _ _ _ _ Hvs Hd) as (v & Hconv & Hv).
      eauto.
  - intros Hread Hf.
    assert (Hall : forall q, exists vs,
               map_throwing convert (run_query q (visitors w)) = Ok vs).
    { intros q. apply convert_snapshot. intros [i data] Hd.
      apply elem_of_run_query in Hd as [Hlook _]. eauto. }
    unfold getVisitorsByDateRange, try_catch.
    rewrite getVisitorsByDateRange_try_run. fold lo hi.
    destruct (next_fault w) as [e|] eqn:Hnf.
    + destruct Hf as [Hf|Hf]; [discriminate|].
      rewrite getVisitorsByDateRange_fallback_run, Hf.
      destruct (Hall []) as [vs Hvs].
      change (visitors (set_faults (tl (faults w)) w)) with (visitors w).
      rewrite Hvs. simpl. eauto.
    + destruct (Hall (range_query lo hi)) as [vs Hvs]. rewrite Hvs. eauto.
Qed.
End DateRange.

Lemma visitor_doc_readable name vid t st : readable (visitor_doc name vid t st).
Proof.
  split; [right; right; eexists; reflexivity|].
  split; [left; reflexivity|].
  intros hs Hhs. discriminate.
Qed.

Lemma getVisitorsByDateRange_exact_witness :
  exists l w',
    getVisitorsByDateRange may_1_8am may_1_8am three_days = (Ok l, w')
    /\ id <$> l = ["c"; "b"].
Proof.
  destruct (getVisitorsByDateRange_exact may_1_8am may_1_8am three_days)
    as [_ Hreturns].
  destruct Hreturns as (l & w' & Hrun).
  - intros i data Hlook.
    apply elem_of_list_to_map_2 in Hlook.
    repeat (apply elem_of_cons in Hlook as [Hlook|Hlook];
            [injection Hlook as -> ->; apply visitor_doc_readable|]).
    inversion Hlook.
  - left. reflexivity.
  - exists l, w'. split; [exact Hrun|].
    vm_compute in Hrun. injection Hrun as <- _. reflexivity.
Defined.

(** C3, as stated, fails on a visit stamped within the last millisecond of
    the day of [endDate], after that millisecond began.  The visitor made
    from the record has the end of the day as [checkInTime], within the
    bounds; the stored time is past the upper bound of the range query,
    which does not return the record; the fallback, which filters the
    converted visitors, returns it. *)
Lemma getVisitorsByDateRange_last_millisecond :
  (exists w',
     getVisitorsByDateRange may_1_8am may_1_8am before_midnight = (Ok [], w'))
  /\ (exists data v,
        visitors before_midnight !! "z" = Some data
        /\ mapDocToVisitor "z" data = Ok v
        /\ checkInTime v = VDate (endOfDay may_1_8am)
        /\ startOfDay may_1_8am <= endOfDay may_1_8am <= endOfDay may_1_8am)
  /\ (exists l w',
        getVisitorsByDateRange may_1_8am may_1_8am
          (without_index before_midnight) = (Ok l, w')
        /\ id <$> l = ["z"]).
Proof.
  split; [|split].
  - eexists. vm_compute. reflexivity.
  - do 2 eexists. split; [vm_compute; reflexivity|].
    split; [vm_compute; reflexivity|].
    split; [vm_compute; reflexivity|].
    vm_compute. split; discriminate.
  - do 2 eexists. split; [vm_compute; reflexivity|]. reflexivity.
Qed.

(** ** Sorting by distinct keys *)

Section DistinctKeys.
Context {A : Type} (key : A -> Z).




End DistinctKeys.




(** ** The fallback of the active list against its ordered query *)

Lemma map_throwing_convert docs vs :
  map_throwing convert docs = Ok vs -> vs = map convert_or_none docs.
Proof.
  rewrite map_throwing_Ok. induction 1 as [|d v docs vs Hd _ IH]; simpl;
    [reflexivity|].
  unfold convert_or_none at 1. now rewrite Hd, IH.
Qed.

Section FallbackOfActive.
Context `{RT : Runtime}.






End FallbackOfActive.



(** ** Emergency evacuation *)

Lemma time_at_tick k w w1 :
  now w1 = now (tick w) -> elapse w1 = elapse (tick w) ->
  time_at k w1 = time_at (S k) w.
Proof.
  intros Hn He. unfold time_at.
  assert (H : now (Nat.iter k tick w1) = now (Nat.iter k tick (tick w))
              /\ elapse (Nat.iter k tick w1) = elapse (Nat.iter k tick (tick w))).
  { induction k as [|k [IHn IHe]]; simpl; [auto|]. now rewrite IHn, IHe. }
  destruct H as [-> _]. f_equal.
  clear. induction k as [|k IH]; simpl; [reflexivity|]. now rewrite IH.
Qed.

Lemma fault_at_0 w : fault_at 0 w = next_fault w.
Proof. unfold fault_at, next_fault. now destruct (faults w). Qed.

Section Evacuation.
Context `{RT : Runtime}.

Lemma evacuate_run i w :
  evacuate i w
  = (write_outcome (next_fault w) (visitors w !! i),
     let w1 := set_faults (tl (faults w)) (tick w) in
     match next_fault w, visitors w !! i with
     | None, Some data =>
         set_docs visitorsCollection
           (<[i := evacuated (now w) data]> (visitors w)) w1
     | _, _ => w1
     end).
Proof.
  unfold evacuate, mbind, M_bind, Date_now. rewrite updateDoc_run.
  change (next_fault (tick w)) with (next_fault w).
  change (docs_of visitorsCollection (tick w)) with (visitors w).
  unfold write_outcome.
  destruct (next_fault w); [reflexivity|].
  destruct (visitors w !! i); reflexivity.
Qed.

Lemma map_settled_cons {A B} (f : A -> M B) x xs w :
  map_settled f (x :: xs) w
  = let '(r, w1) := f x w in
    match map_settled f xs w1 with
    | (Ok rs, w') => (Ok (r :: rs), w')
    | (Throw e, w') => (Throw e, w')
    end.
Proof.
  simpl. unfold mbind, M_bind, settle, mret, M_ret.
  destruct (f x w) as [r w1]. now destruct (map_settled f xs w1) as [[rs|e] w'].
Qed.

Lemma map_settled_Ok {A B} (f : A -> M B) xs w :
  exists rs w', map_settled f xs w = (Ok rs, w').
Proof.
  revert w. induction xs as [|x xs IH]; intros w.
  - simpl. unfold mret, M_ret. eauto.
  - rewrite map_settled_cons. destruct (f x w) as [r w1].
    destruct (IH w1) as (rs & w' & ->). eauto.
Qed.

(** What the writes of an evacuation leave behind, whichever of them
    failed. *)
Lemma evacuate_all visitorIds :
  forall w rs w', map_settled evacuate visitorIds w = (Ok rs, w') ->
  faults w' = drop (List.length visitorIds) (faults w)
  /\ alerts w' = alerts w
  /\ (forall i, i ∉ visitorIds -> visitors w' !! i = visitors w !! i)
  /\ (forall i f, f <> "status" -> f <> "checkOutTime" ->
        visitors w' !! i ≫= obj_get f = visitors w !! i ≫= obj_get f)
  /\ (forall i, match visitors w !! i with
                | None => visitors w' !! i = None
                | Some data =>
                    exists data', visitors w' !! i = Some data'
                      /\ (data' = data
                          \/ exists k, visitorIds !! k = Some i
                               /\ obj_get "status" data'
                                  = Some (VStr "emergency-evacuated")
                               /\ obj_get "checkOutTime" data'
                                  = Some (Timestamp_fromMillis (time_at k w)))
                end)
  /\ (forall k i, visitorIds !! k = Some i ->
        rs !! k = Some (write_outcome (fault_at k w) (visitors w !! i)))
  /\ (forall k i, visitorIds !! k = Some i ->
        write_outcome (fault_at k w) (visitors w !! i) = Ok tt ->
        exists data' k', visitors w' !! i = Some data'
          /\ visitorIds !! k' = Some i
          /\ obj_get "status" data' = Some (VStr "emergency-evacuated")
          /\ obj_get "checkOutTime" data' = Some (Timestamp_fromMillis (time_at k' w))).
Proof.
  induction visitorIds as [|i0 ids IH]; intros w rs w' Hrun.
  - simpl in Hrun. injection Hrun as <- <-.
    repeat split; auto.
    + intros i. destruct (visitors w !! i); eauto.
    + intros k i H. inversion H.
    + intros k i H. inversion H.
  - rewrite map_settled_cons, evacuate_run in Hrun. cbv zeta in Hrun.
    match type of Hrun with
    | context [map_settled evacuate ids ?w0] => set (w1 := w0) in *
    end.
    destruct (map_settled evacuate ids w1) as [[rs'|e] w''] eqn:Hrest;
      [|discriminate].
    injection Hrun as <- <-.
    destruct (IH _ _ _ Hrest) as (Hf & Ha & Hframe & Hfields & Hdocs & Hrs & Hacc).
    assert (Hnow : now w1 = now (tick w) /\ elapse w1 = elapse (tick w)
                   /\ faults w1 = tl (faults w) /\ alerts w1 = alerts w).
    { unfold w1. destruct (next_fault w); [auto|].
      destruct (visitors w !! i0); auto. }
    destruct Hnow as (Hn1 & He1 & Hf1 & Ha1).
    assert (Hshift : forall k, time_at k w1 = time_at (S k) w).
    { intros k. now apply time_at_tick. }
    assert (Hfault : forall k, fault_at k w1 = fault_at (S k) w).
    { intros k. unfold fault_at. rewrite Hf1. now destruct (faults w). }
    (* the records after the first write *)
    assert (Hv1 : forall i,
               visitors w1 !! i
               = if decide (i = i0) then
                   match write_outcome (next_fault w) (visitors w !! i0),
                         visitors w !! i0 with
                   | Ok _, Some data => Some (evacuated (now w) data)
                   | _, d => d
                   end
                 else visitors w !! i).
    { intros i. unfold w1, write_outcome.
      destruct (decide (i = i0)) as [->|Hne].
      - destruct (next_fault w); [reflexivity|].
        destruct (visitors w !! i0) eqn:E; simpl; [|exact E].
        apply lookup_insert_eq.
      - destruct (next_fault w); [reflexivity|].
        destruct (visitors w !! i0); simpl; [|reflexivity].
        now apply lookup_insert_ne. }
    assert (Hsome : forall i, is_Some (visitors w1 !! i) <-> is_Some (visitors w !! i)).
    { intros i. rewrite Hv1. destruct (decide (i = i0)) as [->|]; [|reflexivity].
      destruct (write_outcome _ _); [|reflexivity].
      destruct (visitors w !! i0); [|reflexivity]. split; eauto. }
    split.
    { rewrite Hf, Hf1. destruct (faults w); simpl; [|reflexivity].
      now rewrite drop_nil. }
    split; [congruence|].
    split.
    { intros i Hi. apply not_elem_of_cons in Hi as [Hne Hi].
      rewrite (Hframe i Hi), Hv1. now destruct (decide (i = i0)). }
    split.
    { intros i f Hs Hc. rewrite (Hfields i f Hs Hc), Hv1.
      destruct (decide (i = i0)) as [->|]; [|reflexivity].
      destruct (write_outcome _ _); [|reflexivity].
      destruct (visitors w !! i0) as [data|]; [|reflexivity].
      simpl. unfold evacuated.
      rewrite obj_get_set_ne by congruence. now rewrite obj_get_set_ne by congruence. }
    split.
    { intros i. specialize (Hdocs i). rewrite Hv1 in Hdocs.
      destruct (decide (i = i0)) as [->|Hne].
      - destruct (visitors w !! i0) as [data|] eqn:E.
        + destruct (write_outcome (next_fault w) (Some data)).
          * destruct Hdocs as (data' & Hd' & [->|(k & Hk & Hsk & Hck)]).
            -- exists (evacuated (now w) data). split; [exact Hd'|].
               right. exists 0%nat. split; [reflexivity|]. unfold evacuated.
               split; [|apply obj_get_set_eq].
               rewrite obj_get_set_ne by discriminate. apply obj_get_set_eq.
            -- exists data'. split; [exact Hd'|]. right. exists (S k).
               rewrite <- Hshift. auto.
          * destruct Hdocs as (data' & Hd' & [->|(k & Hk & Hsk & Hck)]).
            -- eauto.
            -- exists data'. split; [exact Hd'|]. right. exists (S k).
               rewrite <- Hshift. auto.
        + destruct (write_outcome (next_fault w) None); exact Hdocs.
      - destruct (visitors w !! i) as [data|]; [|exact Hdocs].
        destruct Hdocs as (data' & Hd' & [->|(k & Hk & Hsk & Hck)]); [eauto|].
        exists data'. split; [exact Hd'|]. right. exists (S k).
        rewrite <- Hshift. auto. }
    split.
    { intros [|k] i Hk; simpl in Hk.
      - injection Hk as <-. now rewrite fault_at_0.
      - simpl. rewrite (Hrs k i Hk), Hfault. f_equal.
        destruct (Hsome i) as [H1 H2]. unfold write_outcome.
        destruct (fault_at (S k) w); [reflexivity|].
        destruct (visitors w1 !! i) eqn:E1, (visitors w !! i) eqn:E2;
          try reflexivity.
        + destruct H1 as [? ?]; [eauto|discriminate].
        + destruct H2 as [? ?]; [eauto|discriminate]. }
    intros [|k] i Hk Hok; simpl in Hk.
    + injection Hk as <-. rewrite fault_at_0 in Hok.
      specialize (Hdocs i0). rewrite Hv1 in Hdocs.
      destruct (decide (i0 = i0)) as [_|]; [|contradiction].
      rewrite Hok in Hdocs.
      destruct (visitors w !! i0) as [data|] eqn:E;
        [|unfold write_outcome in Hok; destruct (next_fault w); discriminate].
      destruct Hdocs as (data' & Hd' & [->|(k & Hk & Hsk & Hck)]).
      * exists (evacuated (now w) data), 0%nat. split; [exact Hd'|].
        split; [reflexivity|]. unfold evacuated.
        split; [|apply obj_get_set_eq].
        rewrite obj_get_set_ne by discriminate. apply obj_get_set_eq.
      * exists data', (S k). rewrite <- Hshift. auto.
    + assert (Hok1 : write_outcome (fault_at k w1) (visitors w1 !! i) = Ok tt).
      { rewrite Hfault. unfold write_outcome in *.
        destruct (fault_at (S k) w); [discriminate|].
        destruct (visitors w !! i) eqn:E; [|discriminate].
        destruct (proj2 (Hsome i)) as [d ->]; eauto. }
      destruct (Hacc k i Hk Hok1) as (data' & k' & Hd' & Hk' & Hs' & Hc').
      exists data', (S k'). rewrite <- Hshift. auto.
Qed.

Lemma Promise_all_Ok {A} (rs : list (outcome A)) :
  (exists l, Promise_all rs = Ok l)
  <-> forall k r, rs !! k = Some r -> exists a, r = Ok a.
Proof.
  induction rs as [|[a|e] rs IH]; simpl.
  - split; [intros _ k r H; inversion H|eauto].
  - split.
    + intros [l Hl]. destruct (Promise_all rs) as [l'|]; [|discriminate].
      intros [|k] r Hk; simpl in Hk.
      * injection Hk as <-. eauto.
      * eapply (proj1 IH); eauto.
    + intros H. destruct (proj2 IH) as [l ->]; [|eauto].
      intros k r Hk. apply (H (S k)). exact Hk.
  - split; [intros [l Hl]; discriminate|].
    intros H. destruct (H 0%nat (Throw e) eq_refl) as [a Ha]. discriminate.
Qed.

(** The rejection that [Promise.all] passes on is that of the first
    promise of the list that was rejected. *)
Lemma Promise_all_Throw {A} (rs : list (outcome A)) e :
  Promise_all rs = Throw e ->
  exists k, rs !! k = Some (Throw e)
    /\ forall j r, (j < k)%nat -> rs !! j = Some r -> exists a, r = Ok a.
Proof.
  induction rs as [|[a|e'] rs IH]; simpl; [discriminate| |].
  - destruct (Promise_all rs) as [l|e'']; [discriminate|].
    intros H. injection H as ->. destruct IH as (k & Hk & Hbefore); [reflexivity|].
    exists (S k). split; [exact Hk|].
    intros [|j] r Hj Hr; simpl in Hr.
    + injection Hr as <-. eauto.
    + apply (Hbefore j); [lia|exact Hr].
  - intros H. injection H as ->. exists 0%nat. split; [reflexivity|].
    intros j r Hj. lia.
Qed.

(** C6.  [emergencyEvacuation(visitorIds)] sends one write per listed id,
    each on its own.  Whatever the outcome of the call, a record outside
    the list is unchanged, no field other than [status] and [checkOutTime]
    changes, and every write that the database accepted has taken effect:
    the record has the status ['emergency-evacuated'] and, as
    [checkOutTime], the time read from the clock for a write to it.  The
    call succeeds only if every write did; otherwise it throws the error
    of the first write of the list that failed, and nothing is undone.
    [handleEmergencyEvacuation] turns any such failure into one and the
    same alert, which names no visitor. *)
Theorem emergencyEvacuation_no_rollback (visitorIds : list string) (w : World) :
  exists r w',
    emergencyEvacuation visitorIds w = (r, w')
    /\ faults w' = drop (List.length visitorIds) (faults w)
    /\ (forall i, i ∉ visitorIds -> visitors w' !! i = visitors w !! i)
    /\ (forall i f, f <> "status" -> f <> "checkOutTime" ->
          visitors w' !! i ≫= obj_get f = visitors w !! i ≫= obj_get f)
    /\ (forall k i, visitorIds !! k = Some i ->
          write_outcome (fault_at k w) (visitors w !! i) = Ok tt ->
          exists data' k',
            visitors w' !! i = Some data'
            /\ visitorIds !! k' = Some i
            /\ obj_get "status" data' = Some (VStr "emergency-evacuated")
            /\ obj_get "checkOutTime" data' = Some (Timestamp_fromMillis (time_at k' w)))
    /\ (r = Ok tt <->
          forall k i, visitorIds !! k = Some i ->
            write_outcome (fault_at k w) (visitors w !! i) = Ok tt)
    /\ (forall e, r = Throw e ->
          exists k i, visitorIds !! k = Some i
            /\ write_outcome (fault_at k w) (visitors w !! i) = Throw e
            /\ forall j i', (j < k)%nat -> visitorIds !! j = Some i' ->
                 write_outcome (fault_at j w) (visitors w !! i') = Ok tt)
    /\ exists w'',
         handleEmergencyEvacuation visitorIds w = (Ok tt, w'')
         /\ visitors w'' = visitors w'
         /\ alerts w''
            = (alerts w
               ++ [match r with
                   | Ok _ => "Emergency evacuation completed for "
                             +:+ pretty (List.length visitorIds) +:+ " visitors."
                   | Throw _ => "Emergency evacuation failed. Please try again."
                   end])%list.
Proof.
  destruct (map_settled_Ok evacuate visitorIds w) as (rs & w' & Hrun).
  destruct (evacuate_all _ _ _ _ Hrun)
    as (Hf & Ha & Hframe & Hfields & _ & Hrs & Hacc).
  assert (Hlen : forall k, is_Some (rs !! k) -> is_Some (visitorIds !! k)).
  { assert (List.length rs = List.length visitorIds) as Hl.
    { clear -Hrun. revert w rs w' Hrun.
      induction visitorIds as [|i ids IH]; intros w rs w' Hrun.
      - simpl in Hrun. now injection Hrun as <- _.
      - rewrite map_settled_cons in Hrun. destruct (evacuate i w) as [r w1].
        destruct (map_settled evacuate ids w1) as [[rs'|] w2] eqn:E;
          [|discriminate].
        injection Hrun as <- _. simpl. f_equal. eauto. }
    intros k Hk. apply lookup_lt_is_Some. apply lookup_lt_is_Some in Hk.
    unfold length in *. lia. }
  set (r := match Promise_all rs with
            | Ok _ => Ok tt
            | Throw e => Throw e
            end).
  assert (Hee : emergencyEvacuation visitorIds w = (r, w')).
  { unfold emergencyEvacuation, mbind, M_bind, lift. rewrite Hrun.
    unfold r. now destruct (Promise_all rs). }
  exists r, w'. split; [exact Hee|].
  split; [exact Hf|]. split; [exact Hframe|]. split; [exact Hfields|].
  split; [exact Hacc|].
  split.
  { unfold r. split.
    - intros Hok k i Hk.
      destruct (Promise_all rs) as [l|] eqn:Hall; [|discriminate].
      destruct (proj1 (Promise_all_Ok rs) (ex_intro _ l Hall) k _ (Hrs k i Hk))
        as [[] Hu].
      exact Hu.
    - intros Hall.
      destruct (proj2 (Promise_all_Ok rs)) as [l ->]; [|reflexivity].
      intros k r0 Hk. destruct (Hlen k (ex_intro _ r0 Hk)) as [i Hi].
      rewrite (Hrs k i Hi), (Hall k i Hi) in Hk. injection Hk as <-. eauto. }
  split.
  { unfold r. intros e He.
    destruct (Promise_all rs) as [l|e'] eqn:Hall; [discriminate|].
    injection He as ->.
    apply Promise_all_Throw in Hall as (k & Hk & Hbefore).
    destruct (Hlen k (ex_intro _ _ Hk)) as [i Hi].
    exists k, i. split; [exact Hi|].
    split; [rewrite (Hrs k i Hi) in Hk; now injection Hk|].
    intros j i' Hj Hi'.
    destruct (Hbefore j _ Hj (Hrs j i' Hi')) as [[] Hu]. exact Hu. }
  unfold handleEmergencyEvacuation, try_catch, mbind, M_bind. rewrite Hee.
  destruct r; unfold alert; eexists; (split; [reflexivity|]);
    simpl; rewrite Ha; auto.
Qed.
End Evacuation.

(** Of four writes, the second does not find its record and the third is
    rejected: the call throws the second's error, and the first and the
    fourth visitors are evacuated all the same. *)
Lemma emergencyEvacuation_no_rollback_witness :
  exists w' data',
    emergencyEvacuation evacuation_ids evacuation_world
    = (Throw (FirebaseError "not-found"), w')
    /\ visitors w' !! "c" = Some data'
    /\ obj_get "status" data' = Some (VStr "emergency-evacuated")
    /\ obj_get "checkOutTime" data' = Some (Timestamp_fromMillis (may_1_8am + 3))
    /\ visitors w' !! "b" = visitors evacuation_world !! "b".
Proof.
  destruct (emergencyEvacuation_no_rollback evacuation_ids evacuation_world)
    as (r & w' & Hrun & _ & _ & _ & Hacc & _).
  destruct (Hacc 3%nat "c" eq_refl) as (data' & k' & Hd & Hk & Hs & Hc).
  { vm_compute. reflexivity. }
  exists w', data'.
  assert (Hr : r = Throw (FirebaseError "not-found")
               /\ visitors w' !! "b" = visitors evacuation_world !! "b").
  { vm_compute in Hrun. injection Hrun as <- <-. split; vm_compute; reflexivity. }
  destruct Hr as [-> Hb]. split; [exact Hrun|]. split; [exact Hd|].
  split; [exact Hs|]. split; [|exact Hb].
  assert (k' = 3%nat) as ->.
  { destruct k' as [|[|[|[|k']]]]; simpl in Hk; try discriminate.
    reflexivity. }
  exact Hc.
Defined.

(** ** Errors of the queries *)

Section SwallowedErrors.
Context `{RT : Runtime}.

Lemma getTodayVisitors_try_run w :
  getTodayVisitors_try w
  = (match next_fault w with
     | Some e => Throw e
     | None =>
         map_throwing convert
           (run_query [orderBy "checkInTime" Desc] (visitors w))
     end, set_faults (tl (faults w)) (tick (tick w))).
Proof.
  unfold getTodayVisitors_try, mbind, M_bind, Date_now, map_docs, lift.
  rewrite getDocs_run.
  change (next_fault (tick (tick w))) with (next_fault w).
  now destruct (next_fault w).
Qed.

(** C7, as amended.  Whatever error the [try] block of a query throws,
    other than the missing index that two of them answer with their
    fallback, the query returns an empty result: the empty list for
    [getActiveVisitors], [getTodayVisitors], [getAllVisitors] and
    [getAllAuditLogs], [null] for [findVisitorByIdNumber].  A request that
    the database rejects is such an error in each of them.  So no failure
    leaves these queries, except from within the fallback for a missing
    index: outside that case [getActiveVisitors] and [getTodayVisitors]
    always return, and the three others always return.  On a missing
    index the two do what their fallback does, which runs in the [catch]
    block under no handler: what it returns they return, and what it
    throws they throw. *)
Theorem queries_swallow_errors (w : World) :
  (forall e w1, index_missing e = false ->
     getActiveVisitors_try w = (Throw e, w1) ->
     getActiveVisitors w = (Ok [], w1))
  /\ (forall e w1, index_missing e = false ->
        getTodayVisitors_try w = (Throw e, w1) ->
        getTodayVisitors w = (Ok [], w1))
  /\ (forall e w1, getAllVisitors_try w = (Throw e, w1) ->
        getAllVisitors w = (Ok [], w1))
  /\ (forall e w1, getAllAuditLogs_try w = (Throw e, w1) ->
        getAllAuditLogs w = (Ok [], w1))
  /\ (forall i e w1, findVisitorByIdNumber_try i w = (Throw e, w1) ->
        findVisitorByIdNumber i w = (Ok None, w1))
  /\ (forall e, next_fault w = Some e ->
        let w1 := set_faults (tl (faults w)) w in
        getActiveVisitors_try w = (Throw e, w1)
        /\ getTodayVisitors_try w = (Throw e, set_faults (tl (faults w)) (tick (tick w)))
        /\ getAllVisitors_try w = (Throw e, w1)
        /\ getAllAuditLogs_try w = (Throw e, w1)
        /\ forall i, findVisitorByIdNumber_try i w = (Throw e, w1))
  /\ ((forall e, next_fault w = Some e -> index_missing e = false) ->
      (exists l w', getActiveVisitors w = (Ok l, w'))
      /\ (exists l w', getTodayVisitors w = (Ok l, w')))
  /\ (exists l w', getAllVisitors w = (Ok l, w'))
  /\ (exists l w', getAllAuditLogs w = (Ok l, w'))
  /\ (forall i, exists r w', findVisitorByIdNumber i w = (Ok r, w'))
  /\ (forall e w1, index_missing e = true ->
        getActiveVisitors_try w = (Throw e, w1) ->
        getActiveVisitors w = getActiveVisitors_fallback w1)
  /\ (forall e w1, index_missing e = true ->
        getTodayVisitors_try w = (Throw e, w1) ->
        getTodayVisitors w = getTodayVisitors_fallback w1).
Proof.
  split; [|split; [|split; [|split; [|split; [|split; [|split; [|split;
    [|split; [|split; [|split]]]]]]]]]].
  - intros e w1 He H. unfold getActiveVisitors, try_catch. now rewrite H, He.
  - intros e w1 He H. unfold getTodayVisitors, try_catch. now rewrite H, He.
  - intros e w1 H. unfold getAllVisitors, try_catch. now rewrite H.
  - intros e w1 H. unfold getAllAuditLogs, try_catch. now rewrite H.
  - intros i e w1 H. unfold findVisitorByIdNumber, try_catch. now rewrite H.
  - intros e H. cbv zeta. repeat split.
    + rewrite getActiveVisitors_try_run. now rewrite H.
    + rewrite getTodayVisitors_try_run. now rewrite H.
    + unfold getAllVisitors_try, mbind, M_bind. rewrite getDocs_run. now rewrite H.
    + unfold getAllAuditLogs_try, mbind, M_bind. rewrite getDocs_run. now rewrite H.
    + intros i. unfold findVisitorByIdNumber_try, mbind, M_bind.
      rewrite getDocs_run. now rewrite H.
  - intros Hother. split.
    + unfold getActiveVisitors, try_catch. rewrite getActiveVisitors_try_run.
      destruct (next_fault w) as [e|].
      * rewrite (Hother e eq_refl). eauto.
      * destruct (map_throwing _ _) as [vs|e] eqn:Hvs; [eauto|].
        rewrite (map_docs_Throw _ _ Hvs). eauto.
    + unfold getTodayVisitors, try_catch. rewrite getTodayVisitors_try_run.
      destruct (next_fault w) as [e|].
      * rewrite (Hother e eq_refl). eauto.
      * destruct (map_throwing _ _) as [vs|e] eqn:Hvs; [eauto|].
        rewrite (map_docs_Throw _ _ Hvs). eauto.
  - unfold getAllVisitors, try_catch.
    destruct (getAllVisitors_try w) as [[l|e] w']; eauto.
  - unfold getAllAuditLogs, try_catch.
    destruct (getAllAuditLogs_try w) as [[l|e] w']; eauto.
  - intros i. unfold findVisitorByIdNumber, try_catch.
    destruct (findVisitorByIdNumber_try i w) as [[r|e] w']; eauto.
  - intros e w1 He H. unfold getActiveVisitors, try_catch. now rewrite H, He.
  - intros e w1 He H. unfold getTodayVisitors, try_catch. now rewrite H, He.
Qed.
End SwallowedErrors.

(** With the database out of reach, every query comes back empty; so
    does the active list when a record cannot be converted. *)
Lemma queries_swallow_errors_witness :
  (getActiveVisitors offline_world).1 = Ok []
  /\ (getTodayVisitors offline_world).1 = Ok []
  /\ (getAllVisitors offline_world).1 = Ok []
  /\ (getAllAuditLogs offline_world).1 = Ok []
  /\ (findVisitorByIdNumber (VStr "VID-1") offline_world).1 = Ok None
  /\ (getActiveVisitors garbled_world).1 = Ok [].
Proof.
  destruct (queries_swallow_errors offline_world)
    as (Hactive & Htoday & Hall & Hlogs & Hfind & Hthrown & _).
  destruct (Hthrown (FirebaseError "unavailable") eq_refl)
    as (Ta & Tt & Tv & Tl & Tf).
  rewrite (Hactive (FirebaseError "unavailable") _ eq_refl Ta),
    (Htoday (FirebaseError "unavailable") _ eq_refl Tt), (Hall _ _ Tv),
    (Hlogs _ _ Tl), (Hfind _ _ _ (Tf (VStr "VID-1"))).
  destruct (queries_swallow_errors garbled_world) as (Hactive' & _).
  rewrite (Hactive' TypeError (set_faults [] garbled_world) eq_refl);
    [|vm_compute; reflexivity].
  repeat split.
Defined.

(** C7, as stated, fails within the fallback for a missing index, which no
    handler covers.  When the ordered query is refused for want of an
    index and the database is out of reach for the request of the
    fallback, [getActiveVisitors] and [getTodayVisitors] throw the error
    of that request; when a record cannot be converted, they throw the
    [TypeError] of the conversion.  Neither error is the one of the
    missing index. *)
Lemma queries_fallback_errors_propagate :
  index_missing (FirebaseError "unavailable") = false
  /\ index_missing TypeError = false
  /\ (getActiveVisitors without_index_then_offline).1
     = Throw (FirebaseError "unavailable")
  /\ (getTodayVisitors without_index_then_offline).1
     = Throw (FirebaseError "unavailable")
  /\ (getActiveVisitors (without_index garbled_world)).1 = Throw TypeError
  /\ (getTodayVisitors (without_index garbled_world)).1 = Throw TypeError.
Proof. repeat split; vm_compute; reflexivity. Qed.

(** ** Visitor ids *)

Lemma toUpperCase_length s : String.length (toUpperCase s) = String.length s.
Proof. induction s as [|c s IH]; simpl; congruence. Qed.

Lemma substring_length_le n m s : (String.length (substring n m s) <= m)%nat.
Proof.
  revert n m. induction s as [|c s IH]; intros [|n] [|m]; simpl; try lia.
  - specialize (IH 0%nat m). lia.
  - apply (IH n 0%nat).
  - apply (IH n (S m)).
Qed.

Lemma substring_length_full n m s :
  (n + m <= String.length s)%nat -> String.length (substring n m s) = m.
Proof.
  revert n m. induction s as [|c s IH]; intros [|n] [|m]; simpl; try lia.
  - intros H. rewrite IH; lia.
  - intros H. apply (IH n 0%nat). lia.
  - intros H. apply (IH n (S m)). lia.
Qed.

Lemma toUpperCase_ascii_upper c : ~ lower_case (toUpperCase_ascii c).
Proof.
  unfold lower_case, toUpperCase_ascii.
  destruct ((97 <=? nat_of_ascii c)%nat && (nat_of_ascii c <=? 122)%nat) eqn:E.
  - apply andb_true_iff in E as [E1 E2].
    apply Nat.leb_le in E1, E2.
    rewrite nat_ascii_embedding by lia. lia.
  - apply andb_false_iff in E as [E|E]; apply Nat.leb_gt in E; lia.
Qed.

Lemma toUpperCase_upper s :
  Forall (fun c => ~ lower_case c) (list_ascii_of_string (toUpperCase s)).
Proof.
  induction s as [|c s IH]; simpl; constructor; auto.
  apply toUpperCase_ascii_upper.
Qed.

Section VisitorIds.
Context `{RT : Runtime}.

(** C8, as amended.  [generateVisitorIdNumber] is the concatenation of
    ["VID-"], the clock in milliseconds, ["-"] and a random suffix: the
    upper-cased characters 2 to 7 of the base-36 rendering of the draw,
    hence at most six characters without a lower-case letter, and six
    when the rendering has six digits or more after ["0."].  Nothing makes
    the ids unique: the same time and the same draw give the same id, and
    two different check-ins can so receive one visitor id. *)
Theorem generateVisitorIdNumber_no_uniqueness :
  (forall w,
     let suffix := toUpperCase (substr 2 6 (hd "0" (randoms w))) in
     generateVisitorIdNumber w
     = (Ok ("VID-" +:+ pretty (now w) +:+ "-" +:+ suffix),
        set_randoms (tl (randoms w)) (tick w))
     /\ (String.length suffix <= 6)%nat
     /\ ((8 <= String.length (hd "0" (randoms w)))%nat ->
         String.length suffix = 6%nat)
     /\ Forall (fun c => ~ lower_case c) (list_ascii_of_string suffix))
  /\ (forall w1 w2,
        now w1 = now w2 -> hd "0" (randoms w1) = hd "0" (randoms w2) ->
        (generateVisitorIdNumber w1).1 = (generateVisitorIdNumber w2).1)
  /\ (exists w0 v1 w1 v2 w2,
        checkInVisitor ann false w0 = (Ok v1, w1)
        /\ checkInVisitor bob false w1 = (Ok v2, w2)
        /\ id v1 <> id v2
        /\ visitorIdNumber v1 = visitorIdNumber v2).
Proof.
  split; [|split].
  - intros w suffix. split; [reflexivity|].
    unfold suffix, substr. rewrite toUpperCase_length.
    split; [apply substring_length_le|].
    split; [|apply toUpperCase_upper].
    intros H. apply substring_length_full. lia.
  - intros w1 w2 Hn Hr. unfold generateVisitorIdNumber, mbind, M_bind,
      Date_now, Math_random_toString36, mret, M_ret. simpl.
    now rewrite Hn, Hr.
  - exists unlucky_morning. do 4 eexists.
    split; [vm_compute; reflexivity|].
    split; [vm_compute; reflexivity|].
    split; [discriminate|reflexivity].
Qed.
End VisitorIds.

(** C8, as stated, fails on the length of the suffix: a draw of one half
    is rendered ["0.i"], and the id ends in the single character ["I"]. *)
Lemma generateVisitorIdNumber_short_suffix :
  (generateVisitorIdNumber half_draw_morning).1 = Ok "VID-1714550400000-I"
  /\ String.length (toUpperCase (substr 2 6 "0.i")) <> 6%nat.
Proof. split; [reflexivity|discriminate]. Qed.

(** ** Finding a visitor by QR code *)

Section ByQRCode.
Context `{RT : Runtime}.

Lemma findVisitorByIdNumber_returns i w :
  exists r w', findVisitorByIdNumber i w = (Ok r, w').
Proof.
  unfold findVisitorByIdNumber, try_catch.
  destruct (findVisitorByIdNumber_try i w) as [[r|e] w']; eauto.
Qed.

(** C9.  [findVisitorByQRCode] never throws.  It returns [null] for a text
    that is not valid JSON and for a parsed value that carries no usable
    id; otherwise its result is that of [findVisitorByIdNumber] on the id
    the value carries. *)
Theorem findVisitorByQRCode_spec (qrCodeData : string) (w : World) :
  (exists r w', findVisitorByQRCode qrCodeData w = (Ok r, w'))
  /\ (JSON_parse qrCodeData = None ->
      findVisitorByQRCode qrCodeData w = (Ok None, w))
  /\ (forall parsed, JSON_parse qrCodeData = Some parsed ->
        specified_qr_id parsed = None ->
        findVisitorByQRCode qrCodeData w = (Ok None, w))
  /\ (forall parsed i, JSON_parse qrCodeData = Some parsed ->
        specified_qr_id parsed = Some i ->
        findVisitorByQRCode qrCodeData w = findVisitorByIdNumber i w).
Proof.
  assert (Hrun : findVisitorByQRCode qrCodeData w
                 = match JSON_parse qrCodeData with
                   | None => (Ok None, w)
                   | Some parsed =>
                       match specified_qr_id parsed with
                       | Some i => findVisitorByIdNumber i w
                       | None => (Ok None, w)
                       end
                   end).
  { unfold findVisitorByQRCode, try_catch, mbind, M_bind, lift, mret, M_ret.
    destruct (JSON_parse qrCodeData) as [parsed|]; [|reflexivity].
    unfold specified_qr_id, qr_id.
    destruct parsed; simpl; try reflexivity.
    destruct (obj_get "id" props) as [x|]; simpl.
    - destruct (truthy x) eqn:Tx; simpl; rewrite ?Tx; [reflexivity|].
      destruct (obj_get "visitorId" props) as [y|]; simpl; [|reflexivity].
      destruct (truthy y) eqn:Ty; simpl; rewrite ?Ty; reflexivity.
    - destruct (obj_get "visitorId" props) as [y|]; simpl; [|reflexivity].
      destruct (truthy y) eqn:Ty; simpl; rewrite ?Ty; reflexivity. }
  rewrite Hrun. split; [|split; [|split]].
  - destruct (JSON_parse qrCodeData) as [parsed|]; [|eauto].
    destruct (specified_qr_id parsed); [|eauto].
    apply findVisitorByIdNumber_returns.
  - now intros ->.
  - now intros parsed -> ->.
  - now intros parsed i -> ->.
Qed.
End ByQRCode.

(** Ann's QR code finds her; a text that is no JSON, the JSON [null], a
    number, and a code whose [id] is empty find nobody. *)
Lemma findVisitorByQRCode_spec_witness :
  (exists v w',
     findVisitorByQRCode
       (json_object (qr_of "VID-1714550400000-K3J9ZQ" may_1_8am)) ann_inside
     = (Ok (Some v), w') /\ id v = "doc1")
  /\ findVisitorByQRCode "VID-1714550400000-K3J9ZQ" ann_inside
     = (Ok None, ann_inside)
  /\ findVisitorByQRCode "null" ann_inside = (Ok None, ann_inside)
  /\ findVisitorByQRCode "42" ann_inside = (Ok None, ann_inside)
  /\ findVisitorByQRCode
       (json_object (VMap [("id", VStr ""); ("t", VStr "v")])) ann_inside
     = (Ok None, ann_inside).
Proof.
  split; [|split; [|split; [|split]]].
  - destruct (findVisitorByQRCode_spec
                (json_object (qr_of "VID-1714550400000-K3J9ZQ" may_1_8am))
                ann_inside) as (_ & _ & _ & Hfound).
    rewrite (Hfound (qr_of "VID-1714550400000-K3J9ZQ" may_1_8am)
                    (VStr "VID-1714550400000-K3J9ZQ") eq_refl eq_refl).
    do 2 eexists. split; [vm_compute; reflexivity|reflexivity].
  - now apply findVisitorByQRCode_spec.
  - destruct (findVisitorByQRCode_spec "null" ann_inside) as (_ & _ & Hnone & _).
    now apply (Hnone VNull).
  - destruct (findVisitorByQRCode_spec "42" ann_inside) as (_ & _ & Hnone & _).
    now apply (Hnone (VNum 42)).
  - destruct (findVisitorByQRCode_spec
                (json_object (VMap [("id", VStr ""); ("t", VStr "v")]))
                ann_inside) as (_ & _ & Hnone & _).
    now apply (Hnone (VMap [("id", VStr ""); ("t", VStr "v")])).
Defined.

(** ** Visitors of today *)

Section Today.
Context `{RT : Runtime}.

Lemma getTodayVisitors_fallback_run w :
  getTodayVisitors_fallback w
  = (match next_fault w with
     | Some e => Throw e
     | None =>
         vs ← map_throwing convert (run_query [] (visitors w));
         Ok (js_sort newest_first
               (List.filter (checkInTime_since (startOfDay (now w))) vs))
     end,
     match next_fault w with
     | Some e => set_faults (tl (faults w)) w
     | None => tick (set_faults (tl (faults w)) w)
     end).
Proof.
  unfold getTodayVisitors_fallback, mbind at 1 2 3, M_bind, map_docs, lift,
    Date_now.
  rewrite getDocs_run. destruct (next_fault w); [reflexivity|].
  simpl. now destruct (map_throwing _ _).
Qed.

Lemma checkInTime_since_spec lo v :
  checkInTime_since lo v = true <-> exists t, checkInTime v = VDate t /\ lo <= t.
Proof.
  unfold checkInTime_since.
  destruct (checkInTime v);
    try (split; [discriminate|intros (t & E & _); discriminate]).
  rewrite Z.leb_le. split.
  - intros H. eauto.
  - intros (t & E & H). injection E as <-. exact H.
Qed.

(** What the two paths of [getTodayVisitors] list, over records that can
    all be converted: the ordered query of the [try] block lists every
    visitor who has a [checkInTime], of whatever day; the fallback lists
    those who checked in since the start of the day. *)
Lemma getTodayVisitors_paths w :
  (forall i data, visitors w !! i = Some data -> readable data) ->
  (next_fault w = None ->
   exists l w',
     getTodayVisitors w = (Ok l, w')
     /\ forall x, x ∈ l <->
          exists data, visitors w !! id x = Some data
            /\ mapDocToVisitor (id x) data = Ok x
            /\ is_Some (obj_get "checkInTime" data))
  /\ (forall e, next_fault w = Some e -> index_missing e = true ->
      next_fault (set_faults (tl (faults w)) w) = None ->
      exists l w',
        getTodayVisitors w = (Ok l, w')
        /\ forall x, x ∈ l <->
             exists data t, visitors w !! id x = Some data
               /\ mapDocToVisitor (id x) data = Ok x
               /\ checkInTime x = VDate t
               /\ startOfDay (time_at 2 w) <= t).
Proof.
  intros Hread.
  assert (Hall : forall q, exists vs,
             map_throwing convert (run_query q (visitors w)) = Ok vs).
  { intros q. apply convert_snapshot. intros [i data] Hd.
    apply elem_of_run_query in Hd as [Hlook _]. eauto. }
  split.
  - intros Hf. destruct (Hall [orderBy "checkInTime" Desc]) as [vs Hvs].
    exists vs. eexists. split.
    + unfold getTodayVisitors, try_catch.
      rewrite getTodayVisitors_try_run, Hf, Hvs. reflexivity.
    + intros x. rewrite (map_throwing_elem_of _ _ _ _ Hvs). split.
      * intros ([i data] & Hd & Hconv). unfold convert in Hconv; simpl in Hconv.
        destruct (mapDocToVisitor_inv _ _ _ Hconv) as (<- & _).
        apply elem_of_run_query in Hd as [Hlook Hsat]. simpl in Hlook, Hsat.
        rewrite andb_true_r in Hsat. apply bool_decide_eq_true in Hsat. eauto.
      * intros (data & Hlook & Hconv & Hsome).
        exists (id x, data). split; [|exact Hconv].
        apply elem_of_run_query. split; [exact Hlook|].
        simpl. rewrite andb_true_r. now apply bool_decide_eq_true.
  - intros e Hf He Hf'. destruct (Hall []) as [vs Hvs].
    eexists. eexists. split.
    + unfold getTodayVisitors, try_catch.
      rewrite getTodayVisitors_try_run, Hf, He, getTodayVisitors_fallback_run.
      change (next_fault (set_faults (tl (faults w)) (tick (tick w))))
        with (next_fault (set_faults (tl (faults w)) w)).
      rewrite Hf'.
      change (visitors (set_faults (tl (faults w)) (tick (tick w))))
        with (visitors w).
      rewrite Hvs. reflexivity.
    + intros x.
      rewrite elem_of_js_sort, list_elem_of_In, List.filter_In, <- list_elem_of_In.
      rewrite (map_throwing_elem_of _ _ _ _ Hvs), checkInTime_since_spec.
      change (now (set_faults (tl (faults w)) (tick (tick w))))
        with (time_at 2 w).
      split.
      * intros (([i data] & Hd & Hconv) & t & Ht & Hsince).
        unfold convert in Hconv; simpl in Hconv.
        destruct (mapDocToVisitor_inv _ _ _ Hconv) as (<- & _).
        apply elem_of_run_query in Hd as [Hlook _]. eauto 8.
      * intros (data & t & Hlook & Hconv & Ht & Hsince). split; [|eauto].
        exists (id x, data). split; [|exact Hconv].
        apply elem_of_run_query. split; [exact Hlook|reflexivity].
Qed.
End Today.

(** C4 does not hold of the code.  On 3 May, with three visits of 30 April
    and 1 May on record, the ordered query of [getTodayVisitors] returns
    all three as today's visitors; the fallback, over the same records,
    returns none. *)
Lemma getTodayVisitors_lists_other_days :
  exists l w1 w2,
    getTodayVisitors three_days = (Ok l, w1)
    /\ id <$> l = ["c"; "b"; "a"]
    /\ Forall (fun v => exists t, checkInTime v = VDate t
                         /\ t < utc_startOfDay (now three_days)) l
    /\ getTodayVisitors (without_index three_days) = (Ok [], w2).
Proof.
  do 3 eexists. split; [vm_compute; reflexivity|].
  split; [reflexivity|].
  split; [|vm_compute; reflexivity].
  repeat constructor; eexists; (split; [reflexivity|]); vm_compute; reflexivity.
Qed.


Lemma generateVisitorIdNumber_no_uniqueness_witness :
  (generateVisitorIdNumber morning).1 = Ok "VID-1714550400000-K3J9ZQ"
  /\ String.length (toUpperCase (substr 2 6 (hd "0" (randoms morning)))) = 6%nat.
Proof.
  destruct generateVisitorIdNumber_no_uniqueness as (Hshape & _).
  destruct (Hshape morning) as (Hrun & _ & Hsix & _).
  split; [now rewrite Hrun|].
  apply Hsix. simpl. lia.
Defined.

(** ** Running a computation step by step *)

Lemma bind_run {A B} (m : M A) (k : A -> M B) w a w1 :
  m w = (Ok a, w1) -> (m ≫= k) w = k a w1.
Proof. intros H. unfold mbind, M_bind. now rewrite H. Qed.

Lemma bind_throw {A B} (m : M A) (k : A -> M B) w e w1 :
  m w = (Throw e, w1) -> (m ≫= k) w = (Throw e, w1).
Proof. intros H. unfold mbind, M_bind. now rewrite H. Qed.

Lemma defined_props_Ok details o :
  defined_props details = Ok o <-> details = map (fun kv => (kv.1, Some kv.2)) o.
Proof.
  revert o. induction details as [|[k [v|]] ps IH]; intros o; simpl.
  - split; [intros [= <-]; reflexivity|]. destruct o; [reflexivity|discriminate].
  - destruct (defined_props ps) as [o'|e] eqn:E; simpl.
    + split.
      * intros [= <-]. simpl. f_equal. now apply IH.
      * destruct o as [|[k' v'] o'']; [discriminate|]. simpl.
        intros [= -> -> H]. apply IH in H. now injection H as ->.
    + split; [discriminate|].
      destruct o as [|[k' v'] o'']; [discriminate|]. simpl.
      intros [= -> -> H]. apply IH in H. discriminate.
  - split; [discriminate|]. destruct o as [|[] ?]; discriminate.
Qed.

Section AuditTrail.
Context `{RT : Runtime}.

(** What [logAudit] does, exactly: it reads the clock, then either writes
    one record under the next id or writes nothing, and returns. *)
Lemma logAudit_exact action userId visitorId details w :
  logAudit action userId visitorId details w
  = (Ok tt,
     match defined_props details with
     | Throw _ => tick w
     | Ok o =>
         let w1 := set_faults (tl (faults w))
                     (set_auto_ids (tl (auto_ids w)) (tick w)) in
         match next_fault w with
         | Some _ => w1
         | None =>
             set_docs auditCollection
               (<[hd "" (auto_ids w)
                  := audit_record (now w) action userId visitorId o]>
                  (audit_logs w)) w1
         end
     end).
Proof.
  unfold logAudit, try_catch.
  unfold mbind at 1, M_bind, Date_now.
  unfold mbind at 1, M_bind, lift.
  destruct (defined_props details) as [o|e]; [|reflexivity].
  unfold mbind at 1, M_bind. rewrite addDoc_run. cbv zeta.
  change (next_fault (tick w)) with (next_fault w).
  destruct (next_fault w); reflexivity.
Qed.
End AuditTrail.

Section AuditTrail2.
Context `{RT : Runtime}.

(** X1.  [logAudit] never throws and never touches the visitors.  When its
    details are all defined and the database accepts the write, the audit
    log gains exactly one record, under the next document id, holding the
    time of the call, the action, the user, the visitor and the details;
    when the write is rejected, or a detail is [undefined], the audit log
    is left as it was. *)
Theorem logAudit_record (action userId visitorId : string)
    (details : list (string * option value)) (w : World) :
  exists w',
    logAudit action userId visitorId details w = (Ok tt, w')
    /\ visitors w' = visitors w
    /\ (forall o, defined_props details = Ok o -> next_fault w = None ->
          audit_logs w'
          = <[hd "" (auto_ids w)
              := audit_record (now w) action userId visitorId o]>
              (audit_logs w))
    /\ (forall e, next_fault w = Some e -> audit_logs w' = audit_logs w)
    /\ (forall e, defined_props details = Throw e ->
          audit_logs w' = audit_logs w).
Proof.
  eexists. split; [apply logAudit_exact|].
  destruct (defined_props details) as [o|e]; cbv zeta.
  - destruct (next_fault w) as [e|].
    + repeat split; try discriminate; reflexivity.
    + split; [reflexivity|]. split; [|split; discriminate].
      intros o' [= <-] _. reflexivity.
  - split; [reflexivity|]. split; [discriminate|]. split; reflexivity.
Qed.

Lemma checkOutVisitor_exact visitorId w data :
  next_fault w = None -> visitors w !! visitorId = Some data ->
  checkOutVisitor visitorId w
  = logAudit "visitor_check_out" "system" visitorId
      [("timestamp", Some (VStr (toISOString (time_at 1 w))))]
      (tick
         (set_docs visitorsCollection
            (<[visitorId
               := obj_assign
                    (to_firestore_obj
                       [("checkOutTime", Timestamp_fromMillis (now w));
                        ("status", VStr "checked-out")]) data]> (visitors w))
            (set_faults (tl (faults w)) (tick w)))).
Proof.
  intros Hf Hd. unfold checkOutVisitor, try_catch.
  unfold mbind at 1, M_bind, Date_now.
  unfold mbind at 1, M_bind. rewrite updateDoc_run.
  change (next_fault (tick w)) with (next_fault w).
  change (docs_of visitorsCollection (tick w)) with (visitors w).
  rewrite Hf, Hd.
  unfold mbind at 1, M_bind.
  rewrite !logAudit_exact. reflexivity.
Qed.

(** X2.  A check-out that succeeds is written to the audit log, unless the
    database rejects the audit write: the record is filed under the next
    document id, with the action [visitor_check_out], the user [system],
    the visitor's id, and the ISO text of the time read after the
    update. *)
Theorem checkOutVisitor_audited (visitorId : string) (w : World) (data : obj)
    (Hanswered : next_fault w = None)
    (Hstored : visitors w !! visitorId = Some data) :
  exists w',
    checkOutVisitor visitorId w = (Ok tt, w')
    /\ audit_logs w'
       = match fault_at 1 w with
         | None =>
             <[hd "" (auto_ids w)
               := audit_record (time_at 2 w) "visitor_check_out" "system"
                    visitorId
                    [("timestamp", VStr (toISOString (time_at 1 w)))]]>
               (audit_logs w)
         | Some _ => audit_logs w
         end.
Proof.
  rewrite (checkOutVisitor_exact _ _ _ Hanswered Hstored), logAudit_exact.
  eexists. split; [reflexivity|]. simpl.
  unfold fault_at, next_fault. simpl.
  destruct (faults w) as [|f0 [|[e|] fs]]; reflexivity.
Qed.
End AuditTrail2.

Lemma checkOutVisitor_audited_witness :
  exists w' record,
    checkOutVisitor "doc1" desk_with_ids = (Ok tt, w')
    /\ audit_logs w' !! "log1" = Some record
    /\ obj_get "action" record = Some (VStr "visitor_check_out")
    /\ obj_get "visitorId" record = Some (VStr "doc1").
Proof.
  destruct (checkOutVisitor_audited "doc1" desk_with_ids
              (visitor_doc "Ann Lee" "VID-1714550400000-K3J9ZQ" may_1_8am
                 "checked-in") eq_refl eq_refl) as (w' & Hrun & Hlog).
  exists w'. eexists. split; [exact Hrun|].
  rewrite Hlog. simpl. rewrite lookup_insert. 
  split; [reflexivity|]. split; reflexivity.
Defined.

Section CheckInRun.
Context `{RT : Runtime}.

Lemma choose_ids_exact visitorData isReturningVisitor w :
  choose_ids visitorData isReturningVisitor w
  = match returning_id visitorData isReturningVisitor with
    | Some given =>
        (Ok (given, JSON_stringify (qr_object given (now w)),
             "B" +:+ slice_last 6 (pretty (time_at 1 w))),
         Nat.iter 2 tick w)
    | None =>
        (Ok (VStr (fresh_visitorIdNumber w),
             JSON_stringify
               (qr_object (VStr (fresh_visitorIdNumber w)) (time_at 1 w)),
             "B" +:+ slice_last 6 (pretty (time_at 2 w))),
         set_randoms (tl (randoms w)) (Nat.iter 3 tick w))
    end.
Proof.
  unfold choose_ids, returning_id.
  destruct (match obj_get "visitorIdNumber" visitorData with
            | Some given => _
            | None => None
            end); reflexivity.
Qed.

Lemma with_healthScreening_frame visitorData payload w r w1 :
  with_healthScreening visitorData payload w = (r, w1) ->
  visitors w1 = visitors w /\ audit_logs w1 = audit_logs w
  /\ auto_ids w1 = auto_ids w /\ faults w1 = faults w.
Proof.
  unfold with_healthScreening.
  destruct (obj_get "healthScreening" visitorData) as [hs|];
    [|intros [= <- <-]; auto].
  destruct (truthy hs); [|intros [= <- <-]; auto].
  unfold mbind, M_bind, lift, Date_now, mret, M_ret.
  destruct (prop "screeningDate" hs) as [d|]; [destruct (truthy d)|];
    match goal with
    | |- context [Timestamp_fromDate ?x] => destruct (Timestamp_fromDate x)
    end; intros [= <- <-]; auto.
Qed.

(** The payload that leaves [with_healthScreening]. *)
Lemma with_healthScreening_shape visitorData payload w p w1 :
  with_healthScreening visitorData payload w = (Ok p, w1) ->
  (p = payload
   /\ forall hs, obj_get "healthScreening" visitorData = Some hs ->
        truthy hs = false)
  \/ exists hs ms,
       obj_get "healthScreening" visitorData = Some hs
       /\ truthy hs = true
       /\ p = obj_set "healthScreening"
                (VMap (obj_set "screeningDate" (Timestamp_fromMillis ms) (spread hs)))
                payload.
Proof.
  unfold with_healthScreening.
  destruct (obj_get "healthScreening" visitorData) as [hs|];
    [|intros [= <- <-]; left; split; [reflexivity|discriminate]].
  destruct (truthy hs) eqn:T;
    [|intros [= <- <-]; left; split; [reflexivity|now intros ? [= <-]]].
  intros H. right. exists hs.
  apply bind_Ok in H as (d & w2 & _ & H).
  apply bind_Ok in H as (sd & w3 & Hsd & H).
  unfold lift in Hsd. injection Hsd as Hsd <-.
  injection H as <- <-.
  destruct d; try discriminate. injection Hsd as <-. eauto.
Qed.

(** The steps of a check-in, in the order the code takes them. *)
Lemma checkInVisitor_steps visitorData isReturningVisitor w :
  exists vid qr badge w1 r2 w2,
    choose_ids visitorData isReturningVisitor w = (Ok (vid, qr, badge), w1)
    /\ with_healthScreening visitorData
         (obj_assign [("visitorIdNumber", vid); ("qrCode", VStr qr);
                      ("badgeNumber", VStr badge);
                      ("checkInTime", Timestamp_fromMillis (now w1));
                      ("status", VStr "checked-in")] visitorData)
         (tick w1) = (r2, w2)
    /\ match r2, next_fault w with
       | Throw e, _ => checkInVisitor visitorData isReturningVisitor w = (Throw e, w2)
       | Ok _, Some e =>
           checkInVisitor visitorData isReturningVisitor w
           = (Throw e, set_faults (tl (faults w2)) (set_auto_ids (tl (auto_ids w2)) w2))
       | Ok p, None =>
           exists w',
             checkInVisitor visitorData isReturningVisitor w
             = (mapDocToVisitor (hd "" (auto_ids w)) p, w')
             /\ visitors w'
                = <[hd "" (auto_ids w) := to_firestore_obj p]> (visitors w)
       end.
Proof.
  destruct (choose_ids_run visitorData isReturningVisitor w)
    as ([[vid qr] badge] & w1 & Hids & Hv1 & Ha1 & Hf1 & _).
  exists vid, qr, badge, w1.
  destruct (with_healthScreening visitorData
         (obj_assign [("visitorIdNumber", vid); ("qrCode", VStr qr);
                      ("badgeNumber", VStr badge);
                      ("checkInTime", Timestamp_fromMillis (now w1));
                      ("status", VStr "checked-in")] visitorData)
         (tick w1)) as [r2 w2] eqn:Hhs.
  exists r2, w2. split; [exact Hids|]. split; [reflexivity|].
  destruct (with_healthScreening_frame _ _ _ _ _ Hhs) as (Hv2 & Hl2 & Ha2 & Hf2).
  simpl in Hv2, Hl2, Ha2, Hf2.
  assert (Hnf : next_fault w2 = next_fault w).
  { unfold next_fault. now rewrite Hf2, Hf1. }
  destruct r2 as [p|e]; [destruct (next_fault w) as [e|] eqn:Hw|];
    unfold checkInVisitor, try_catch;
    rewrite (bind_run _ _ _ _ _ Hids);
    unfold mbind at 1, M_bind, Date_now.
  - rewrite (bind_run _ _ _ _ _ Hhs).
    unfold mbind at 1, M_bind. rewrite addDoc_run. cbv zeta. rewrite Hnf.
    reflexivity.
  - rewrite (bind_run _ _ _ _ _ Hhs).
    unfold mbind at 1, M_bind. rewrite addDoc_run. cbv zeta. rewrite Hnf.
    unfold mbind at 1, M_bind.
    match goal with
    | |- context [logAudit ?a ?u ?i ?d ?w0] =>
        destruct (logAudit_run a u i d w0) as (w5 & -> & Hv5 & _)
    end.
    unfold lift. rewrite Ha2, Ha1. exists w5.
    destruct (mapDocToVisitor (hd "" (auto_ids w)) p) eqn:Hc;
      (split; [reflexivity|]);
      rewrite Hv5; simpl; now rewrite Hv2, Hv1, Ha2, Ha1.
  - rewrite (bind_throw _ _ _ _ _ Hhs). reflexivity.
Qed.
End CheckInRun.

Lemma obj_get_obj_assign_ne f patch o :
  f ∉ patch.*1 -> obj_get f (obj_assign patch o) = obj_get f o.
Proof.
  unfold obj_assign. revert o.
  induction patch as [|[k v] patch IH]; intros o Hf; [reflexivity|].
  simpl. rewrite IH by (intros ?; apply Hf; now right).
  apply obj_get_set_ne. intros ->. apply Hf. now left.
Qed.

(** Membership in a list that is written out. *)
Ltac listed :=
  unfold set_at_check_in in *;
  rewrite ?elem_of_cons, ?elem_of_nil in *;
  intuition (subst; try discriminate; auto).

Section CheckInFacts.
Context `{RT : Runtime}.

(** The payload of a check-in: the five fields it sets, and the fields of
    the form it keeps. *)
Lemma check_in_payload vid qr badge t visitorData :
  let payload :=
    obj_assign [("visitorIdNumber", vid); ("qrCode", VStr qr);
                ("badgeNumber", VStr badge);
                ("checkInTime", Timestamp_fromMillis t);
                ("status", VStr "checked-in")] visitorData in
  obj_get "visitorIdNumber" payload = Some vid
  /\ obj_get "qrCode" payload = Some (VStr qr)
  /\ obj_get "badgeNumber" payload = Some (VStr badge)
  /\ obj_get "checkInTime" payload = Some (Timestamp_fromMillis t)
  /\ obj_get "status" payload = Some (VStr "checked-in")
  /\ forall f, f ∉ ["visitorIdNumber"; "qrCode"; "badgeNumber"; "checkInTime";
                    "status"] ->
       obj_get f payload = obj_get f visitorData.
Proof.
  cbv zeta. split; [|split; [|split; [|split; [|split]]]];
    try (unfold obj_assign; simpl;
         rewrite ?(obj_get_set_ne "status"), ?(obj_get_set_ne "checkInTime"),
           ?(obj_get_set_ne "badgeNumber"), ?(obj_get_set_ne "qrCode")
           by discriminate;
         apply obj_get_set_eq).
  intros f Hf. now apply obj_get_obj_assign_ne.
Qed.

End CheckInFacts.


Lemma or_else_truthy x dflt : truthy x = true -> or_else (Some x) dflt = x.
Proof. intros T. simpl. now rewrite T. Qed.

Lemma or_else_string s : or_else (Some (VStr s)) (VStr "") = VStr s.
Proof.
  simpl. destruct (String.eqb_spec s "") as [->|]; reflexivity.
Qed.

Section CheckInIds.
Context `{RT : Runtime}.

Lemma returning_id_truthy visitorData isReturningVisitor given :
  returning_id visitorData isReturningVisitor = Some given ->
  isReturningVisitor = true
  /\ obj_get "visitorIdNumber" visitorData = Some given
  /\ truthy given = true.
Proof.
  unfold returning_id.
  destruct (obj_get "visitorIdNumber" visitorData) as [g|]; [|discriminate].
  destruct isReturningVisitor; [|discriminate]. simpl.
  destruct (truthy g) eqn:T; [|discriminate]. intros [= <-]. auto.
Qed.

Lemma checkInVisitor_Ok_fields visitorData isReturningVisitor w v w' :
  checkInVisitor visitorData isReturningVisitor w = (Ok v, w') ->
  exists vid qr badge w1 p,
    choose_ids visitorData isReturningVisitor w = (Ok (vid, qr, badge), w1)
    /\ next_fault w = None
    /\ mapDocToVisitor (hd "" (auto_ids w)) p = Ok v
    /\ visitors w' = <[hd "" (auto_ids w) := to_firestore_obj p]> (visitors w)
    /\ obj_get "visitorIdNumber" p = Some vid
    /\ obj_get "qrCode" p = Some (VStr qr)
    /\ obj_get "badgeNumber" p = Some (VStr badge).
Proof.
  intros H.
  destruct (checkInVisitor_steps visitorData isReturningVisitor w)
    as (vid & qr & badge & w1 & r2 & w2 & Hids & Hhs & Hrun).
  destruct r2 as [p|e]; [|rewrite H in Hrun; discriminate].
  destruct (next_fault w) as [e|]; [rewrite H in Hrun; discriminate|].
  destruct Hrun as (w'' & Hrun & Hv'). rewrite H in Hrun.
  injection Hrun as Hv <-.
  exists vid, qr, badge, w1, p.
  split; [exact Hids|]. split; [reflexivity|]. split; [auto|]. split; [exact Hv'|].
  destruct (check_in_payload vid qr badge (now w1) visitorData)
    as (Hi & Hq & Hb & _). cbv zeta in Hi, Hq, Hb.
  apply with_healthScreening_run in Hhs as ([-> | [x ->]] & _);
    rewrite ?(obj_get_set_ne "healthScreening") by discriminate; auto.
Qed.

(** X4.  The ids of a visit.  A returning visitor whose form brings an ID
    number keeps that number; every other visitor is given a fresh one,
    made of the clock and a random draw, whatever ID number the form
    carries.  The QR code is the JSON text of an object holding that
    number, and the badge number is the letter B followed by the last
    digits of the clock; the record stored for the visit carries the same
    ID number. *)
Theorem checkInVisitor_ids (visitorData : obj) (isReturningVisitor : bool)
    (w w' : World) (v : Visitor)
    (Hin : checkInVisitor visitorData isReturningVisitor w = (Ok v, w')) :
  visitorIdNumber v
  = match returning_id visitorData isReturningVisitor with
    | Some given => given
    | None => VStr (fresh_visitorIdNumber w)
    end
  /\ (exists ts, (ts = now w \/ ts = time_at 1 w)
        /\ qrCode v = VStr (JSON_stringify (qr_object (visitorIdNumber v) ts)))
  /\ (exists t, (t = time_at 1 w \/ t = time_at 2 w)
        /\ badgeNumber v = VStr ("B" +:+ slice_last 6 (pretty t)))
  /\ exists data,
       visitors w' !! id v = Some data
       /\ obj_get "visitorIdNumber" data = Some (to_firestore (visitorIdNumber v)).
Proof.
  destruct (checkInVisitor_Ok_fields _ _ _ _ _ Hin)
    as (vid & qr & badge & w1 & p & Hids & _ & Hv & Hv' & Hi & Hq & Hb).
  destruct (mapDocToVisitor_inv _ _ _ Hv)
    as (Hid & _ & _ & _ & _ & _ & _ & _ & _ & _ & _ & Hvi & Hvq & Hvb).
  rewrite Hi in Hvi. rewrite Hq, or_else_string in Hvq.
  rewrite Hb, or_else_string in Hvb.
  rewrite choose_ids_exact in Hids.
  assert (Hvid : visitorIdNumber v = vid
                 /\ vid = match returning_id visitorData isReturningVisitor with
                          | Some given => given
                          | None => VStr (fresh_visitorIdNumber w)
                          end).
  { destruct (returning_id visitorData isReturningVisitor) as [given|] eqn:R;
      injection Hids as <- _ _ _.
    - apply returning_id_truthy in R as (_ & _ & T).
      now rewrite or_else_truthy in Hvi.
    - now rewrite or_else_truthy in Hvi. }
  destruct Hvid as [Hvid Hvid'].
  split; [now rewrite Hvid|].
  split; [|split].
  - rewrite Hvq, Hvid.
    destruct (returning_id visitorData isReturningVisitor);
      injection Hids as <- <- _ _; eauto.
  - rewrite Hvb.
    destruct (returning_id visitorData isReturningVisitor);
      injection Hids as _ _ <- _; eauto.
  - exists (to_firestore_obj p). rewrite Hv', Hid, lookup_insert_eq.
    split; [reflexivity|]. now rewrite obj_get_to_firestore, Hi, Hvid.
Qed.
End CheckInIds.

(** Ann's first visit, on the morning of 1 May 2024. *)
Lemma checkInVisitor_ids_witness :
  exists v w',
    checkInVisitor ann false morning = (Ok v, w')
    /\ visitorIdNumber v = VStr "VID-1714550400000-K3J9ZQ"
    /\ badgeNumber v = VStr "B400000".
Proof.
  destruct (checkInVisitor ann false morning) as [[v|e] w'] eqn:Hrun;
    [|vm_compute in Hrun; discriminate].
  destruct (checkInVisitor_ids ann false morning w' v Hrun)
    as (Hid & _ & _ & _).
  exists v, w'. split; [reflexivity|]. split; [exact Hid|].
  vm_compute in Hrun. now injection Hrun as <- _.
Defined.

Section Finding.
Context `{RT : Runtime}.

Lemma satisfies_eq_VStr f s data :
  satisfies (where_ f OpEq (VStr s)) data = true
  <-> obj_get f data = Some (VStr s).
Proof.
  simpl. destruct (obj_get f data) as [x|].
  - rewrite value_eqb_VStr. split; [now intros ->|now intros [= ->]].
  - split; discriminate.
Qed.

Lemma findVisitorByIdNumber_run i w :
  findVisitorByIdNumber i w
  = (match next_fault w with
     | Some _ => Ok None
     | None =>
         match run_query [where_ "visitorIdNumber" OpEq i] (visitors w) with
         | [] => Ok None
         | d :: _ =>
             match convert d with
             | Ok v => Ok (Some v)
             | Throw _ => Ok None
             end
         end
     end, set_faults (tl (faults w)) w).
Proof.
  unfold findVisitorByIdNumber, findVisitorByIdNumber_try, try_catch.
  unfold mbind at 1, M_bind. rewrite getDocs_run.
  destruct (next_fault w); [reflexivity|].
  change (docs_of visitorsCollection w) with (visitors w).
  destruct (run_query _ _) as [|d ?]; [reflexivity|].
  unfold mbind, M_bind, lift. now destruct (convert d).
Qed.

Lemma findVisitorByQRCode_parsed qrCodeData vid ts w :
  JSON_parse qrCodeData = Some (qr_object vid ts) -> truthy vid = true ->
  findVisitorByQRCode qrCodeData w = findVisitorByIdNumber vid w.
Proof.
  intros Hp T. unfold findVisitorByQRCode, try_catch.
  unfold mbind at 1, M_bind. unfold mbind at 1, M_bind, lift.
  rewrite Hp. unfold mbind at 1, M_bind. simpl. rewrite T. simpl.
  now rewrite T.
Qed.

(** What [findVisitorByIdNumber] answers for an ID number that is a
    string, when the database answers and the records with that number
    can be converted. *)
Lemma findVisitorByIdNumber_answer s w :
  next_fault w = None ->
  (forall i d, visitors w !! i = Some d ->
     obj_get "visitorIdNumber" d = Some (VStr s) -> readable d) ->
  exists r,
    findVisitorByIdNumber (VStr s) w = (Ok r, set_faults (tl (faults w)) w)
    /\ match r with
       | Some v =>
           exists d, visitors w !! id v = Some d
             /\ obj_get "visitorIdNumber" d = Some (VStr s)
             /\ mapDocToVisitor (id v) d = Ok v
       | None =>
           forall i d, visitors w !! i = Some d ->
             obj_get "visitorIdNumber" d <> Some (VStr s)
       end.
Proof.
  intros Hf Hread. rewrite findVisitorByIdNumber_run, Hf.
  destruct (run_query _ _) as [|[i d] rest] eqn:Hq.
  - exists None. split; [reflexivity|]. intros i d Hd Hs.
    assert (Hin : (i, d) ∈ run_query [where_ "visitorIdNumber" OpEq (VStr s)]
                             (visitors w)).
    { apply elem_of_run_query. split; [exact Hd|]. simpl forallb.
      rewrite andb_true_r. now apply satisfies_eq_VStr. }
    rewrite Hq in Hin. now apply elem_of_nil in Hin.
  - assert (Hin : (i, d) ∈ run_query [where_ "visitorIdNumber" OpEq (VStr s)]
                             (visitors w)).
    { rewrite Hq. now left. }
    apply elem_of_run_query in Hin as [Hd Hs]. simpl in Hd.
    simpl forallb in Hs. rewrite andb_true_r in Hs.
    apply satisfies_eq_VStr in Hs. simpl in Hs.
    destruct (proj1 (mapDocToVisitor_Ok i d) (Hread i d Hd Hs)) as [v Hv].
    unfold convert; simpl. rewrite Hv. exists (Some v). split; [reflexivity|].
    destruct (mapDocToVisitor_inv _ _ _ Hv) as (-> & _). eauto.
Qed.

(** X5.  [findVisitorByIdNumber], asked for an ID number that is a string:
    when the database answers and the records carrying that number can be
    converted, it returns a visitor whose stored record carries the number
    (whatever the visitor's status), and returns [null] only when no
    record carries it. *)
Theorem findVisitorByIdNumber_spec (s : string) (w : World)
    (Hanswered : next_fault w = None)
    (Hreadable : forall i d, visitors w !! i = Some d ->
       obj_get "visitorIdNumber" d = Some (VStr s) -> readable d) :
  exists r w',
    findVisitorByIdNumber (VStr s) w = (Ok r, w')
    /\ visitors w' = visitors w
    /\ (forall v, r = Some v ->
          exists d, visitors w !! id v = Some d
            /\ obj_get "visitorIdNumber" d = Some (VStr s)
            /\ mapDocToVisitor (id v) d = Ok v)
    /\ (r = None <->
          forall i d, visitors w !! i = Some d ->
            obj_get "visitorIdNumber" d <> Some (VStr s)).
Proof.
  destruct (findVisitorByIdNumber_answer s w Hanswered Hreadable)
    as (r & Hrun & Hr).
  exists r. eexists. split; [exact Hrun|]. split; [reflexivity|].
  destruct r as [v|].
  - split; [now intros ? [= <-]|]. split; [discriminate|].
    intros Hno. destruct Hr as (d & Hd & Hs & _). now destruct (Hno _ _ Hd).
  - split; [discriminate|]. split; auto.
Qed.

(** X6.  The QR code made at check-in leads back to the visitor.  The code
    returned by [checkInVisitor] is the JSON text of an object whose [id]
    is the visitor's ID number; where the platform's JSON reader gives
    that object back, the database answers and the records with that ID
    number can be converted, [findVisitorByQRCode] on the code returns a
    visitor with the same ID number. *)
Theorem qrCode_finds_visitor (visitorData : obj) (isReturningVisitor : bool)
    (w w1 : World) (v : Visitor)
    (Hin : checkInVisitor visitorData isReturningVisitor w = (Ok v, w1))
    (Hstring : forall given,
       obj_get "visitorIdNumber" visitorData = Some given ->
       exists s, given = VStr s) :
  exists vid ts,
    (ts = now w \/ ts = time_at 1 w)
    /\ visitorIdNumber v = VStr vid
    /\ qrCode v = VStr (JSON_stringify (qr_object (VStr vid) ts))
    /\ (JSON_parse (JSON_stringify (qr_object (VStr vid) ts))
        = Some (qr_object (VStr vid) ts) ->
        next_fault w1 = None ->
        (forall i d, visitors w1 !! i = Some d ->
           obj_get "visitorIdNumber" d = Some (VStr vid) -> readable d) ->
        exists v' w2,
          findVisitorByQRCode (JSON_stringify (qr_object (VStr vid) ts)) w1
          = (Ok (Some v'), w2)
          /\ visitorIdNumber v' = VStr vid).
Proof.
  destruct (checkInVisitor_Ok_fields _ _ _ _ _ Hin)
    as (x & qr & badge & w0 & p & Hids & _ & Hv & Hv' & Hi & Hq & _).
  destruct (mapDocToVisitor_inv _ _ _ Hv)
    as (Hid & _ & _ & _ & _ & _ & _ & _ & _ & _ & _ & Hvi & Hvq & _).
  rewrite Hi in Hvi. rewrite Hq, or_else_string in Hvq.
  rewrite choose_ids_exact in Hids.
  assert (exists vid ts, (ts = now w \/ ts = time_at 1 w)
            /\ x = VStr vid /\ truthy (VStr vid) = true
            /\ qr = JSON_stringify (qr_object (VStr vid) ts))
    as (vid & ts & Hts & -> & T & ->).
  { destruct (returning_id visitorData isReturningVisitor) as [given|] eqn:R;
      injection Hids as <- <- _ _.
    - apply returning_id_truthy in R as (_ & Hg & T).
      destruct (Hstring _ Hg) as [s ->]. eauto 8.
    - eauto 8. }
  rewrite or_else_truthy in Hvi by exact T.
  exists vid, ts. split; [exact Hts|]. split; [exact Hvi|]. split; [exact Hvq|].
  intros Hparse Hf Hread.
  rewrite (findVisitorByQRCode_parsed _ _ _ _ Hparse T).
  destruct (findVisitorByIdNumber_answer vid w1 Hf Hread) as (r & Hrun & Hr).
  destruct r as [v'|].
  - exists v'. eexists. split; [exact Hrun|].
    destruct Hr as (d & _ & Hs & Hc).
    destruct (mapDocToVisitor_inv _ _ _ Hc)
      as (_ & _ & _ & _ & _ & _ & _ & _ & _ & _ & _ & -> & _).
    rewrite Hs. now apply or_else_truthy.
  - exfalso. apply (Hr (hd "" (auto_ids w)) (to_firestore_obj p)).
    + rewrite Hv'. apply lookup_insert_eq.
    + now rewrite obj_get_to_firestore, Hi.
Qed.
End Finding.

(** Ann, stored a second time under another status, is found by her ID
    number; nobody is found under a number that no record carries. *)
Lemma findVisitorByIdNumber_spec_witness :
  (exists v w', findVisitorByIdNumber (VStr "VID-1714550400000-K3J9ZQ")
                  evacuated_world = (Ok (Some v), w')
                /\ status v = VStr "emergency-evacuated")
  /\ exists w', findVisitorByIdNumber (VStr "VID-0") evacuated_world
                = (Ok None, w').
Proof.
  assert (Hread : forall s i d, visitors evacuated_world !! i = Some d ->
            obj_get "visitorIdNumber" d = Some (VStr s) -> readable d).
  { intros s i d Hd _. unfold evacuated_world, world_of in Hd. simpl in Hd.
    apply lookup_insert_Some in Hd as [[_ <-]|[_ Hd]];
      [apply visitor_doc_readable|].
    now rewrite lookup_empty in Hd. }
  split.
  - destruct (findVisitorByIdNumber_spec "VID-1714550400000-K3J9ZQ"
                evacuated_world eq_refl (Hread _)) as (r & w' & Hrun & _).
    rewrite Hrun. vm_compute in Hrun. injection Hrun as <- _. eauto.
  - destruct (findVisitorByIdNumber_spec "VID-0" evacuated_world eq_refl
                (Hread _)) as (r & w' & Hrun & _).
    rewrite Hrun. vm_compute in Hrun. injection Hrun as <- _. eauto.
Defined.

(** Ann checks in and her QR code is scanned. *)
Lemma qrCode_finds_visitor_witness :
  exists v w1 qr v' w2,
    checkInVisitor ann false morning = (Ok v, w1)
    /\ qrCode v = VStr qr
    /\ findVisitorByQRCode qr w1 = (Ok (Some v'), w2)
    /\ visitorIdNumber v' = visitorIdNumber v.
Proof.
  destruct (checkInVisitor ann false morning) as [[v|e] w1] eqn:Hrun;
    [|vm_compute in Hrun; discriminate].
  assert (Hstring : forall given, obj_get "visitorIdNumber" ann = Some given ->
            exists s, given = VStr s) by discriminate.
  destruct (qrCode_finds_visitor ann false morning w1 v Hrun Hstring)
    as (vid & ts & Hts & Hvid & Hqr & Hfind).
  assert (Hv : visitorIdNumber v = VStr "VID-1714550400000-K3J9ZQ"
               /\ next_fault w1 = None
               /\ visitors w1
                  = <[ "doc1" := to_firestore_obj (to_firestore_obj
                       (obj_assign
                          [("visitorIdNumber", VStr "VID-1714550400000-K3J9ZQ");
                           ("qrCode", VStr (json_object (qr_of "VID-1714550400000-K3J9ZQ" may_1_8am)));
                           ("badgeNumber", VStr "B400000");
                           ("checkInTime", Timestamp_fromMillis may_1_8am);
                           ("status", VStr "checked-in")] ann)) ]> ∅).
  { vm_compute in Hrun. injection Hrun as <- <-. repeat split. }
  destruct Hv as (Hv & Hf & Hdocs).
  rewrite Hvid in Hv. injection Hv as ->.
  assert (ts = may_1_8am) as -> by (destruct Hts as [-> | ->]; reflexivity).
  destruct Hfind as (v' & w2 & Hfound & Hsame); [reflexivity|exact Hf| |].
  - intros i d Hd _. rewrite Hdocs in Hd.
    apply lookup_insert_Some in Hd as [[_ <-]|[_ Hd]];
      [|now rewrite lookup_empty in Hd].
    split; [right; right; eexists; reflexivity|].
    split; [now left|]. intros hs Hhs. discriminate.
  - exists v, w1. do 3 eexists. split; [reflexivity|].
    split; [exact Hqr|]. split; [exact Hfound|]. now rewrite Hvid.
Defined.

Lemma map_throwing_convert_ids docs vs :
  map_throwing convert docs = Ok vs -> id <$> vs = docs.*1.
Proof.
  rewrite map_throwing_Ok. induction 1 as [|[i d] v docs vs Hv _ IH];
    [reflexivity|].
  unfold convert in Hv; simpl in Hv.
  destruct (mapDocToVisitor_inv _ _ _ Hv) as (Hid & _).
  rewrite !fmap_cons. simpl. now f_equal.
Qed.

Lemma next_fault_tl w w1 :
  faults w1 = tl (faults w) -> next_fault w1 = fault_at 1 w.
Proof.
  unfold next_fault, fault_at. intros ->.
  destruct (faults w) as [|f0 [|f1 fs]]; reflexivity.
Qed.

Section Everything.
Context `{RT : Runtime}.

Lemma getAllVisitors_run w :
  getAllVisitors w
  = (match next_fault w with
     | Some _ => Ok []
     | None =>
         match map_throwing convert (run_query [] (visitors w)) with
         | Ok vs => Ok vs
         | Throw _ => Ok []
         end
     end, set_faults (tl (faults w)) w).
Proof.
  unfold getAllVisitors, getAllVisitors_try, try_catch.
  unfold mbind at 1, M_bind. rewrite getDocs_run.
  destruct (next_fault w); [reflexivity|].
  unfold map_docs, lift.
  change (docs_of visitorsCollection w) with (visitors w).
  now destruct (map_throwing _ _).
Qed.

Lemma getAllAuditLogs_run w :
  getAllAuditLogs w
  = (match next_fault w with
     | Some _ => Ok []
     | None =>
         match map_throwing audit_entry (run_query [] (audit_logs w)) with
         | Ok logs => Ok logs
         | Throw _ => Ok []
         end
     end, set_faults (tl (faults w)) w).
Proof.
  unfold getAllAuditLogs, getAllAuditLogs_try, try_catch.
  unfold mbind at 1, M_bind. rewrite getDocs_run.
  destruct (next_fault w); [reflexivity|].
  unfold lift.
  change (docs_of auditCollection w) with (audit_logs w).
  now destruct (map_throwing _ _).
Qed.

Lemma getAllVisitors_answered w :
  next_fault w = None ->
  (forall i d, visitors w !! i = Some d -> readable d) ->
  exists l,
    getAllVisitors w = (Ok l, set_faults (tl (faults w)) w)
    /\ NoDup (id <$> l)
    /\ forall v, v ∈ l <->
         exists d, visitors w !! id v = Some d
           /\ mapDocToVisitor (id v) d = Ok v.
Proof.
  intros Hanswered Hread.
  destruct (convert_snapshot [] (visitors w)) as [vs Hvs].
  { intros [i d] Hd. apply elem_of_run_query in Hd as [Hd _]. eauto. }
  exists vs. rewrite getAllVisitors_run, Hanswered, Hvs.
  split; [reflexivity|]. split.
  - rewrite (map_throwing_convert_ids _ _ Hvs). apply NoDup_run_query.
  - intros v. rewrite (map_throwing_elem_of _ _ _ _ Hvs). split.
    + intros ([i d] & Hd & Hc). unfold convert in Hc; simpl in Hc.
      destruct (mapDocToVisitor_inv _ _ _ Hc) as (<- & _).
      apply elem_of_run_query in Hd as [Hd _]. eauto.
    + intros (d & Hd & Hc). exists (id v, d). split; [|exact Hc].
      apply elem_of_run_query. split; [exact Hd|reflexivity].
Qed.

(** X7.  [getAllVisitors] is all or nothing.  When the database answers
    and every record can be converted, it returns one visitor for each
    record of the collection and no other; when a single record cannot be
    converted, it returns the empty list. *)
Theorem getAllVisitors_all_or_nothing (w : World)
    (Hanswered : next_fault w = None) :
  ((forall i d, visitors w !! i = Some d -> readable d) ->
   exists l w',
     getAllVisitors w = (Ok l, w')
     /\ NoDup (id <$> l)
     /\ forall v, v ∈ l <->
          exists d, visitors w !! id v = Some d
            /\ mapDocToVisitor (id v) d = Ok v)
  /\ (forall i d, visitors w !! i = Some d -> ~ readable d ->
        exists w', getAllVisitors w = (Ok [], w')).
Proof.
  split.
  - intros Hread.
    destruct (getAllVisitors_answered w Hanswered Hread) as (l & H).
    eauto.
  - intros i d Hd Hbad. eexists. rewrite getAllVisitors_run, Hanswered.
    destruct (map_throwing convert (run_query [] (visitors w)))
      as [vs|e] eqn:Hvs; [|reflexivity].
    exfalso. apply Hbad.
    apply map_throwing_Ok in Hvs.
    assert (Hin : (i, d) ∈ run_query [] (visitors w)).
    { apply elem_of_run_query. split; [exact Hd|reflexivity]. }
    apply list_elem_of_lookup in Hin as [k Hk].
    destruct (Forall2_lookup_l _ _ _ _ _ Hvs Hk) as (v & _ & Hv).
    apply (mapDocToVisitor_Ok i). eauto.
Qed.

(** X8.  What is written to the audit log can be read back.  After a
    [logAudit] whose details are all defined and whose write the database
    accepts, [getAllAuditLogs] (the database answering, and the timestamps
    of the older records being timestamps) lists the new record: its
    document id as [id], the time of the call as a [Date], the action,
    the user, the visitor and the details. *)
Theorem logAudit_read_back (action userId visitorId : string)
    (details : list (string * option value)) (o : obj) (w : World)
    (Hdefined : defined_props details = Ok o)
    (Hwritten : next_fault w = None)
    (Hanswered : fault_at 1 w = None)
    (Hstamps : forall j d, audit_logs w !! j = Some d ->
       time_field (obj_get "timestamp" d)) :
  exists w1 l w2,
    logAudit action userId visitorId details w = (Ok tt, w1)
    /\ getAllAuditLogs w1 = (Ok l, w2)
    /\ [("id", VStr (hd "" (auto_ids w))); ("timestamp", VDate (now w));
        ("action", VStr action); ("userId", VStr userId);
        ("visitorId", VStr visitorId);
        ("details", VMap (to_firestore_obj o))] ∈ l.
Proof.
  set (i := hd "" (auto_ids w)).
  set (logs := <[i := audit_record (now w) action userId visitorId o]>
                 (audit_logs w)).
  destruct (map_throwing_total audit_entry (run_query [] logs)) as [l Hl].
  { apply Forall_forall. intros [j d] Hd.
    apply elem_of_run_query in Hd as [Hd _]. simpl in Hd.
    assert (Ht : time_field (obj_get "timestamp" d)).
    { unfold logs in Hd. apply lookup_insert_Some in Hd as [[_ <-]|[_ Hd]].
      - right; right. eexists. reflexivity.
      - eauto. }
    apply toDate_or_null_Ok in Ht as [t Ht].
    unfold audit_entry. simpl. rewrite Ht. eauto. }
  rewrite logAudit_exact, Hdefined, Hwritten. cbv zeta.
  eexists. exists l. eexists. split; [reflexivity|].
  rewrite getAllAuditLogs_run.
  rewrite (next_fault_tl w) by reflexivity. rewrite Hanswered.
  match goal with
  | |- context [run_query [] ?m] => change m with logs
  end.
  rewrite Hl. split; [reflexivity|].
  apply (map_throwing_elem_of _ _ _ _ Hl).
  exists (i, audit_record (now w) action userId visitorId o). split.
  - apply elem_of_run_query. split; [|reflexivity].
    apply lookup_insert_eq.
  - unfold audit_entry, audit_record.
    cbn [obj_get snd fst String.eqb Ascii.eqb Bool.eqb].
    rewrite toDate_fromMillis. reflexivity.
Qed.
End Everything.

(** One record whose check-out time is a text, and [getAllVisitors] is
    empty. *)
Lemma getAllVisitors_all_or_nothing_witness :
  exists w', getAllVisitors garbled_world = (Ok [], w').
Proof.
  destruct (getAllVisitors_all_or_nothing garbled_world eq_refl) as [_ Hbad].
  apply (Hbad "g" [("fullName", VStr "Gus Poe"); ("status", VStr "checked-in");
                   ("checkInTime", Timestamp_fromMillis (may_1_8am - 60000));
                   ("checkOutTime", VStr "09:15")]); [reflexivity|].
  intros (_ & [H|[H|[ms H]]] & _); discriminate.
Defined.

(** The record of Ann's check-out, read back. *)
Lemma logAudit_read_back_witness :
  exists w1 l w2,
    logAudit "visitor_check_out" "system" "doc1"
      [("timestamp", Some (VStr "2024-05-01T08:00:00.000Z"))] desk_with_ids
    = (Ok tt, w1)
    /\ getAllAuditLogs w1 = (Ok l, w2)
    /\ [("id", VStr "log1"); ("timestamp", VDate may_1_8am);
        ("action", VStr "visitor_check_out"); ("userId", VStr "system");
        ("visitorId", VStr "doc1");
        ("details", VMap [("timestamp", VStr "2024-05-01T08:00:00.000Z")])] ∈ l.
Proof.
  apply (logAudit_read_back "visitor_check_out" "system" "doc1"
           [("timestamp", Some (VStr "2024-05-01T08:00:00.000Z"))]
           [("timestamp", VStr "2024-05-01T08:00:00.000Z")] desk_with_ids);
    try reflexivity.
  intros j d Hd. simpl in Hd. now rewrite lookup_empty in Hd.
Defined.

Section Listener.
Context `{RT : Runtime}.

Lemma subscription_snapshot_converts w :
  active_readable (visitors w) ->
  exists vs,
    map_throwing convert (run_query subscription_query (visitors w)) = Ok vs
    /\ NoDup (id <$> vs)
    /\ forall x, x ∈ vs <->
         exists data, visitors w !! id x = Some data
           /\ obj_get "status" data = Some (VStr "checked-in")
           /\ mapDocToVisitor (id x) data = Ok x.
Proof.
  intros Hread.
  destruct (convert_snapshot subscription_query (visitors w)) as [vs Hvs].
  { intros [i d] Hd. apply elem_of_run_query in Hd as [Hd Hs].
    simpl forallb in Hs. rewrite andb_true_r in Hs.
    apply satisfies_status_eq in Hs. eauto. }
  exists vs. split; [exact Hvs|]. split.
  - rewrite (map_throwing_convert_ids _ _ Hvs). apply NoDup_run_query.
  - intros x. rewrite (map_throwing_elem_of _ _ _ _ Hvs). split.
    + intros ([i d] & Hd & Hc). unfold convert in Hc; simpl in Hc.
      destruct (mapDocToVisitor_inv _ _ _ Hc) as (<- & _).
      apply elem_of_run_query in Hd as [Hd Hs].
      simpl forallb in Hs. rewrite andb_true_r in Hs.
      apply satisfies_status_eq in Hs. eauto.
    + intros (d & Hd & Hs & Hc). exists (id x, d). split; [|exact Hc].
      apply elem_of_run_query. split; [exact Hd|].
      simpl forallb. rewrite andb_true_r. now apply satisfies_status_eq.
Qed.

(** X9.  What the listener on the active visitors passes on.  For the
    snapshot of a collection whose records marked [checked-in] can be
    converted, the callback receives each of these records once, with or
    without a check-in time, newest first; the count shown by the
    application shell is their number.  For an error, the callback
    receives the empty list. *)
Theorem subscribeToActiveVisitors_delivers (w : World)
    (Hreadable : active_readable (visitors w)) :
  exists l,
    (forall A (callback : list Visitor -> M A) w0,
       subscribeToActiveVisitors callback (active_snapshot w) w0
       = callback l w0)
    /\ (forall w0, activeVisitorCount (active_snapshot w) w0
                   = (Ok (List.length l), w0))
    /\ newest_to_oldest l
    /\ NoDup (id <$> l)
    /\ (forall x, x ∈ l <->
          exists data, visitors w !! id x = Some data
            /\ obj_get "status" data = Some (VStr "checked-in")
            /\ mapDocToVisitor (id x) data = Ok x)
    /\ forall A (callback : list Visitor -> M A) e w0,
         subscribeToActiveVisitors callback (listen_error e) w0
         = callback [] w0.
Proof.
  destruct (subscription_snapshot_converts w Hreadable)
    as (vs & Hvs & Hnd & Hin).
  exists (js_sort newest_first vs).
  assert (Hrun : forall A (callback : list Visitor -> M A) w0,
             subscribeToActiveVisitors callback (active_snapshot w) w0
             = callback (js_sort newest_first vs) w0).
  { intros A callback w0. unfold subscribeToActiveVisitors, active_snapshot.
    unfold mbind, M_bind, map_docs, lift. now rewrite Hvs. }
  split; [exact Hrun|]. split; [|split; [|split; [|split]]].
  - intros w0. unfold activeVisitorCount. now rewrite Hrun.
  - apply js_sort_newest_first.
  - eapply NoDup_Permutation_proper; [|exact Hnd].
    apply fmap_Permutation. apply sort_by_Permutation.
  - intros x. rewrite elem_of_js_sort. apply Hin.
  - reflexivity.
Qed.
End Listener.

(** A record marked [checked-in] that has no check-in time is passed to
    the listener's callback, and counted. *)
Lemma subscribeToActiveVisitors_delivers_witness :
  exists l x,
    activeVisitorCount (active_snapshot undated_world) undated_world
    = (Ok (List.length l), undated_world)
    /\ x ∈ l /\ id x = "old" /\ checkInTime x = VNull.
Proof.
  assert (Hread : active_readable (visitors undated_world)).
  { intros i d Hd _. simpl in Hd.
    apply lookup_insert_Some in Hd as [[_ <-]|[_ Hd]];
      [|now rewrite lookup_empty in Hd].
    split; [now left|]. split; [now left|]. intros hs Hhs. discriminate. }
  destruct (subscribeToActiveVisitors_delivers undated_world Hread)
    as (l & _ & Hcount & _ & _ & Hin & _).
  destruct (mapDocToVisitor "old"
              [("fullName", VStr "Cy Orr"); ("status", VStr "checked-in")])
    as [x|e] eqn:Hx; [|discriminate].
  exists l, x. split; [apply Hcount|].
  injection Hx as <-. split; [|split; reflexivity].
  apply Hin. eexists. split; [reflexivity|]. split; reflexivity.
Defined.

Lemma testDatabaseConnection_exact error_message w :
  testDatabaseConnection error_message w
  = let i := hd "" (auto_ids w) in
    let w1 := set_faults (tl (faults w))
                (set_auto_ids (tl (auto_ids w)) (tick w)) in
    match next_fault w with
    | Some e => (Ok (false, error_message e), w1)
    | None =>
        let w2 := set_faults (tl (tl (faults w)))
                    (set_auto_ids (tl (auto_ids w)) (tick w)) in
        match fault_at 1 w with
        | Some e =>
            (Ok (false, error_message e),
             set_docs visitorsCollection
               (<[i := test_document true (now w)]> (visitors w)) w2)
        | None =>
            (Ok (true, "Database OK"),
             set_docs visitorsCollection
               (<[i := test_document false (now w)]> (visitors w)) w2)
        end
    end.
Proof.
  unfold testDatabaseConnection, try_catch.
  unfold mbind at 1, M_bind, Date_now.
  unfold mbind at 1, M_bind. rewrite addDoc_run. cbv zeta.
  change (next_fault (tick w)) with (next_fault w).
  destruct (next_fault w) as [e|] eqn:Hf; [reflexivity|].
  unfold mbind at 1, M_bind. rewrite updateDoc_run.
  match goal with
  | |- context [next_fault ?w0] =>
      rewrite (next_fault_tl w w0) by reflexivity
  end.
  destruct (fault_at 1 w) as [e|]; [reflexivity|].
  simpl. rewrite lookup_insert_eq. simpl. rewrite insert_insert_eq.
  reflexivity.
Qed.

(** X10.  The connection test never throws, reports success exactly when
    neither of its two requests is rejected, and is not without trace:
    unless its first request is rejected, it leaves a new document in the
    visitors collection, which it never removes.  The audit log is not
    touched. *)
Theorem testDatabaseConnection_leaves_document
    (error_message : error -> string) (w : World) :
  exists success message w',
    testDatabaseConnection error_message w = (Ok (success, message), w')
    /\ (success = true <-> next_fault w = None /\ fault_at 1 w = None)
    /\ audit_logs w' = audit_logs w
    /\ (next_fault w = None ->
        visitors w'
        = <[hd "" (auto_ids w) := test_document (negb success) (now w)]>
            (visitors w))
    /\ (forall e, next_fault w = Some e ->
          visitors w' = visitors w /\ message = error_message e).
Proof.
  rewrite testDatabaseConnection_exact. cbv zeta.
  destruct (next_fault w) as [e|].
  - do 3 eexists. split; [reflexivity|].
    split; [split; [discriminate|intros [? _]; discriminate]|].
    split; [reflexivity|]. split; [discriminate|].
    intros ? [= <-]. split; reflexivity.
  - destruct (fault_at 1 w) as [e|];
      (do 3 eexists; split; [reflexivity|]);
      (split; [split; [try discriminate; auto|intros [_ ?]; try discriminate; auto]|]);
      (split; [reflexivity|]); (split; [reflexivity|discriminate]).
Qed.

Section TestDocument.
Context `{RT : Runtime}.

(** X11.  The document left by a successful connection test is taken for
    a visitor: [getAllVisitors] (the database answering, the other records
    convertible) lists it as a visitor with no name, no check-in time and
    the status [checked-in]; [getActiveVisitors] does not list it. *)
Theorem connection_test_listed_as_visitor (error_message : error -> string)
    (w : World)
    (Hfirst : next_fault w = None) (Hsecond : fault_at 1 w = None)
    (Hthird : fault_at 2 w = None)
    (Hreadable : forall i d, visitors w !! i = Some d -> readable d) :
  exists w' l w2 v,
    testDatabaseConnection error_message w = (Ok (true, "Database OK"), w')
    /\ getAllVisitors w' = (Ok l, w2)
    /\ v ∈ l
    /\ id v = hd "" (auto_ids w)
    /\ fullName v = VStr ""
    /\ checkInTime v = VNull
    /\ status v = VStr "checked-in"
    /\ forall l' w3, getActiveVisitors w' = (Ok l', w3) ->
         forall x, x ∈ l' -> id x <> hd "" (auto_ids w).
Proof.
  rewrite testDatabaseConnection_exact, Hfirst, Hsecond. cbv zeta.
  set (i := hd "" (auto_ids w)).
  set (w' := set_docs visitorsCollection _ _).
  assert (Hdocs : visitors w' = <[i := test_document false (now w)]> (visitors w))
    by reflexivity.
  assert (Hf : next_fault w' = None).
  { unfold next_fault, fault_at in *. simpl.
    destruct (faults w) as [|f0 [|f1 [|f2 fs]]]; simpl in *; auto. }
  destruct (getAllVisitors_answered w' Hf) as (l & Hl & _ & Hin).
  { intros j d. rewrite Hdocs. intros Hd.
    apply lookup_insert_Some in Hd as [[_ <-]|[_ Hd]]; [|eauto].
    split; [now left|]. split; [now left|]. intros hs Hhs. discriminate. }
  destruct (mapDocToVisitor i (test_document false (now w))) as [v|e] eqn:Hv;
    [|discriminate].
  exists w', l. eexists. exists v. split; [reflexivity|]. split; [exact Hl|].
  injection Hv as <-.
  split; [|split; [reflexivity|split; [reflexivity|split; [reflexivity|split; [reflexivity|]]]]].
  - apply Hin. exists (test_document false (now w)).
    split; [apply lookup_insert_eq|reflexivity].
  - intros l' w3 Hact x Hx Hid.
    destruct (getActiveVisitors_listed _ _ _ _ Hact Hx) as (d & Hd & Hs & _).
    rewrite Hid, Hdocs, lookup_insert_eq in Hd. injection Hd as <-.
    discriminate.
Qed.
End TestDocument.

(** A connection test on an empty front desk, and the backup of the
    visitors that follows. *)
Lemma connection_test_listed_as_visitor_witness :
  exists w' l w2 v,
    testDatabaseConnection (fun _ => "unavailable") morning
    = (Ok (true, "Database OK"), w')
    /\ getAllVisitors w' = (Ok l, w2)
    /\ v ∈ l /\ id v = "doc1" /\ status v = VStr "checked-in".
Proof.
  destruct (connection_test_listed_as_visitor (fun _ => "unavailable")
              morning eq_refl eq_refl eq_refl)
    as (w' & l & w2 & v & Hrun & Hall & Hin & Hid & _ & _ & Hst & _).
  { intros i d Hd. simpl in Hd. now rewrite lookup_empty in Hd. }
  exists w', l, w2, v. auto.
Defined.

(** ** Badge numbers *)

Lemma string_app_cons x (a b : string) :
  String x a +:+ b = String x (a +:+ b).
Proof. reflexivity. Qed.

Lemma string_app_assoc (a b c : string) : (a +:+ b) +:+ c = a +:+ (b +:+ c).
Proof.
  induction a as [|x a IH]; [reflexivity|].
  now rewrite !string_app_cons, IH.
Qed.

Lemma string_app_length (a b : string) :
  String.length (a +:+ b) = (String.length a + String.length b)%nat.
Proof.
  induction a as [|x a IH]; [reflexivity|].
  rewrite string_app_cons. simpl. now rewrite IH.
Qed.

Lemma pretty_N_go_app x s : pretty_N_go x s = pretty_N_go x "" +:+ s.
Proof.
  revert s. induction (N.lt_wf_0 x) as [x _ IH]. intros s.
  destruct (decide (0 < x)%N) as [Hx|Hx].
  - rewrite !(pretty_N_go_step x) by exact Hx.
    assert (Hlt : (x / 10 < x)%N) by (now apply N.div_lt).
    rewrite (IH _ Hlt (String _ s)), (IH _ Hlt (String _ "")).
    now rewrite string_app_assoc.
  - assert (x = 0%N) as -> by lia. now rewrite !pretty_N_go_0.
Qed.

Lemma substring_append_end p s :
  substring (String.length p) (String.length s) (p +:+ s) = s.
Proof.
  induction p as [|c p IH]; [|rewrite string_app_cons; exact IH].
  change ("" +:+ s) with s.
  induction s as [|c s IH]; simpl; [reflexivity|]. f_equal. exact IH.
Qed.

Lemma slice_last_append p s n :
  String.length s = n -> slice_last n (p +:+ s) = s.
Proof.
  intros <-. unfold slice_last. rewrite string_app_length.
  replace (String.length p + String.length s - String.length s)%nat
    with (String.length p) by lia.
  apply substring_append_end.
Qed.

Ltac div_lia := zify; Z.to_euclidean_division_equations; lia.

(** The decimal text of a number of six digits or more ends in its last
    six digits. *)
Lemma pretty_six_digits (x : N) :
  (100000 <= x)%N ->
  pretty x = pretty_N_go (x / 1000000) "" +:+ six_digits (x mod 1000000).
Proof.
  intros Hx. unfold pretty, pretty_N.
  destruct (decide (x = 0%N)) as [->|_]; [lia|].
  rewrite (pretty_N_go_step x) by lia.
  rewrite (pretty_N_go_step (x / 10)%N) by div_lia.
  rewrite (pretty_N_go_step ((x / 10) / 10)%N) by div_lia.
  rewrite (pretty_N_go_step (((x / 10) / 10) / 10)%N) by div_lia.
  rewrite (pretty_N_go_step ((((x / 10) / 10) / 10) / 10)%N) by div_lia.
  rewrite (pretty_N_go_step (((((x / 10) / 10) / 10) / 10) / 10)%N)
    by div_lia.
  rewrite pretty_N_go_app. unfold six_digits.
  f_equal; [f_equal; div_lia|].
  do 5 (f_equal; [f_equal; div_lia|]).
  do 2 f_equal. div_lia.
Qed.

Lemma slice_last_pretty (t : Z) :
  100000 <= t ->
  slice_last 6 (pretty t) = six_digits (Z.to_N (t mod 1000000)).
Proof.
  intros Ht. destruct t as [|p|p]; try lia.
  change (pretty (Z.pos p)) with (pretty (N.pos p)).
  rewrite pretty_six_digits by lia.
  rewrite slice_last_append by reflexivity.
  f_equal. div_lia.
Qed.

(** X12.  Once the clock shows six digits or more (from 100 seconds after
    the epoch on), the badge number is the letter B followed by the last
    six digits of the clock's milliseconds.  Badge numbers therefore repeat: two badges
    made a multiple of 1,000,000 ms apart (16 min 40 s) are the same. *)
Theorem generateBadgeNumber_repeats :
  (forall w, 100000 <= now w ->
     generateBadgeNumber w
     = (Ok ("B" +:+ six_digits (Z.to_N (now w mod 1000000))), tick w))
  /\ (forall w1 w2 k, 100000 <= now w1 -> 0 <= k ->
        now w2 = now w1 + 1000000 * k ->
        (generateBadgeNumber w1).1 = (generateBadgeNumber w2).1).
Proof.
  assert (H : forall w, 100000 <= now w ->
     generateBadgeNumber w
     = (Ok ("B" +:+ six_digits (Z.to_N (now w mod 1000000))), tick w)).
  { intros w Hw. unfold generateBadgeNumber, mbind, M_bind, Date_now.
    simpl. now rewrite slice_last_pretty. }
  split; [exact H|].
  intros w1 w2 k H1 Hk H2. rewrite !H by lia. simpl. do 3 f_equal.
  rewrite H2. f_equal. div_lia.
Qed.

(** The badge of 08:00:00 is given again at 08:16:40. *)
Lemma generateBadgeNumber_repeats_witness :
  (generateBadgeNumber morning).1
  = (generateBadgeNumber (world_of (may_1_8am + 1000000) [])).1
  /\ (generateBadgeNumber morning).1 = Ok "B400000".
Proof.
  destruct generateBadgeNumber_repeats as [_ H].
  split; [|reflexivity].
  apply (H morning (world_of (may_1_8am + 1000000) []) 1);
    [unfold morning, may_1_8am; simpl; lia|lia|reflexivity].
Defined.

Section AfterEvacuation.
Context `{RT : Runtime}.

(** X13.  After an evacuation that returned normally, none of the
    evacuated visitors is on the list of active visitors. *)
Theorem emergencyEvacuation_clears_active (visitorIds : list string)
    (w w' : World)
    (Hdone : emergencyEvacuation visitorIds w = (Ok tt, w')) :
  (forall i, i ∈ visitorIds ->
     exists data, visitors w' !! i = Some data
       /\ obj_get "status" data = Some (VStr "emergency-evacuated"))
  /\ forall l w'', getActiveVisitors w' = (Ok l, w'') ->
       forall v, v ∈ l -> id v ∉ visitorIds.
Proof.
  unfold emergencyEvacuation in Hdone.
  apply bind_Ok in Hdone as (rs & w1 & Hrs & Hdone).
  apply bind_Ok in Hdone as (oks & w2 & Hall & Hdone).
  unfold lift in Hall. injection Hall as Hall <-.
  injection Hdone as <-.
  destruct (evacuate_all visitorIds w rs w1 Hrs)
    as (_ & _ & _ & _ & _ & Hout & Hwritten).
  assert (Hev : forall i, i ∈ visitorIds ->
            exists data, visitors w1 !! i = Some data
              /\ obj_get "status" data = Some (VStr "emergency-evacuated")).
  { intros i Hi. apply list_elem_of_lookup in Hi as [k Hk].
    destruct (proj1 (Promise_all_Ok rs) (ex_intro _ oks Hall) k _ (Hout k i Hk))
      as [[] Hok].
    destruct (Hwritten k i Hk Hok) as (data' & k' & Hd & _ & Hs & _). eauto. }
  split; [exact Hev|].
  intros l w'' Hact v Hv Hin.
  destruct (getActiveVisitors_listed _ _ _ _ Hact Hv) as (d & Hd & Hs & _).
  destruct (Hev _ Hin) as (d' & Hd' & Hs').
  rewrite Hd in Hd'. injection Hd' as <-. rewrite Hs in Hs'. discriminate.
Qed.
End AfterEvacuation.

(** The two visitors inside are evacuated, and neither is on the active
    list afterwards. *)
Lemma emergencyEvacuation_clears_active_witness :
  exists w',
    emergencyEvacuation ["a"; "b"] two_inside = (Ok tt, w')
    /\ forall l w'', getActiveVisitors w' = (Ok l, w'') ->
         forall v, v ∈ l -> id v ∉ ["a"; "b"].
Proof.
  destruct (emergencyEvacuation ["a"; "b"] two_inside) as [[[]|e] w'] eqn:Hrun;
    [|vm_compute in Hrun; discriminate].
  exists w'. split; [reflexivity|].
  apply (emergencyEvacuation_clears_active _ _ _ Hrun).
Defined.

(** ** Newest first *)

Section SortedOn.
Context {A : Type} (P : A -> Prop) (R : A -> A -> Prop)
        (before : A -> A -> bool).
Hypothesis before_R : forall a b, P a -> P b -> before a b = true -> R a b.
Hypothesis not_before_R : forall a b, P a -> P b -> before a b = false -> R b a.
Hypothesis R_trans : forall a b c, R a b -> R b c -> R a c.

Lemma insert_by_sorted_on x l :
  P x -> Forall P l -> StronglySorted R l ->
  StronglySorted R (insert_by before x l).
Proof.
  intros Hx Hl Hs. induction Hs as [|y l Hs IH Hy]; simpl.
  - repeat constructor.
  - apply Forall_cons in Hl as [Py Hl].
    destruct (before x y) eqn:E.
    + constructor; [now constructor|].
      constructor; [now apply before_R|].
      eapply Forall_impl; [exact Hy|]. intros z Hz.
      apply (R_trans _ y); [now apply before_R|exact Hz].
    + constructor; [now apply IH|].
      apply Forall_forall. intros z Hz.
      rewrite (insert_by_Permutation before x l) in Hz.
      apply elem_of_cons in Hz as [->|Hz].
      * now apply not_before_R.
      * rewrite Forall_forall in Hy. now apply Hy.
Qed.

Lemma sort_by_sorted_on l :
  Forall P l -> StronglySorted R (sort_by before l).
Proof.
  induction 1 as [|x l Hx Hl IH]; [constructor|].
  apply insert_by_sorted_on; [exact Hx| |exact IH].
  apply Forall_forall. intros z Hz. apply elem_of_sort_by in Hz.
  rewrite Forall_forall in Hl. now apply Hl.
Qed.
End SortedOn.

Lemma StronglySorted_map {A B} (f : A -> B) (R : B -> B -> Prop) l :
  StronglySorted (fun a b => R (f a) (f b)) l -> StronglySorted R (map f l).
Proof.
  induction 1 as [|x l _ IH Hx]; simpl; constructor; [exact IH|].
  apply Forall_forall. intros y Hy. apply list_elem_of_In in Hy.
  apply List.in_map_iff in Hy as (z & <- & Hz).
  rewrite Forall_forall in Hx. apply Hx. now apply list_elem_of_In.
Qed.

Section RangeOrder.
Context `{RT : Runtime}.

(** The snapshot of the ranged query, converted: newest first. *)
Lemma range_snapshot_sorted lo hi coll vs :
  map_throwing convert (run_query (range_query lo hi) coll) = Ok vs ->
  newest_to_oldest vs.
Proof.
  intros Hvs.
  assert (Hkey : forall d : snapshot_doc,
            d ∈ matched (range_query lo hi) coll ->
            exists t, obj_get "checkInTime" d.2 = Some (VTimestamp t)
              /\ getTime_or_0 (checkInTime (convert_or_none d)) = t ÷ 1000).
  { intros d Hd.
    assert (Hq : d ∈ run_query (range_query lo hi) coll)
      by now apply elem_of_sort_by.
    pose proof Hq as Hsat. apply elem_of_run_query in Hsat as [_ Hsat].
    simpl forallb in Hsat. apply andb_prop in Hsat as [Hge _].
    apply satisfies_ge_Timestamp in Hge as (t & Ht).
    apply list_elem_of_lookup in Hq as [k Hk].
    apply map_throwing_Ok in Hvs.
    destruct (Forall2_lookup_l _ _ _ _ _ Hvs Hk) as (v & _ & Hv).
    unfold convert_or_none. rewrite Hv. unfold convert in Hv.
    destruct (mapDocToVisitor_inv _ _ _ Hv) as (_ & Hin & _).
    destruct Ht as [[Ht _]|[Ht _]]; rewrite Ht in Hin; [|discriminate].
    injection Hin as <-. eauto. }
  rewrite (map_throwing_convert _ _ Hvs).
  apply StronglySorted_map.
  apply (sort_by_sorted_on
           (fun d : snapshot_doc =>
              d ∈ matched (range_query lo hi) coll)).
  - intros a b Ha Hb.
    destruct (Hkey a Ha) as (ta & Hta & ->).
    destruct (Hkey b Hb) as (tb & Htb & ->).
    simpl. rewrite Hta, Htb. simpl.
    pose proof (quot_1000_mono ta tb). pose proof (quot_1000_mono tb ta).
    destruct (Z.compare_spec ta tb); [lia|discriminate|lia].
  - intros a b Ha Hb.
    destruct (Hkey a Ha) as (ta & Hta & ->).
    destruct (Hkey b Hb) as (tb & Htb & ->).
    simpl. rewrite Hta, Htb. simpl.
    pose proof (quot_1000_mono ta tb). pose proof (quot_1000_mono tb ta).
    destruct (Z.compare_spec ta tb); [lia|lia|discriminate].
  - intros a b c. lia.
  - apply Forall_forall. auto.
Qed.

(** X14.  Whichever way [getVisitorsByDateRange] gets its list, from the
    ordered query or from the fallback that sorts it itself, the list is
    ordered by check-in time, newest first. *)
Theorem getVisitorsByDateRange_newest_first (startDate endDate : Z)
    (w w' : World) (l : list Visitor)
    (Hrun : getVisitorsByDateRange startDate endDate w = (Ok l, w')) :
  newest_to_oldest l.
Proof.
  assert (Hfb : forall w0 w1,
            getVisitorsByDateRange_fallback startDate endDate w0 = (Ok l, w1) ->
            newest_to_oldest l).
  { intros w0 w1 H. rewrite getVisitorsByDateRange_fallback_run in H.
    destruct (next_fault w0); [discriminate|].
    destruct (map_throwing convert _) as [vs|]; [|discriminate].
    injection H as <- _. apply js_sort_newest_first. }
  unfold getVisitorsByDateRange, try_catch in Hrun.
  rewrite getVisitorsByDateRange_try_run in Hrun.
  destruct (next_fault w) as [e|]; [eauto|].
  destruct (map_throwing convert (run_query (range_query _ _) _))
    as [vs|e] eqn:Hvs; [|eauto].
  injection Hrun as <- _. eapply range_snapshot_sorted, Hvs.
Qed.

(** X15.  Without the index, [getTodayVisitors] does what its name says:
    when the ordered query is refused for want of an index, the next
    request is answered and the records can be converted, the list holds
    exactly the visitors whose check-in time is not before the start of
    the day on the clock, newest first. *)
Theorem getTodayVisitors_without_index (w : World) (e : error)
    (Hreadable : forall i data, visitors w !! i = Some data -> readable data)
    (Hrefused : next_fault w = Some e)
    (Hindex : index_missing e = true)
    (Hanswered : fault_at 1 w = None) :
  exists l w',
    getTodayVisitors w = (Ok l, w')
    /\ newest_to_oldest l
    /\ forall x, x ∈ l <->
         exists data t, visitors w !! id x = Some data
           /\ mapDocToVisitor (id x) data = Ok x
           /\ checkInTime x = VDate t
           /\ startOfDay (time_at 2 w) <= t.
Proof.
  destruct (convert_snapshot [] (visitors w)) as [vs Hvs].
  { intros [i d] Hd. apply elem_of_run_query in Hd as [Hd _]. eauto. }
  eexists. eexists. split; [|split].
  - unfold getTodayVisitors, try_catch.
    rewrite getTodayVisitors_try_run, Hrefused, Hindex,
      getTodayVisitors_fallback_run.
    rewrite (next_fault_tl w) by reflexivity. rewrite Hanswered.
    change (visitors (set_faults (tl (faults w)) (tick (tick w))))
      with (visitors w).
    rewrite Hvs. reflexivity.
  - apply js_sort_newest_first.
  - intros x.
    rewrite elem_of_js_sort, list_elem_of_In, List.filter_In, <- list_elem_of_In.
    rewrite (map_throwing_elem_of _ _ _ _ Hvs), checkInTime_since_spec.
    change (now (set_faults (tl (faults w)) (tick (tick w))))
      with (time_at 2 w).
    split.
    + intros (([i data] & Hd & Hconv) & t & Ht & Hsince).
      unfold convert in Hconv; simpl in Hconv.
      destruct (mapDocToVisitor_inv _ _ _ Hconv) as (<- & _).
      apply elem_of_run_query in Hd as [Hlook _]. eauto 8.
    + intros (data & t & Hlook & Hconv & Ht & Hsince). split; [|eauto].
      exists (id x, data). split; [|exact Hconv].
      apply elem_of_run_query. split; [exact Hlook|reflexivity].
Qed.
End RangeOrder.

(** The visits of 1 May, of the three on record: the later one first. *)
Lemma getVisitorsByDateRange_newest_first_witness :
  exists l w',
    getVisitorsByDateRange may_1_8am may_1_8am three_days = (Ok l, w')
    /\ id <$> l = ["c"; "b"] /\ newest_to_oldest l.
Proof.
  destruct (getVisitorsByDateRange may_1_8am may_1_8am three_days)
    as [[l|e] w'] eqn:Hrun; [|vm_compute in Hrun; discriminate].
  exists l, w'. split; [reflexivity|].
  split; [|exact (getVisitorsByDateRange_newest_first _ _ _ _ _ Hrun)].
  vm_compute in Hrun. now injection Hrun as <- _.
Defined.

(** On 3 May, without the index, none of the visits of 30 April and 1 May
    is a visit of today. *)
Lemma getTodayVisitors_without_index_witness :
  exists w', getTodayVisitors (without_index three_days) = (Ok [], w').
Proof.
  destruct (getTodayVisitors_without_index (without_index three_days)
              (FirebaseError "failed-precondition"))
    as (l & w' & Hrun & _ & Hin); try reflexivity.
  { intros i d Hd. simpl in Hd.
    repeat (apply lookup_insert_Some in Hd as [[_ <-]|[_ Hd]];
            [apply visitor_doc_readable|]).
    now rewrite lookup_empty in Hd. }
  exists w'. rewrite Hrun. vm_compute in Hrun. now injection Hrun as <- _.
Defined.

(** ** The front-desk dashboard *)

#[local] Set Warnings "-clear-no-such-hyp".

(** X16.  Ticking a visitor's box twice leaves the selection as it was;
    one tick changes the selection at that visitor only. *)
Theorem toggleVisitor_involutive (i : string) (selectedIds : gset string) :
  toggleVisitor i (toggleVisitor i selectedIds) = selectedIds
  /\ (i ∈ toggleVisitor i selectedIds <-> i ∉ selectedIds)
  /\ forall j, j <> i ->
       (j ∈ toggleVisitor i selectedIds <-> j ∈ selectedIds).
Proof.
  unfold toggleVisitor.
  destruct (bool_decide (i ∈ selectedIds)) eqn:E.
  - apply bool_decide_eq_true in E.
    rewrite bool_decide_eq_false_2 by set_solver.
    split; [|split].
    + apply set_eq. intros j. destruct (decide (j = i)); set_solver.
    + set_solver.
    + intros j Hj. set_solver.
  - apply bool_decide_eq_false in E.
    rewrite bool_decide_eq_true_2 by set_solver.
    split; [|split].
    + apply set_eq. intros j. destruct (decide (j = i)); set_solver.
    + set_solver.
    + intros j Hj. set_solver.
Qed.

Lemma selectAll_effect_all view :
  view <> [] -> selectAll_effect view (list_to_set (id <$> view)) = true.
Proof.
  intros Hne. unfold selectAll_effect.
  destruct view as [|v view]; [congruence|]. simpl Nat.eqb. cbv iota.
  apply forallb_forall. intros x Hx. apply bool_decide_eq_true.
  apply elem_of_list_to_set, list_elem_of_fmap. exists x.
  split; [reflexivity|]. now apply list_elem_of_In.
Qed.

(** X17.  The select-all box and its handler agree.  While checked-in
    visitors are in view, a click on select-all flips the flag that the
    dashboard computes from the selection; and whatever was selected
    before, the selection after a click holds ids of checked-in visitors
    in view only. *)
Theorem toggleSelectAll_flips (displayedVisitors : list Visitor)
    (selectedIds : gset string)
    (Hview : checkInVisitorsInView displayedVisitors <> []) :
  let view := checkInVisitorsInView displayedVisitors in
  let selectAll := selectAll_effect view selectedIds in
  selectAll_effect view (toggleSelectAll selectAll view) = negb selectAll
  /\ forall i, i ∈ toggleSelectAll selectAll view ->
       exists v, v ∈ displayedVisitors /\ id v = i
         /\ status v = VStr "checked-in".
Proof.
  cbv zeta. set (view := checkInVisitorsInView displayedVisitors) in *.
  split.
  - unfold toggleSelectAll.
    destruct (selectAll_effect view selectedIds); simpl.
    + unfold selectAll_effect.
      destruct view as [|v view']; [congruence|]. simpl.
      rewrite bool_decide_eq_false_2 by set_solver. reflexivity.
    + now apply selectAll_effect_all.
  - intros i. unfold toggleSelectAll.
    destruct (selectAll_effect view selectedIds); [set_solver|].
    rewrite elem_of_list_to_set, list_elem_of_fmap.
    intros (v & -> & Hv). exists v.
    unfold view, checkInVisitorsInView in Hv.
    apply list_elem_of_In, List.filter_In in Hv as [Hv Hs].
    split; [now apply list_elem_of_In|]. split; [reflexivity|].
    unfold is_string in Hs. destruct (status v); try discriminate.
    now apply String.eqb_eq in Hs as ->.
Qed.

Lemma toggleSelectAll_flips_witness :
  exists vs,
    map_throwing convert (map_to_list (visitors ann_inside)) = Ok vs
    /\ selectAll_effect (checkInVisitorsInView vs)
         (toggleSelectAll (selectAll_effect (checkInVisitorsInView vs) ∅)
            (checkInVisitorsInView vs)) = true.
Proof.
  eexists. split; [vm_compute; reflexivity|].
  match goal with
  | |- selectAll_effect (checkInVisitorsInView ?vs) _ = _ =>
      destruct (toggleSelectAll_flips vs ∅) as [H _];
        [vm_compute; discriminate|]
  end.
  cbv zeta in H. rewrite H. reflexivity.
Defined.

Section SingleCheckOut.
Context `{RT : Runtime}.

Lemma checkOutVisitor_failed visitorId w e :
  write_outcome (next_fault w) (visitors w !! visitorId) = Throw e ->
  checkOutVisitor visitorId w = (Throw e, set_faults (tl (faults w)) (tick w)).
Proof.
  intros He. unfold checkOutVisitor, try_catch.
  unfold mbind at 1, M_bind, Date_now.
  unfold mbind at 1, M_bind. rewrite updateDoc_run.
  change (next_fault (tick w)) with (next_fault w).
  change (docs_of visitorsCollection (tick w)) with (visitors w).
  unfold write_outcome in He.
  destruct (next_fault w) as [e'|].
  - injection He as ->. reflexivity.
  - destruct (visitors w !! visitorId); [discriminate|].
    injection He as <-. reflexivity.
Qed.

Lemma checkOutVisitor_done visitorId w data :
  next_fault w = None -> visitors w !! visitorId = Some data ->
  exists w',
    checkOutVisitor visitorId w = (Ok tt, w')
    /\ alerts w' = alerts w
    /\ visitors w'
       = <[visitorId := obj_set "status" (VStr "checked-out")
                          (obj_set "checkOutTime" (Timestamp_fromMillis (now w)) data)]>
           (visitors w).
Proof.
  intros Hf Hd. rewrite (checkOutVisitor_exact _ _ _ Hf Hd), logAudit_exact.
  eexists. split; [reflexivity|]. simpl.
  match goal with
  | |- context [next_fault ?w0] => destruct (next_fault w0)
  end; split; reflexivity.
Qed.

Lemma handleSingleCheckOut_confirmed visitorId selectedIds w :
  handleSingleCheckOut true visitorId selectedIds w
  = match checkOutVisitor visitorId w with
    | (Ok _, w') => (Ok (selectedIds ∖ {[visitorId]}), w')
    | (Throw _, w') =>
        (Ok selectedIds,
         set_alerts (alerts w' ++ ["Checkout failed. Please try again."]) w')
    end.
Proof.
  unfold handleSingleCheckOut, try_catch, mbind, M_bind. simpl.
  destruct (checkOutVisitor visitorId w) as [[[]|e] w']; reflexivity.
Qed.

(** X18.  A single check-out from the dashboard never throws.  Declined,
    it does nothing.  Confirmed, it either checks the visitor out, drops
    the visitor from the selection and shows nothing, or, when the write
    is rejected or the record is missing, leaves records and selection as
    they were and shows the alert. *)
Theorem handleSingleCheckOut_outcome (confirmed : bool) (visitorId : string)
    (selectedIds : gset string) (w : World) :
  exists selected' w',
    handleSingleCheckOut confirmed visitorId selectedIds w = (Ok selected', w')
    /\ (confirmed = false -> selected' = selectedIds /\ w' = w)
    /\ (confirmed = true ->
        match write_outcome (next_fault w) (visitors w !! visitorId) with
        | Ok _ =>
            selected' = selectedIds ∖ {[visitorId]}
            /\ alerts w' = alerts w
            /\ exists data',
                 visitors w' !! visitorId = Some data'
                 /\ obj_get "status" data' = Some (VStr "checked-out")
        | Throw _ =>
            selected' = selectedIds
            /\ visitors w' = visitors w
            /\ alerts w' = (alerts w ++ ["Checkout failed. Please try again."])%list
        end).
Proof.
  destruct confirmed.
  - rewrite handleSingleCheckOut_confirmed.
    destruct (write_outcome (next_fault w) (visitors w !! visitorId))
      as [[]|e] eqn:Hout.
    + unfold write_outcome in Hout.
      destruct (next_fault w) eqn:Hf; [discriminate|].
      destruct (visitors w !! visitorId) as [data|] eqn:Hd; [|discriminate].
      destruct (checkOutVisitor_done visitorId w data Hf Hd)
        as (w' & -> & Ha & Hv).
      do 2 eexists. split; [reflexivity|]. split; [discriminate|].
      intros _. split; [reflexivity|]. split; [exact Ha|].
      rewrite Hv, lookup_insert_eq. eexists. split; [reflexivity|].
      apply obj_get_set_eq.
    + rewrite (checkOutVisitor_failed _ _ _ Hout).
      do 2 eexists. split; [reflexivity|]. split; [discriminate|].
      intros _. repeat split.
  - do 2 eexists. split; [reflexivity|]. split; [auto|discriminate].
Qed.
End SingleCheckOut.

(** ** The pages of the application shell *)

(** X19.  After sign-in every user lands on a page that is shown to them:
    the default path of a user is a path of the route table, and what is
    rendered there for that user is the page, not a redirection. *)
Theorem default_path_is_open (user : User) :
  Routes (Some user) (getDefaultPathForUser user) = Some children.
Proof.
  destruct user as [mail r]. unfold getDefaultPathForUser. simpl role.
  destruct (String.eqb_spec r "super-admin") as [->|_]; [reflexivity|].
  destruct (String.eqb_spec r "admin") as [->|_]; [reflexivity|].
  destruct (String.eqb_spec r "hierarchy-person") as [->|_]; [reflexivity|].
  destruct (String.eqb_spec r "front-desk") as [->|_]; reflexivity.
Qed.

(** X20.  Who is shown which page.  Nobody who is not signed in is shown a
    protected page, and a signed-in user is shown a protected page only
    with the role of that page or as super-admin. *)
Theorem Routes_access (currentUser : option User) (path : string)
    (Hshown : Routes currentUser path = Some children) :
  path ∈ ["/"; "/login"; "/signup"]
  \/ exists user, currentUser = Some user
       /\ (role user = "super-admin"
           \/ (path, role user) ∈ [("/admin", "admin");
                                    ("/front-desk", "front-desk");
                                    ("/hierarchy", "hierarchy-person")]).
Proof.
  unfold Routes in Hshown.
  destruct (String.eqb_spec path "/") as [E|_];
    [left; rewrite E; repeat constructor|].
  destruct (String.eqb_spec path "/login") as [E|_];
    [left; rewrite E; repeat constructor|].
  destruct (String.eqb_spec path "/signup") as [E|_];
    [left; rewrite E; repeat constructor|].
  right.
  destruct currentUser as [[mail r]|];
    [|repeat (destruct (String.eqb _ _); [discriminate|]); discriminate].
  eexists. split; [reflexivity|]. simpl role.
  unfold ProtectedRoute in Hshown. simpl role in Hshown.
  destruct (String.eqb_spec r "super-admin") as [E|_]; [now left|].
  right.
  destruct (String.eqb_spec path "/admin") as [E|_].
  { destruct (String.eqb_spec r "admin") as [->|_];
      [rewrite E; repeat constructor|simpl in Hshown; discriminate]. }
  destruct (String.eqb_spec path "/front-desk") as [E|_].
  { destruct (String.eqb_spec r "front-desk") as [->|_];
      [rewrite E; repeat constructor|simpl in Hshown; discriminate]. }
  destruct (String.eqb_spec path "/hierarchy") as [E|_]; [|discriminate].
  destruct (String.eqb_spec r "hierarchy-person") as [->|_];
    [rewrite E; repeat constructor|simpl in Hshown; discriminate].
Qed.

Lemma Routes_access_witness :
  "/front-desk" ∈ ["/"; "/login"; "/signup"]
  \/ exists user, Some (mkUser "desk@example.org" "front-desk") = Some user
       /\ (role user = "super-admin"
           \/ ("/front-desk", role user) ∈ [("/admin", "admin");
                                             ("/front-desk", "front-desk");
                                             ("/hierarchy", "hierarchy-person")]).
Proof.
  apply (Routes_access (Some (mkUser "desk@example.org" "front-desk"))
           "/front-desk").
  reflexivity.
Defined.

(** ** The sheets of the backup *)

Section BackupSheets.
Context `{RT : Runtime}.
Variable toLocaleString : value -> string.

(** X21.  The data of a backup.  Between loading the spreadsheet library
    and writing the workbook, [createBackup] gets the data of its two
    sheets without ever failing and without changing a record: a
    collection that cannot be read gives an empty sheet, not an error.
    The sheet of the visitors has one row for each visitor that
    [getAllVisitors] returns, and the column [Purpose] of every row is
    empty, whatever purpose the records hold. *)
Theorem createBackup_sheets_total (w : World) :
  exists vs logs w1 w',
    getAllVisitors w = (Ok vs, w1)
    /\ getAllAuditLogs w1 = (Ok logs, w')
    /\ createBackup_sheets toLocaleString w
       = (Ok (visitorSheetData toLocaleString vs,
              auditSheetData toLocaleString logs), w')
    /\ visitors w' = visitors w /\ audit_logs w' = audit_logs w
    /\ List.length (visitorSheetData toLocaleString vs) = List.length vs
    /\ Forall (fun row => obj_get "Purpose" row = Some (VStr ""))
         (visitorSheetData toLocaleString vs)
    /\ (forall e, next_fault w = Some e -> vs = [])
    /\ (forall e, fault_at 1 w = Some e -> logs = []).
Proof.
  set (w1 := set_faults (tl (faults w)) w).
  set (w2 := set_faults (tl (faults w1)) w1).
  assert (exists l, getAllVisitors w = (Ok l, w1)
                    /\ forall e, next_fault w = Some e -> l = [])
    as (l & Hvs & Hf).
  { rewrite getAllVisitors_run. destruct (next_fault w).
    - eexists. split; [reflexivity|auto].
    - destruct (map_throwing convert _);
        (eexists; split; [reflexivity|discriminate]). }
  assert (exists l', getAllAuditLogs w1 = (Ok l', w2)
                     /\ forall e, fault_at 1 w = Some e -> l' = [])
    as (l' & Hlogs & Hf').
  { rewrite getAllAuditLogs_run. rewrite (next_fault_tl w) by reflexivity.
    destruct (fault_at 1 w).
    - eexists. split; [reflexivity|auto].
    - destruct (map_throwing audit_entry _);
        (eexists; split; [reflexivity|discriminate]). }
  exists l, l', w1, w2.
  split; [exact Hvs|]. split; [exact Hlogs|].
  split.
  { unfold createBackup_sheets.
    unfold mbind at 1, M_bind. rewrite Hvs.
    unfold mbind at 1, M_bind. now rewrite Hlogs. }
  split; [reflexivity|]. split; [reflexivity|].
  split; [apply length_map|].
  split; [|split; [exact Hf|exact Hf']].
  unfold visitorSheetData. apply Forall_forall. intros row Hrow.
  apply list_elem_of_In, List.in_map_iff in Hrow as (v & <- & _).
  reflexivity.
Qed.
End BackupSheets.

(** ** What a check-in returns is what is stored *)

Lemma to_firestore_obj_obj_set k v o :
  to_firestore_obj (obj_set k v o) = obj_set k (to_firestore v) (to_firestore_obj o).
Proof.
  induction o as [|[k' v'] o IH]; simpl; [reflexivity|].
  destruct (String.eqb k k'); simpl; [reflexivity|]. now rewrite IH.
Qed.

Lemma obj_set_obj_set k v v' o :
  obj_set k v (obj_set k v' o) = obj_set k v o.
Proof.
  induction o as [|[k' x] o IH]; simpl.
  - now rewrite String.eqb_refl.
  - destruct (String.eqb k k') eqn:E; simpl.
    + now rewrite String.eqb_refl.
    + now rewrite E, IH.
Qed.

Lemma to_firestore_obj_date_free o :
  Forall (fun kv : string * value => date_free kv.2) o -> to_firestore_obj o = o.
Proof.
  induction 1 as [|[k x] o Hx _ IH]; simpl; [reflexivity|].
  unfold date_free in Hx. simpl in Hx. now rewrite Hx, IH.
Qed.

Lemma obj_set_to_firestore_obj k v o :
  Forall (fun kv : string * value => date_free kv.2) (obj_set k VNull o) ->
  obj_set k v (to_firestore_obj o) = obj_set k v o.
Proof.
  intros H. apply to_firestore_obj_date_free in H.
  rewrite to_firestore_obj_obj_set in H.
  rewrite <- (obj_set_obj_set k v (to_firestore VNull) (to_firestore_obj o)).
  rewrite H. apply obj_set_obj_set.
Qed.

Lemma or_else_to_firestore x dflt :
  (forall v, x = Some v -> date_free v) ->
  or_else (to_firestore <$> x) dflt = or_else x dflt.
Proof.
  intros H. destruct x as [v|]; [|reflexivity]. simpl.
  now rewrite (H v eq_refl).
Qed.

Lemma toDate_or_null_to_firestore x d :
  toDate_or_null x = Ok d -> toDate_or_null (to_firestore <$> x) = Ok d.
Proof.
  intros H. destruct (toDate_or_null_shape _ _ H)
    as [[-> [-> | ->]] | (ms & -> & ->)]; reflexivity.
Qed.

(** A record that holds no date where the conversion copies a field is
    converted to the same visitor before and after it is stored. *)
Lemma mapDocToVisitor_stored docId p v :
  mapDocToVisitor docId p = Ok v ->
  (forall f x,
     f ∈ ["fullName"; "phoneNumber"; "photoURL"; "residentName"; "roomNumber";
          "purpose"; "visitorIdNumber"; "status"; "qrCode"; "badgeNumber"] ->
     obj_get f p = Some x -> date_free x) ->
  (forall hs sd, obj_get "healthScreening" p = Some hs -> truthy hs = true ->
     obj_set "screeningDate" sd (spread (to_firestore hs))
     = obj_set "screeningDate" sd (spread hs)) ->
  mapDocToVisitor docId (to_firestore_obj p) = Ok v.
Proof.
  intros Hv Hfree Hhs. unfold mapDocToVisitor in *.
  rewrite !obj_get_to_firestore.
  assert (Hor : forall f dflt,
            f ∈ ["fullName"; "phoneNumber"; "photoURL"; "residentName";
                 "roomNumber"; "purpose"; "visitorIdNumber"; "status";
                 "qrCode"; "badgeNumber"] ->
            or_else (to_firestore <$> obj_get f p) dflt
            = or_else (obj_get f p) dflt).
  { intros f dflt Hf. apply or_else_to_firestore. intros x Hx.
    exact (Hfree f x Hf Hx). }
  rewrite !Hor by repeat constructor.
  destruct (obj_get "healthScreening" p) as [hs|] eqn:Ehs; simpl fmap;
    cbv beta iota.
  - rewrite truthy_to_firestore. destruct (truthy hs) eqn:T.
    + rewrite prop_to_firestore.
      destruct (toDate_or_null (prop "screeningDate" hs)) as [sd|e] eqn:Esd;
        [|discriminate].
      rewrite (toDate_or_null_to_firestore _ _ Esd).
      simpl in Hv |- *. rewrite (Hhs hs sd eq_refl T).
      destruct (toDate_or_null (obj_get "checkInTime" p)) as [ci|] eqn:Eci;
        [|discriminate].
      rewrite (toDate_or_null_to_firestore _ _ Eci).
      destruct (toDate_or_null (obj_get "checkOutTime" p)) as [co|] eqn:Eco;
        [|discriminate].
      rewrite (toDate_or_null_to_firestore _ _ Eco). exact Hv.
    + simpl in Hv |- *.
      destruct (toDate_or_null (obj_get "checkInTime" p)) as [ci|] eqn:Eci;
        [|discriminate].
      rewrite (toDate_or_null_to_firestore _ _ Eci).
      destruct (toDate_or_null (obj_get "checkOutTime" p)) as [co|] eqn:Eco;
        [|discriminate].
      rewrite (toDate_or_null_to_firestore _ _ Eco). exact Hv.
  - simpl in Hv |- *.
    destruct (toDate_or_null (obj_get "checkInTime" p)) as [ci|] eqn:Eci;
      [|discriminate].
    rewrite (toDate_or_null_to_firestore _ _ Eci).
    destruct (toDate_or_null (obj_get "checkOutTime" p)) as [co|] eqn:Eco;
      [|discriminate].
    rewrite (toDate_or_null_to_firestore _ _ Eco). exact Hv.
Qed.

Section ReadBack.
Context `{RT : Runtime}.

(** X22.  What a check-in returns is what is stored.  For a form that
    holds no date but the date of its health screening, the visitor
    returned by [checkInVisitor] is the very visitor that the conversion
    gives back from the record stored under its id. *)
Theorem checkInVisitor_read_back (visitorData : obj)
    (isReturningVisitor : bool) (w w' : World) (v : Visitor)
    (Hin : checkInVisitor visitorData isReturningVisitor w = (Ok v, w'))
    (Hplain : plain_form visitorData) :
  exists data,
    visitors w' !! id v = Some data
    /\ mapDocToVisitor (id v) data = Ok v.
Proof.
  destruct Hplain as [Hcopied Hscreening].
  destruct (checkInVisitor_steps visitorData isReturningVisitor w)
    as (vid & qr & badge & w1 & r2 & w2 & Hids & Hhs & Hrun).
  destruct r2 as [p|e]; [|rewrite Hin in Hrun; discriminate].
  destruct (next_fault w) as [e|]; [rewrite Hin in Hrun; discriminate|].
  destruct Hrun as (w'' & Hrun & Hv'). rewrite Hin in Hrun.
  injection Hrun as Hv <-. symmetry in Hv.
  destruct (mapDocToVisitor_inv _ _ _ Hv) as (Hid & _).
  exists (to_firestore_obj p). rewrite Hid.
  split; [rewrite Hv'; apply lookup_insert_eq|].
  destruct (check_in_payload vid qr badge (now w1) visitorData)
    as (Hi & Hq & Hb & _ & Hs & Hkeep). cbv zeta in Hi, Hq, Hb, Hs, Hkeep.
  assert (Hvid : date_free vid).
  { rewrite choose_ids_exact in Hids.
    destruct (returning_id visitorData isReturningVisitor) as [given|] eqn:R;
      injection Hids as <- _ _ _; [|reflexivity].
    apply returning_id_truthy in R as (_ & Hg & _).
    apply (Hcopied "visitorIdNumber" _);
      [unfold copied_fields; repeat constructor|exact Hg]. }
  apply with_healthScreening_shape in Hhs.
  apply mapDocToVisitor_stored; [exact Hv| |].
  - intros f x Hf Hx.
    assert (Hx' : obj_get f
                    (obj_assign [("visitorIdNumber", vid); ("qrCode", VStr qr);
                                 ("badgeNumber", VStr badge);
                                 ("checkInTime", Timestamp_fromMillis (now w1));
                                 ("status", VStr "checked-in")] visitorData)
                  = Some x).
    { destruct Hhs as [[-> _] | (hs & ms & _ & _ & ->)]; [exact Hx|].
      rewrite obj_get_set_ne in Hx; [exact Hx|].
      intros <-. clear -Hf. listed. }
    clear Hx.
    destruct (decide (f = "visitorIdNumber")) as [->|N1].
    { rewrite Hi in Hx'. now injection Hx' as <-. }
    destruct (decide (f = "qrCode")) as [->|N2].
    { rewrite Hq in Hx'. now injection Hx' as <-. }
    destruct (decide (f = "badgeNumber")) as [->|N3].
    { rewrite Hb in Hx'. now injection Hx' as <-. }
    destruct (decide (f = "status")) as [->|N4].
    { rewrite Hs in Hx'. now injection Hx' as <-. }
    rewrite Hkeep in Hx' by (clear -Hf N1 N2 N3 N4; listed).
    apply (Hcopied f x);
      [clear -Hf N1 N2 N3 N4; unfold copied_fields; listed|exact Hx'].
  - intros hs0 sd Hhs0 T.
    destruct Hhs as [[-> Hfalsy] | (hs & ms & Hhs & Ths & ->)].
    + rewrite Hkeep in Hhs0 by (clear; listed).
      rewrite (Hfalsy _ Hhs0) in T. discriminate.
    + rewrite obj_get_set_eq in Hhs0. injection Hhs0 as <-.
      change (spread (to_firestore (VMap ?X))) with (to_firestore_obj X).
      simpl spread.
      rewrite to_firestore_obj_obj_set, !obj_set_obj_set.
      apply obj_set_to_firestore_obj, (Hscreening hs Hhs Ths).
Qed.
End ReadBack.

(** Ann's record, read back after her check-in. *)
Lemma checkInVisitor_read_back_witness :
  exists v w' data,
    checkInVisitor ann false morning = (Ok v, w')
    /\ visitors w' !! "doc1" = Some data
    /\ mapDocToVisitor "doc1" data = Ok v.
Proof.
  destruct (checkInVisitor ann false morning) as [[v|e] w'] eqn:Hrun;
    [|vm_compute in Hrun; discriminate].
  assert (Hplain : plain_form ann).
  { split.
    - intros f x _ Hx. unfold ann in Hx. simpl in Hx.
      repeat (destruct (String.eqb f _);
              [injection Hx as <-; reflexivity|]).
      discriminate.
    - intros hs Hhs. discriminate. }
  destruct (checkInVisitor_read_back ann false morning w' v Hrun Hplain)
    as (data & Hd & Hv).
  assert (Hid : id v = "doc1").
  { vm_compute in Hrun. now injection Hrun as <- _. }
  rewrite Hid in Hd, Hv. exists v, w', data.
  split; [reflexivity|]. split; assumption.
Defined.
